(** * A price-forecasting pipeline: windows, scalers, training, ensembles, features

    A shallow embedding of the numeric core of the forecasting services
    ([apps/ml-service] and [apps/ml-python]) together with the properties
    their specification states about them.

    Conventions.
    - Python exceptions are values of [exn]; a call that may raise returns a
      [result].
    - Where a statement is algebraic (scalers, ensemble combination) Python
      floats are read as real numbers.  The conversion to float32 that
      [torch.FloatTensor] makes is explicit: [B32.of_float] on doubles,
      [Np.float32] on real numbers.  Where special values matter (losses, the
      feature table's undefined entries) the code is written once over the
      interface [Floating] and read at two instances: the extended reals and
      IEEE binary64.
    - numpy, pandas, scikit-learn and torch are collaborators of the
      repository; the few operations the code calls are modelled from their
      documented behaviour, next to the function that calls them. *)

From Stdlib Require Import Uint63 Floats ZArith List Reals Lra Lia String Bool.
From stdpp Require Import gmap strings pretty list sorting.
Import ListNotations.

#[local] Open Scope nat_scope.

(** ** Python results *)

Inductive exn : Type :=
| ValueError (msg : string)
| IndexError
| ZeroDivisionError
| TypeError (msg : string)
| KeyError (key : string)
| AttributeError (name : string)
| FileNotFoundError (path : string)
| RuntimeError (msg : string)
| HTTPException (status_code : nat) (detail : string).

Inductive result (A : Type) : Type :=
| Ok (a : A)
| Raise (e : exn).
Arguments Ok {A} a.
Arguments Raise {A} e.

#[global] Instance result_ret : MRet result := fun A a => Ok a.
#[global] Instance result_bind : MBind result :=
  fun A B f r => match r with Ok a => f a | Raise e => Raise e end.
#[global] Instance result_fmap : FMap result :=
  fun A B f r => match r with Ok a => Ok (f a) | Raise e => Raise e end.

Definition is_ok {A} (r : result A) : bool :=
  match r with Ok _ => true | Raise _ => false end.

(** [range(n)] for a Python integer [n]: empty when [n <= 0]. *)
Definition py_range (n : Z) : list nat := seq 0 (Z.to_nat n).

(** ** Floats

    The operations on Python floats that the code performs where nan and
    the infinities matter.  [f_ltb] is [<]: false as soon as one side is
    nan. *)

Class Floating (F : Type) : Type := {
  f_of_Z : Z -> F;
  f_nan : F;
  f_inf : F;
  f_add : F -> F -> F;
  f_sub : F -> F -> F;
  f_mul : F -> F -> F;
  f_div : F -> F -> F;
  f_neg : F -> F;
  f_abs : F -> F;
  f_sqrt : F -> F;
  f_log : F -> F;
  f_ltb : F -> F -> bool;
  f_isnan : F -> bool;
}.

(** *** The extended reals: real arithmetic with the IEEE special values *)

Inductive xreal : Type :=
| Fin (r : R)
| PInf
| NInf
| XNaN.

Module Xreal.
#[local] Open Scope R_scope.

Definition sign_inf (positive : bool) : xreal :=
  if positive then PInf else NInf.

Definition add (x y : xreal) : xreal :=
  match x, y with
  | XNaN, _ | _, XNaN => XNaN
  | Fin a, Fin b => Fin (a + b)
  | PInf, NInf | NInf, PInf => XNaN
  | PInf, _ | _, PInf => PInf
  | NInf, _ | _, NInf => NInf
  end.

Definition opp (x : xreal) : xreal :=
  match x with
  | Fin a => Fin (- a)
  | PInf => NInf
  | NInf => PInf
  | XNaN => XNaN
  end.

Definition sub (x y : xreal) : xreal := add x (opp y).

(** An infinity times a finite number: nan for zero. *)
Definition scale_inf (positive : bool) (a : R) : xreal :=
  if Rlt_dec 0 a then sign_inf positive
  else if Rlt_dec a 0 then sign_inf (negb positive)
  else XNaN.

Definition mul (x y : xreal) : xreal :=
  match x, y with
  | XNaN, _ | _, XNaN => XNaN
  | Fin a, Fin b => Fin (a * b)
  | PInf, Fin a | Fin a, PInf => scale_inf true a
  | NInf, Fin a | Fin a, NInf => scale_inf false a
  | PInf, PInf | NInf, NInf => PInf
  | PInf, NInf | NInf, PInf => NInf
  end.

(** Division; the sign of a zero divisor is not tracked, it counts as
    positive. *)
Definition div (x y : xreal) : xreal :=
  match x, y with
  | XNaN, _ | _, XNaN => XNaN
  | Fin a, Fin b =>
      if Req_dec_T b 0 then scale_inf true a else Fin (a / b)
  | Fin _, PInf | Fin _, NInf => Fin 0
  | PInf, Fin b => if Rlt_dec b 0 then NInf else PInf
  | NInf, Fin b => if Rlt_dec b 0 then PInf else NInf
  | _, _ => XNaN
  end.

Definition abs (x : xreal) : xreal :=
  match x with
  | Fin a => Fin (Rabs a)
  | PInf | NInf => PInf
  | XNaN => XNaN
  end.

Definition sqrt (x : xreal) : xreal :=
  match x with
  | Fin a => if Rlt_dec a 0 then XNaN else Fin (R_sqrt.sqrt a)
  | PInf => PInf
  | NInf | XNaN => XNaN
  end.

Definition log (x : xreal) : xreal :=
  match x with
  | Fin a =>
      if Rlt_dec a 0 then XNaN
      else if Req_dec_T a 0 then NInf else Fin (ln a)
  | PInf => PInf
  | NInf | XNaN => XNaN
  end.

Definition ltb (x y : xreal) : bool :=
  match x, y with
  | XNaN, _ | _, XNaN => false
  | Fin a, Fin b => if Rlt_dec a b then true else false
  | NInf, NInf | PInf, _ | _, NInf => false
  | NInf, _ | _, PInf => true
  end.

Definition isnan (x : xreal) : bool :=
  match x with XNaN => true | _ => false end.

End Xreal.

#[global] Instance xreal_ops : Floating xreal := {|
  f_of_Z z := Fin (IZR z);
  f_nan := XNaN;
  f_inf := PInf;
  f_add := Xreal.add;
  f_sub := Xreal.sub;
  f_mul := Xreal.mul;
  f_div := Xreal.div;
  f_neg := Xreal.opp;
  f_abs := Xreal.abs;
  f_sqrt := Xreal.sqrt;
  f_log := Xreal.log;
  f_ltb := Xreal.ltb;
  f_isnan := Xreal.isnan;
|}.

(** *** IEEE binary64: the floats Python computes with *)

Module B64.
#[local] Open Scope float_scope.

(** The float nearest to an integer (exact below [2^53]). *)
Definition of_Z (z : Z) : float :=
  match z with
  | Z0 => 0
  | Zpos _ => PrimFloat.of_uint63 (Uint63.of_Z z)
  | Zneg p => - PrimFloat.of_uint63 (Uint63.of_Z (Zpos p))
  end.

(** [1/k + t2 * (1/(k+2) + t2 * (...))], [n] terms: the series of the
    inverse hyperbolic tangent in Horner form. *)
Fixpoint atanh_tail (n : nat) (k : Z) (t2 : float) : float :=
  match n with
  | O => 0
  | S n' => 1 / of_Z k + t2 * atanh_tail n' (k + 2) t2
  end.

(** The natural logarithm: the special cases of IEEE and numpy, and for a
    positive finite [x = m * 2^e] with [m] in [[sqrt(1/2), sqrt 2)] the
    value [e * ln 2 + 2 * atanh ((m - 1) / (m + 1))], the series cut after
    40 terms. *)
Definition log (x : float) : float :=
  if PrimFloat.is_nan x then nan
  else if x <? 0 then nan
  else if x =? 0 then neg_infinity
  else if x =? infinity then infinity
  else
    let '(m, e) := PrimFloat.frshiftexp x in
    let e := (Uint63.to_Z e - FloatOps.shift)%Z in
    let '(m, e) :=
      if m <? 0x1.6a09e667f3bcdp-1 then (2 * m, (e - 1)%Z) else (m, e) in
    let e := of_Z e in
    let t := (m - 1) / (m + 1) in
    e * 0x1.62e42fefa39efp-1 + 2 * (t * atanh_tail 40 1 (t * t)).

End B64.

#[global] Instance b64_ops : Floating float := {|
  f_of_Z := B64.of_Z;
  f_nan := PrimFloat.nan;
  f_inf := PrimFloat.infinity;
  f_add := PrimFloat.add;
  f_sub := PrimFloat.sub;
  f_mul := PrimFloat.mul;
  f_div := PrimFloat.div;
  f_neg := PrimFloat.opp;
  f_abs := PrimFloat.abs;
  f_sqrt := PrimFloat.sqrt;
  f_log := B64.log;
  f_ltb := PrimFloat.ltb;
  f_isnan := PrimFloat.is_nan;
|}.

(** *** IEEE binary32: the entries of a [torch.FloatTensor]

    A float32 value is kept as the binary64 float of the same value. *)

Module B32.

(** The conversion of a double to float32: round to nearest, ties to even,
    with the subnormals and the overflow to infinity of binary32
    (precision 24, maximal exponent 128). *)
Definition of_float (x : float) : float :=
  match Prim2SF x with
  | S754_finite s m e =>
      SF2Prim (SpecFloat.binary_normalize 24 128
                 (if s then Zneg m else Zpos m) e s)
  | _ => x
  end.

End B32.

(** ** numpy: arrays and the reductions the code calls *)

Module Np.
Section NdArray.
Context {A : Type}.

(** A two-dimensional array of shape [(length rows, ncols)]. *)
Record ndarray : Type := NdArray { ncols : nat; rows : list (list A) }.

Definition wf (data : ndarray) : Prop :=
  Forall (fun row => length row = ncols data) (rows data).

(** [len(data)] *)
Definition len (data : ndarray) : nat := length (rows data).

(** [data[lo:hi]] for non-negative bounds: rows [lo], ..., [hi - 1],
    clipped at the end of the array. *)
Definition getslice (data : ndarray) (lo hi : nat) : list (list A) :=
  take (hi - lo) (drop lo (rows data)).

(** [data[r, c]]: both indices are bounds-checked. *)
Definition getitem (data : ndarray) (r c : nat) : result A :=
  if decide (c < ncols data) then
    match rows data !! r with
    | Some row =>
        match row !! c with Some a => Ok a | None => Raise IndexError end
    | None => Raise IndexError
    end
  else Raise IndexError.

(** [data[lo:hi, c]]: the column index is checked against the shape even
    when the row slice is empty. *)
Definition getslice_col (data : ndarray) (lo hi c : nat) : result (list A) :=
  if decide (c < ncols data) then
    mapM (M := result)
         (fun row => match row !! c with Some a => Ok a | None => Raise IndexError end)
         (getslice data lo hi)
  else Raise IndexError.

(** [y.reshape(-1, 1)]: a one-dimensional array as a single column. *)
Definition reshape_column (y : list A) : ndarray :=
  NdArray 1 (map (fun a => [a]) y).

(** [a.flatten()] *)
Definition flatten (data : ndarray) : list A := concat (rows data).

End NdArray.
Arguments ndarray A : clear implicits.

#[local] Open Scope R_scope.

Definition np_sum (l : list R) : R := foldr Rplus 0 l.

(** [np.mean] of a non-empty array. *)
Definition np_mean (l : list R) : R := np_sum l / INR (length l).

(** [np.var]: the population variance (ddof = 0). *)
Definition np_var (l : list R) : R :=
  np_mean (map (fun x => (x - np_mean l) ^ 2) l).

(** [np.std]: the population standard deviation (ddof = 0). *)
Definition np_std (l : list R) : R := sqrt (np_var l).

(** [a * w], elementwise, for arrays of one shape. *)
Definition np_multiply (a w : list R) : list R := zip_with Rmult a w.

#[global] Instance Rle_rel_dec : RelDecision Rle := Rle_dec.

(** [np.sort] *)
Definition np_sort (l : list R) : list R := merge_sort Rle l.

(** The median of a non-empty array: the middle element of the sorted
    array, or the mean of the two middle elements. *)
Definition median (l : list R) : R :=
  let s := np_sort l in
  let n := length l in
  if Nat.even n then (nth (n / 2 - 1) s 0 + nth (n / 2) s 0) / 2
  else nth (n / 2) s 0.

(** [np.percentile(l, q)] of a non-empty array, linear interpolation
    between the two sorted elements around rank [(n - 1) * q / 100]. *)
Definition percentile (l : list R) (q : nat) : R :=
  let s := np_sort l in
  let n := length l in
  let lo := ((n - 1) * q / 100)%nat in
  let frac := INR ((n - 1) * q mod 100) / 100 in
  nth lo s 0 + frac * (nth (lo + 1) s 0 - nth lo s 0).

Definition np_min (l : list R) : R :=
  match l with [] => 0 | x :: l' => foldl Rmin x l' end.

Definition np_max (l : list R) : R :=
  match l with [] => 0 | x :: l' => foldl Rmax x l' end.

(** Column [j] of a matrix, and the list of its columns. *)
Definition column (data : ndarray R) (j : nat) : list R :=
  map (fun row => nth j row 0) (rows data).

Definition columns (data : ndarray R) : list (list R) :=
  map (column data) (seq 0 (ncols data)).

(** The integer nearest to a real number, ties to the even one. *)
Definition round_half_even (q : R) : Z :=
  let f := Int_part q in
  let d := q - IZR f in
  if Rlt_dec d (1 / 2) then f
  else if Rlt_dec (1 / 2) d then (f + 1)%Z
  else if Z.even f then f else (f + 1)%Z.

(** The conversion to float32 where floats are read as real numbers: the
    nearest binary32 number, ties to even, in units of [2^(e - 23)] for
    [2^e <= |x| < 2^(e+1)] (exponent -126 for the subnormals), and an
    infinity when the rounded magnitude reaches [2^128]. *)
Definition float32 (x : R) : xreal :=
  if Req_dec_T x 0 then Fin 0
  else
    let e := Z.max (Int_part (ln (Rabs x) / ln 2)) (-126) in
    let ulp := powerRZ 2 (e - 23) in
    let r := IZR (round_half_even (x / ulp)) * ulp in
    if Rle_dec (powerRZ 2 128) (Rabs r) then
      if Rlt_dec 0 x then PInf else NInf
    else Fin r.

End Np.

(** ** WindowBuilder: [create_sequences] (features/normalization.py) *)

Module WindowBuilder.
Import Np.

(** One target: a scalar when the horizon is 1, a vector otherwise. *)
Inductive target (A : Type) : Type :=
| Scalar (a : A)
| Steps (l : list A).
Arguments Scalar {A} a.
Arguments Steps {A} l.

Definition target_map {A B} (f : A -> B) (t : target A) : target B :=
  match t with
  | Scalar a => Scalar (f a)
  | Steps l => Steps (map f l)
  end.

Section CreateSequences.
Context {A T : Type}.
(** [torch.FloatTensor(np.array(.))], entry by entry: the conversion of an
    array entry to float32. *)
Variable float_tensor : A -> T.

(** The body of the [for] loop, threaded through the two accumulators. *)
Fixpoint create_sequences_loop (data : ndarray A)
    (sequence_length target_column forecast_horizon : nat)
    (idx : list nat) (X : list (list (list A))) (y : list (target A))
    : result (list (list (list A)) * list (target A)) :=
  match idx with
  | [] => Ok (X, y)
  | i :: idx' =>
      let seq_i := getslice data i (i + sequence_length) in
      let X := X ++ [seq_i] in
      tgt ← (if decide (forecast_horizon = 1) then
               Scalar <$> getitem data (i + sequence_length) target_column
             else
               Steps <$> getslice_col data (i + sequence_length)
                         (i + sequence_length + forecast_horizon) target_column);
      create_sequences_loop data sequence_length target_column
                            forecast_horizon idx' X (y ++ [tgt])
  end.

Definition create_sequences (data : ndarray A)
    (sequence_length target_column forecast_horizon : nat)
    : result (list (list (list T)) * list (target T)) :=
  '(X, y) ←
    create_sequences_loop data sequence_length target_column forecast_horizon
      (py_range (Z.of_nat (len data) - Z.of_nat sequence_length
                 - Z.of_nat forecast_horizon + 1))
      [] [];
  let X_tensor := map (map (map float_tensor)) X in
  let y_tensor := map (target_map float_tensor) y in
  Ok (X_tensor, y_tensor).

End CreateSequences.
End WindowBuilder.

(** ** Scaler: [Normalizer] (features/normalization.py)

    The class wraps one scikit-learn scaler.  A scaler object is its class
    and the attributes [fit] has set on it ([mean_], [scale_], ...); the
    array attributes are kept in a map from attribute name to array. *)

Module Normalizer.
Import Np.
#[local] Open Scope R_scope.

(** *** The scikit-learn scalers *)

Inductive scaler_class : Type :=
| StandardScaler
| MinMaxScaler
| RobustScaler.

Record sk_scaler : Type := SkScaler {
  sk_class : scaler_class;
  attrs : gmap string (list R);
  n_features_in_ : option nat;
}.

(** A scale of zero (a constant column) is replaced by one. *)
Definition handle_zeros_in_scale (s : R) : R :=
  if Req_dec_T s 0 then 1 else s.

(** Input validation: at least one sample and one feature. *)
Definition check_array (X : ndarray R) : result unit :=
  if (len X =? 0)%nat then
    Raise (ValueError "Found array with 0 sample(s) while a minimum of 1 is required.")
  else if (ncols X =? 0)%nat then
    Raise (ValueError "Found array with 0 feature(s) while a minimum of 1 is required.")
  else Ok ().

Definition sk_fit (sk : sk_scaler) (X : ndarray R) : result sk_scaler :=
  _ ← check_array X;
  let cols := columns X in
  let fitted :=
    match sk_class sk with
    | StandardScaler =>
        <["mean_" := map np_mean cols]>
        (<["var_" := map np_var cols]>
        (<["scale_" := map (fun c => handle_zeros_in_scale (np_std c)) cols]> ∅))
    | MinMaxScaler =>
        let data_min := map np_min cols in
        let data_max := map np_max cols in
        let data_range := zip_with Rminus data_max data_min in
        let scale := map (fun r => (1 - 0) / handle_zeros_in_scale r) data_range in
        <["min_" := zip_with (fun lo s => 0 - lo * s) data_min scale]>
        (<["scale_" := scale]>
        (<["data_min_" := data_min]>
        (<["data_max_" := data_max]>
        (<["data_range_" := data_range]> ∅))))
    | RobustScaler =>
        <["center_" := map median cols]>
        (<["scale_" := map (fun c => handle_zeros_in_scale
                                      (percentile c 75 - percentile c 25)) cols]> ∅)
    end in
  Ok (SkScaler (sk_class sk) fitted (Some (ncols X))).

(** [self.<name>] *)
Definition get_attr (sk : sk_scaler) (name : string) : result (list R) :=
  match attrs sk !! name with
  | Some v => Ok v
  | None => Raise (AttributeError name)
  end.

(** [check_is_fitted]: some attribute with a trailing underscore is set. *)
Definition check_is_fitted (sk : sk_scaler) : result unit :=
  if bool_decide (attrs sk = ∅) && negb (bool_decide (is_Some (n_features_in_ sk)))
  then Raise (ValueError "This scaler instance is not fitted yet.")
  else Ok ().

(** The feature-count check of [transform]; skipped when the object has no
    [n_features_in_]. *)
Definition check_n_features (sk : sk_scaler) (X : ndarray R) : result unit :=
  match n_features_in_ sk with
  | Some n =>
      if (ncols X =? n)%nat then Ok ()
      else Raise (ValueError "X has a different number of features than the scaler is expecting.")
  | None => Ok ()
  end.

(** numpy broadcasting of a one-dimensional array against rows of [k]
    columns, for an in-place operation. *)
Definition broadcast (v : list R) (k : nat) : result (list R) :=
  if (length v =? k)%nat then Ok v
  else match v with
       | [x] => Ok (replicate k x)
       | _ => Raise (ValueError "operands could not be broadcast together")
       end.

(** [X op= v], row by row. *)
Definition inplace (op : R -> R -> R) (X : ndarray R) (v : list R)
    : result (ndarray R) :=
  v ← broadcast v (ncols X);
  Ok (NdArray (ncols X) (map (fun row => zip_with op row v) (rows X))).

Definition sk_transform (sk : sk_scaler) (X : ndarray R) : result (ndarray R) :=
  _ ← check_is_fitted sk;
  _ ← check_array X;
  _ ← check_n_features sk X;
  match sk_class sk with
  | StandardScaler =>
      mean ← get_attr sk "mean_"; X ← inplace Rminus X mean;
      scale ← get_attr sk "scale_"; inplace Rdiv X scale
  | MinMaxScaler =>
      scale ← get_attr sk "scale_"; X ← inplace Rmult X scale;
      min ← get_attr sk "min_"; inplace Rplus X min
  | RobustScaler =>
      center ← get_attr sk "center_"; X ← inplace Rminus X center;
      scale ← get_attr sk "scale_"; inplace Rdiv X scale
  end.

Definition sk_inverse_transform (sk : sk_scaler) (X : ndarray R)
    : result (ndarray R) :=
  _ ← check_is_fitted sk;
  _ ← check_array X;
  match sk_class sk with
  | StandardScaler =>
      scale ← get_attr sk "scale_"; X ← inplace Rmult X scale;
      mean ← get_attr sk "mean_"; inplace Rplus X mean
  | MinMaxScaler =>
      min ← get_attr sk "min_"; X ← inplace Rminus X min;
      scale ← get_attr sk "scale_"; inplace Rdiv X scale
  | RobustScaler =>
      scale ← get_attr sk "scale_"; X ← inplace Rmult X scale;
      center ← get_attr sk "center_"; inplace Rplus X center
  end.

(** *** The class *)

Record normalizer : Type := MkNormalizer {
  method : string;
  scaler : sk_scaler;
  is_fitted : bool;
}.

Definition _create_scaler (method : string) : result sk_scaler :=
  if String.eqb method "standard" then Ok (SkScaler StandardScaler ∅ None)
  else if String.eqb method "minmax" then Ok (SkScaler MinMaxScaler ∅ None)
  else if String.eqb method "robust" then Ok (SkScaler RobustScaler ∅ None)
  else Raise (ValueError ("Unknown normalization method: " +:+ method)).

(** [Normalizer(method)] *)
Definition init (method : string) : result normalizer :=
  scaler ← _create_scaler method;
  Ok (MkNormalizer method scaler false).

Definition fit (self : normalizer) (data : ndarray R) : result normalizer :=
  scaler ← sk_fit (scaler self) data;
  Ok (MkNormalizer (method self) scaler true).

Definition transform (self : normalizer) (data : ndarray R)
    : result (ndarray R) :=
  if negb (is_fitted self) then
    Raise (ValueError "Normalizer must be fitted before transform")
  else sk_transform (scaler self) data.

Definition fit_transform (self : normalizer) (data : ndarray R)
    : result (normalizer * ndarray R) :=
  self ← fit self data;
  out ← transform self data;
  Ok (self, out).

Definition inverse_transform (self : normalizer) (data : ndarray R)
    : result (ndarray R) :=
  if negb (is_fitted self) then
    Raise (ValueError "Normalizer must be fitted before inverse_transform")
  else sk_inverse_transform (scaler self) data.

(** *** Persistence *)

(** The values of the saved JSON document. *)
Inductive json : Type :=
| JString (s : string)
| JBool (b : bool)
| JArray (l : list R).

(** [params[key] = self.scaler.<attr>.tolist()] *)
Definition put_attr (self : normalizer) (key attr : string)
    (params : gmap string json) : result (gmap string json) :=
  v ← get_attr (scaler self) attr;
  Ok (<[key := JArray v]> params).

(** [save]: the disk is a map from paths to documents; [json.dump] followed
    by [json.load] returns the document that was written. *)
Definition save (self : normalizer) (path : string)
    (disk : gmap string (gmap string json))
    : result (gmap string (gmap string json)) :=
  if negb (is_fitted self) then Raise (ValueError "Cannot save unfitted scaler")
  else
    let params : gmap string json :=
      <["is_fitted" := JBool (is_fitted self)]>
      (<["method" := JString (method self)]> ∅) in
    params ←
      (if String.eqb (method self) "standard" then
         params ← put_attr self "mean" "mean_" params;
         put_attr self "scale" "scale_" params
       else if String.eqb (method self) "minmax" then
         params ← put_attr self "min" "min_" params;
         params ← put_attr self "scale" "scale_" params;
         params ← put_attr self "data_min" "data_min_" params;
         put_attr self "data_max" "data_max_" params
       else if String.eqb (method self) "robust" then
         params ← put_attr self "center" "center_" params;
         put_attr self "scale" "scale_" params
       else Ok params);
    Ok (<[path := params]> disk).

(** [params[key]] *)
Definition getitem (params : gmap string json) (key : string) : result json :=
  match params !! key with
  | Some v => Ok v
  | None => Raise (KeyError key)
  end.

(** [np.array(params[key])] for a list of numbers. *)
Definition get_array (params : gmap string json) (key : string)
    : result (list R) :=
  v ← getitem params key;
  match v with
  | JArray l => Ok l
  | _ => Raise (TypeError "expected a list of numbers")
  end.

(** [normalizer.scaler.<attr> = np.array(params[key])] *)
Definition set_attr (sk : sk_scaler) (attr : string)
    (params : gmap string json) (key : string) : result sk_scaler :=
  v ← get_array params key;
  Ok (SkScaler (sk_class sk) (<[attr := v]> (attrs sk)) (n_features_in_ sk)).

(** [normalizer.scaler.n_features_in_ = len(params[key])] *)
Definition set_n_features (sk : sk_scaler)
    (params : gmap string json) (key : string) : result sk_scaler :=
  v ← get_array params key;
  Ok (SkScaler (sk_class sk) (attrs sk) (Some (length v))).

Definition load (path : string) (disk : gmap string (gmap string json))
    : result normalizer :=
  params ← match disk !! path with
           | Some params => Ok params
           | None => Raise (FileNotFoundError path)
           end;
  m ← getitem params "method";
  match m with
  | JString m =>
      self ← init m;
      let sk := scaler self in
      sk ←
        (if String.eqb m "standard" then
           sk ← set_attr sk "mean_" params "mean";
           sk ← set_attr sk "scale_" params "scale";
           set_n_features sk params "mean"
         else if String.eqb m "minmax" then
           sk ← set_attr sk "min_" params "min";
           sk ← set_attr sk "scale_" params "scale";
           sk ← set_attr sk "data_min_" params "data_min";
           sk ← set_attr sk "data_max_" params "data_max";
           set_n_features sk params "min"
         else if String.eqb m "robust" then
           sk ← set_attr sk "center_" params "center";
           sk ← set_attr sk "scale_" params "scale";
           set_n_features sk params "center"
         else Ok sk);
      Ok (MkNormalizer m sk true)
  | _ => Raise (ValueError "Unknown normalization method")
  end.

End Normalizer.

(** ** Training data preparation: [train_model], steps 3 to 5
    (api/training.py)

    The endpoint receives the feature table; [X_data] is its feature
    columns and [y_data] its close column, row for row. *)

Module Training.
Import Np.

(** [int(x)] for a finite float: truncation towards zero. *)
Definition py_int (x : float) : Z :=
  match Prim2SF x with
  | S754_finite s m e =>
      let v := match e with
               | Z0 => Zpos m
               | Zpos p => Z.shiftl (Zpos m) (Zpos p)
               | Zneg p => Z.shiftr (Zpos m) (Zpos p)
               end in
      if s then (- v)%Z else v
  | _ => 0%Z
  end.

(** The float a Python integer is converted to in [n * 0.7]. *)
Definition float_of_nat (n : nat) : float :=
  PrimFloat.of_uint63 (Uint63.of_Z (Z.of_nat n)).

(** [int(n * 0.7)] and [int(n * 0.15)], in binary64 as Python computes them;
    the literals are the doubles nearest to 0.7 and 0.15. *)
Definition train_size (n : nat) : nat :=
  Z.to_nat (py_int (PrimFloat.mul (float_of_nat n) 0x1.6666666666666p-1%float)).

Definition val_size (n : nat) : nat :=
  Z.to_nat (py_int (PrimFloat.mul (float_of_nat n) 0x1.3333333333333p-3%float)).

Section Prepare.
Context {T : Type}.
(** [torch.FloatTensor]: the conversion of an entry to float32. *)
Variable float_tensor : R -> T.

Record prepared : Type := Prepared {
  X_normalizer : Normalizer.normalizer;
  y_normalizer : Normalizer.normalizer;
  X_train : list (list (list T));
  y_train : list T;
  X_val : list (list (list T));
  y_val : list T;
  X_test : list (list (list T));
  y_test : list T;
}.

Definition prepare (normalization : string) (sequence_length : nat)
    (X_data : ndarray R) (y_data : list R) : result prepared :=
  (* 3. Normalization *)
  X_normalizer ← Normalizer.init normalization;
  '(X_normalizer, X_normalized) ← Normalizer.fit_transform X_normalizer X_data;
  y_normalizer ← Normalizer.init normalization;
  '(y_normalizer, y_normalized) ←
     Normalizer.fit_transform y_normalizer (reshape_column y_data);
  let y_normalized := flatten y_normalized in
  (* 4. Create sequences *)
  '(X_sequences, _) ←
     WindowBuilder.create_sequences float_tensor X_normalized
       sequence_length 0 1;
  let y_close_normalized := drop sequence_length y_normalized in
  let y_targets :=
    map float_tensor (take (length X_sequences) y_close_normalized) in
  (* 5. Train/Val/Test split (70/15/15) *)
  let n := length X_sequences in
  let train_size := train_size n in
  let val_size := val_size n in
  Ok {| X_normalizer := X_normalizer;
        y_normalizer := y_normalizer;
        X_train := take train_size X_sequences;
        y_train := take train_size y_targets;
        X_val := take val_size (drop train_size X_sequences);
        y_val := take val_size (drop train_size y_targets);
        X_test := drop (train_size + val_size) X_sequences;
        y_test := drop (train_size + val_size) y_targets |}.

End Prepare.
Arguments prepared T : clear implicits.

(** The rows of the input that reach the training partition: the windows
    [0 .. train_size - 1] cover rows [0 .. train_size + L - 2] and their
    targets are rows [L .. train_size + L - 1]. *)
Definition training_rows (sequence_length n_rows : nat) : nat :=
  let n := (n_rows - sequence_length)%nat in
  if (train_size n =? 0)%nat then 0%nat
  else (train_size n + sequence_length)%nat.

End Training.

(** ** TrainingController: [Trainer] (training/trainer.py)

    The predictor and its optimizer are collaborators: one optimisation
    step on a batch and the loss of a batch are parameters of the model.
    What the class itself does is bookkeeping over them, and that is
    modelled in full, including where tensors live.  A parameter tensor is a
    cell of the heap; [model.state_dict()] returns a dictionary from
    parameter names to references to those same cells, [dict.copy()] copies
    the dictionary and not the cells, and an optimizer step writes the
    cells in place. *)

Module Trainer.
Section Trainer.
Context {F : Type} `{Floating F}.
(** The value of a parameter tensor, a batch of a data loader, and the
    state of the optimizer together with its learning-rate scheduler. *)
Context {tensor batch optim : Type}.
(** One step on a training batch: forward pass, loss, backward pass,
    gradient clipping, [optimizer.step()]: new parameter values, new
    optimizer state, [loss.item()]. *)
Variable train_step : list tensor -> optim -> batch -> list tensor * optim * F.
(** [criterion(model(batch_X).squeeze(), batch_y).item()] without update. *)
Variable eval_loss : list tensor -> batch -> F.
(** [scheduler.step(val_loss)] *)
Variable scheduler_step : optim -> F -> optim.

(** The world outside the object: tensor storage, and the paths of the
    files written so far, oldest first. *)
Record world : Type := World {
  heap : gmap nat tensor;
  written : list string;
}.

Record trainer : Type := MkTrainer {
  model : list (string * nat);
  optimizer : optim;
  train_losses : list F;
  val_losses : list F;
  best_val_loss : F;
  best_model_state : option (list (string * nat));
  epochs_without_improvement : nat;
}.

(** [Trainer(model, device, ...)] *)
Definition init (model : list (string * nat)) (optimizer : optim) : trainer :=
  {| model := model;
     optimizer := optimizer;
     train_losses := [];
     val_losses := [];
     best_val_loss := f_inf;
     best_model_state := None;
     epochs_without_improvement := 0 |}.

(** The current values of the model's parameters. *)
Definition parameters (model : list (string * nat)) (h : gmap nat tensor)
    : list tensor :=
  omap (fun p => h !! p.2) model.

(** In-place update of the parameters. *)
Definition update_parameters (model : list (string * nat))
    (values : list tensor) (h : gmap nat tensor) : gmap nat tensor :=
  foldl (fun h pv => <[(pv.1).2 := pv.2]> h) h (zip model values).

(** [model.state_dict()]: references to the parameters, by name. *)
Definition state_dict (model : list (string * nat)) : list (string * nat) :=
  model.

(** [d.copy()]: a new dictionary holding the same references. *)
Definition dict_copy (d : list (string * nat)) : list (string * nat) := d.

(** [d[name]] *)
Fixpoint dict_get (d : list (string * nat)) (name : string) : option nat :=
  match d with
  | [] => None
  | (k, v) :: d' => if String.eqb k name then Some v else dict_get d' name
  end.

(** [model.load_state_dict(d)]: each parameter is overwritten, in place,
    by the tensor the dictionary holds under its name. *)
Fixpoint load_state_dict (model : list (string * nat))
    (d : list (string * nat)) (h : gmap nat tensor)
    : result (gmap nat tensor) :=
  match model with
  | [] => Ok h
  | (name, dst) :: model' =>
      match dict_get d name with
      | Some src =>
          match h !! src with
          | Some v => load_state_dict model' d (<[dst := v]> h)
          | None => Raise (RuntimeError "dangling tensor")
          end
      | None => Raise (RuntimeError "Missing key(s) in state_dict")
      end
  end.

(** *** [train_epoch] *)

Fixpoint train_epoch_loop (model : list (string * nat))
    (train_loader : list batch) (opt : optim) (h : gmap nat tensor)
    (total_loss : F) (num_batches : nat)
    : optim * gmap nat tensor * F * nat :=
  match train_loader with
  | [] => (opt, h, total_loss, num_batches)
  | b :: rest =>
      let '(values, opt, loss) := train_step (parameters model h) opt b in
      let h := update_parameters model values h in
      train_epoch_loop model rest opt h (f_add total_loss loss) (S num_batches)
  end.

Definition train_epoch (model : list (string * nat))
    (train_loader : list batch) (opt : optim) (h : gmap nat tensor)
    : result (optim * gmap nat tensor * F) :=
  let '(opt, h, total_loss, num_batches) :=
    train_epoch_loop model train_loader opt h (f_of_Z 0) 0 in
  if (num_batches =? 0)%nat then Raise ZeroDivisionError
  else Ok (opt, h, f_div total_loss (f_of_Z (Z.of_nat num_batches))).

(** *** [validate] *)

Fixpoint validate_loop (model : list (string * nat))
    (val_loader : list batch) (h : gmap nat tensor)
    (total_loss : F) (num_batches : nat) : F * nat :=
  match val_loader with
  | [] => (total_loss, num_batches)
  | b :: rest =>
      let loss := eval_loss (parameters model h) b in
      validate_loop model rest h (f_add total_loss loss) (S num_batches)
  end.

Definition validate (model : list (string * nat))
    (val_loader : list batch) (h : gmap nat tensor) : result F :=
  let '(total_loss, num_batches) :=
    validate_loop model val_loader h (f_of_Z 0) 0 in
  if (num_batches =? 0)%nat then Raise ZeroDivisionError
  else Ok (f_div total_loss (f_of_Z (Z.of_nat num_batches))).

(** *** [train] *)

(** One iteration of the [for epoch in range(epochs)] loop, up to and
    without the early-stopping test.  [train_loader epoch] is the batches
    the shuffling loader yields in that pass. *)
Definition epoch_body (train_loader : nat -> list batch)
    (val_loader : list batch) (checkpoint_dir : option string)
    (epoch : nat) (st : trainer * world) : result (trainer * world) :=
  let '(self, w) := st in
  (* Train *)
  '(opt, h, train_loss) ←
     train_epoch (model self) (train_loader epoch) (optimizer self) (heap w);
  let train_losses := train_losses self ++ [train_loss] in
  (* Validate *)
  val_loss ← validate (model self) val_loader h;
  let val_losses := val_losses self ++ [val_loss] in
  (* Learning rate scheduling *)
  let opt := scheduler_step opt val_loss in
  (* Check for improvement *)
  if f_ltb val_loss (best_val_loss self) then
    Ok ({| model := model self;
           optimizer := opt;
           train_losses := train_losses;
           val_losses := val_losses;
           best_val_loss := val_loss;
           best_model_state := Some (dict_copy (state_dict (model self)));
           epochs_without_improvement := 0 |},
        {| heap := h;
           written :=
             match checkpoint_dir with
             | Some dir => written w ++ [dir +:+ "/best_model.pt"]
             | None => written w
             end |})
  else
    Ok ({| model := model self;
           optimizer := opt;
           train_losses := train_losses;
           val_losses := val_losses;
           best_val_loss := best_val_loss self;
           best_model_state := best_model_state self;
           epochs_without_improvement := S (epochs_without_improvement self) |},
        {| heap := h; written := written w |}).

(** [self.epochs_without_improvement >= early_stopping_patience] *)
Definition early_stop (early_stopping_patience : Z) (self : trainer) : bool :=
  (early_stopping_patience <=? Z.of_nat (epochs_without_improvement self))%Z.

Fixpoint train_loop (train_loader : nat -> list batch)
    (val_loader : list batch) (early_stopping_patience : Z)
    (checkpoint_dir : option string)
    (epochs : list nat) (st : trainer * world) : result (trainer * world) :=
  match epochs with
  | [] => Ok st
  | epoch :: rest =>
      st ← epoch_body train_loader val_loader checkpoint_dir epoch st;
      if early_stop early_stopping_patience st.1 then Ok st
      else train_loop train_loader val_loader early_stopping_patience
                      checkpoint_dir rest st
  end.

(** The returned history (the wall-clock [training_time] is left out). *)
Record history : Type := History {
  h_epochs : nat;
  h_best_val_loss : F;
  h_train_losses : list F;
  h_val_losses : list F;
}.

(** [if self.best_model_state: self.model.load_state_dict(...)]: an empty
    dictionary is falsy. *)
Definition restore_best (self : trainer) (h : gmap nat tensor)
    : result (gmap nat tensor) :=
  match best_model_state self with
  | Some (entry :: d) => load_state_dict (model self) (entry :: d) h
  | _ => Ok h
  end.

Definition train (train_loader : nat -> list batch)
    (val_loader : list batch) (epochs early_stopping_patience : Z)
    (checkpoint_dir : option string) (st : trainer * world)
    : result (trainer * world * history) :=
  '(self, w) ← train_loop train_loader val_loader early_stopping_patience
                 checkpoint_dir (py_range epochs) st;
  (* Restore best model *)
  h ← restore_best self (heap w);
  Ok (self, {| heap := h; written := written w |},
      {| h_epochs := length (train_losses self);
         h_best_val_loss := best_val_loss self;
         h_train_losses := train_losses self;
         h_val_losses := val_losses self |}).

End Trainer.
Arguments world tensor : clear implicits.
Arguments trainer F optim : clear implicits.
Arguments history F : clear implicits.
End Trainer.

(** ** Training endpoint: [train_model], steps 8 to 10 (api/training.py)

    Training, evaluation on the test partition, and the publication of the
    artifact: the model file, the two scaler documents and the metadata
    document, all under [model_cache_dir / symbol]. *)

Module TrainModel.
Section TrainModel.
Context {F : Type} `{Floating F}.
Context {tensor batch optim metrics : Type}.
Variable train_step : list tensor -> optim -> batch -> list tensor * optim * F.
Variable eval_loss : list tensor -> batch -> F.
Variable scheduler_step : optim -> F -> optim.
(** [trainer.evaluate(test_loader)] on the current parameters. *)
Variable evaluate : list tensor -> list batch -> result metrics.

Inductive model_type : Type := LSTM | GRU.

(** [f"{request.model_type.lower()}_model.pt"] *)
Definition model_file_name (t : model_type) : string :=
  match t with LSTM => "lstm_model.pt" | GRU => "gru_model.pt" end.

Definition joinpath (dir name : string) : string := dir +:+ "/" +:+ name.

Record response : Type := Response {
  r_history : Trainer.history F;
  r_metrics : metrics;
  r_model_path : string;
}.

Definition train_and_publish (model_cache_dir symbol : string)
    (t : model_type) (epochs early_stopping_patience : Z)
    (model : list (string * nat)) (opt : optim)
    (train_loader : nat -> list batch) (val_loader test_loader : list batch)
    (X_normalizer y_normalizer : Normalizer.normalizer)
    (w : Trainer.world tensor)
    (disk : gmap string (gmap string Normalizer.json))
    : result (Trainer.world tensor * gmap string (gmap string Normalizer.json)
              * response) :=
  (* 8. Train *)
  let trainer := Trainer.init model opt in
  let model_dir := joinpath model_cache_dir symbol in
  '(trainer, w, training_history) ←
     Trainer.train train_step eval_loss scheduler_step
       train_loader val_loader epochs early_stopping_patience
       (Some model_dir) (trainer, w);
  (* 9. Evaluate on test set *)
  test_metrics ← evaluate (Trainer.parameters model (Trainer.heap w))
                          test_loader;
  (* 10. Save model and metadata *)
  let model_path := joinpath model_dir (model_file_name t) in
  let normalizer_X_path := joinpath model_dir "normalizer_X.json" in
  let normalizer_y_path := joinpath model_dir "normalizer_y.json" in
  let metadata_path := joinpath model_dir "metadata.json" in
  let written := Trainer.written w ++ [model_path] in
  disk ← Normalizer.save X_normalizer normalizer_X_path disk;
  let written := written ++ [normalizer_X_path] in
  disk ← Normalizer.save y_normalizer normalizer_y_path disk;
  let written := written ++ [normalizer_y_path] in
  let written := written ++ [metadata_path] in
  Ok ({| Trainer.heap := Trainer.heap w; Trainer.written := written |},
      disk,
      {| r_history := training_history;
         r_metrics := test_metrics;
         r_model_path := model_path |}).

(** [str(e)] for the exceptions that can reach the handler. *)
Definition str_exn (e : exn) : string :=
  match e with
  | ValueError msg | TypeError msg | RuntimeError msg => msg
  | KeyError k => k
  | AttributeError a => a
  | FileNotFoundError p => p
  | IndexError => "index out of bounds"
  | ZeroDivisionError => "float division by zero"
  | HTTPException _ detail => detail
  end.

(** The [try] ... [except Exception as e: raise HTTPException(500, str(e))]
    around the whole endpoint. *)
Definition endpoint {A} (r : result A) : result A :=
  match r with
  | Ok a => Ok a
  | Raise e => Raise (HTTPException 500 (str_exn e))
  end.

End TrainModel.
Arguments response F metrics : clear implicits.
End TrainModel.

(** ** EnsembleCombiner: [EnsembleService] (services/ensemble.py)

    Prices, weights and confidences are read as real numbers.  The one
    place where the code can leave the reals is the weight normalisation
    [weights / weights.sum()]: numpy does not raise on a zero divisor, it
    yields nan or infinite entries, and every later value computed from
    them is nan.  [pyfloat] keeps that outcome apart from the numbers. *)

Module EnsembleService.
Import Np.
#[local] Open Scope R_scope.

Inductive pyfloat : Type :=
| Num (r : R)
| NaN.

(** *** The numpy calls of the module *)

(** [weights / weights.sum()]: [None] stands for the array of nan and
    infinite entries that a zero sum produces; an empty array stays
    empty. *)
Definition normalize (weights : list R) : option (list R) :=
  if Req_dec_T (np_sum weights) 0 then
    match weights with
    | [] => Some []
    | _ => None
    end
  else Some (map (fun w => w / np_sum weights) weights).

(** [np.average(a, weights=w)]: shapes must agree, weights that sum to zero
    are refused, otherwise [sum(a * w) / sum(w)]. *)
Definition np_average (a w : list R) : result R :=
  if negb (length a =? length w)%nat then
    Raise (TypeError "Axis must be specified when shapes of a and weights differ.")
  else if Req_dec_T (np_sum w) 0 then Raise ZeroDivisionError
  else Ok (np_sum (np_multiply a w) / np_sum w).

(** [np.median]: nan for an empty array. *)
Definition np_median (l : list R) : pyfloat :=
  if (length l =? 0)%nat then NaN else Num (median l).

(** [p > x] for a float [p] and a possibly-nan [x]. *)
Definition gt_pyfloat (p : R) (x : pyfloat) : bool :=
  match x with
  | Num m => if Rgt_dec p m then true else false
  | NaN => false
  end.

(** *** Data *)

(** What [_get_model_prediction] returns. *)
Record prediction : Type := Prediction {
  model_type : string;
  predicted_price : R;
  accuracy : R;
}.

(** [metadata.json], as far as this module reads it:
    [metadata.get("metrics", {}).get("directional_accuracy")]. *)
Record metadata : Type := Metadata {
  directional_accuracy : option R;
}.

Record model_info : Type := ModelInfo {
  type : string;
  path : string;
  info_metadata : metadata;
}.

Record ensemble_result : Type := EnsembleResult {
  ensemble_strategy : string;
  combined_price : pyfloat;
  confidence : R;
  models_used : nat;
  votes : option (nat * nat);
  individual_predictions : list prediction;
}.

(** The model cache on disk: a path is a directory, a JSON document or a
    binary file. *)
Inductive file : Type :=
| Directory
| Json (m : metadata)
| Binary.

Definition joinpath (dir name : string) : string := dir +:+ "/" +:+ name.

Definition path_exists (fs : gmap string file) (p : string) : bool :=
  bool_decide (is_Some (fs !! p)).

(** *** [_load_available_models] *)

Definition _load_available_models (fs : gmap string file)
    (model_cache_dir symbol : string) : result (list model_info) :=
  let model_dir := joinpath model_cache_dir symbol in
  if negb (path_exists fs model_dir) then Ok []
  else
    let metadata_path := joinpath model_dir "metadata.json" in
    match fs !! metadata_path with
    | None => Ok []
    | Some (Json metadata) =>
        let lstm_path := joinpath model_dir "lstm_model.pt" in
        let models :=
          if path_exists fs lstm_path
          then [ModelInfo "LSTM" lstm_path metadata] else [] in
        let gru_path := joinpath model_dir "gru_model.pt" in
        let models :=
          if path_exists fs gru_path
          then models ++ [ModelInfo "GRU" gru_path metadata] else models in
        Ok models
    | Some _ => Raise (ValueError "Expecting value")
    end.

(** *** [_weighted_average] *)

Definition _weighted_average (predictions : list prediction)
    (weights : list R) : result ensemble_result :=
  let n_weights := length weights in
  let weights := normalize weights in
  let predicted_prices := map predicted_price predictions in
  combined_price ←
    match weights with
    | Some weights => Num <$> np_average predicted_prices weights
    | None =>
        (* an array of nan: the shape check still applies, the sum of the
           weights is nan, hence not zero, and so is the average *)
        if negb (length predicted_prices =? n_weights)%nat
        then Raise (TypeError "Axis must be specified when shapes of a and weights differ.")
        else Ok NaN
    end;
  let std := np_std predicted_prices in
  let confidence :=
    match combined_price with
    | Num combined_price =>
        if Rgt_dec combined_price 0
        then 1 / (1 + std / combined_price) else 0.5
    | NaN => 0.5
    end in
  Ok {| ensemble_strategy := "WEIGHTED_AVERAGE";
        combined_price := combined_price;
        confidence := confidence;
        models_used := length predictions;
        votes := None;
        individual_predictions := predictions |}.

(** *** [_voting] *)

Definition _voting (predictions : list prediction) : result ensemble_result :=
  let predicted_prices := map predicted_price predictions in
  let median_price := np_median predicted_prices in
  let votes_up :=
    length (filter (fun p => gt_pyfloat p median_price = true) predicted_prices) in
  let votes_down := (length predicted_prices - votes_up)%nat in
  if (length predictions =? 0)%nat then Raise ZeroDivisionError
  else
    let confidence := INR (Nat.max votes_up votes_down) / INR (length predictions) in
    Ok {| ensemble_strategy := "VOTING";
          combined_price := median_price;
          confidence := confidence;
          models_used := length predictions;
          votes := Some (votes_up, votes_down);
          individual_predictions := predictions |}.

(** *** [predict] *)

Section Predict.
(** The state of the model cache and the single-model inference path
    [_get_model_prediction], which loads weights and candles and may raise. *)
Variable fs : gmap string file.
Variable model_cache_dir : string.
Variable _get_model_prediction : model_info -> string -> string -> result prediction.

(** [model_info["metadata"].get("metrics", {}).get("directional_accuracy", 0.5)] *)
Definition model_weight (m : model_info) : R :=
  default 0.5 (directional_accuracy (info_metadata m)).

(** The [for model_info in models] loop with its [try]/[except Exception]. *)
Fixpoint collect (symbol horizon : string) (models : list model_info)
    (predictions : list prediction) (weights : list R)
    : list prediction * list R :=
  match models with
  | [] => (predictions, weights)
  | model_info :: models' =>
      match _get_model_prediction model_info symbol horizon with
      | Ok pred =>
          collect symbol horizon models'
                  (predictions ++ [pred]) (weights ++ [model_weight model_info])
      | Raise _ => collect symbol horizon models' predictions weights
      end
  end.

Definition predict (symbol horizon strategy : string) : result ensemble_result :=
  models ← _load_available_models fs model_cache_dir symbol;
  if (length models =? 0)%nat then
    Raise (ValueError ("No models found for " +:+ symbol))
  else
    let '(predictions, weights) := collect symbol horizon models [] [] in
    if (length predictions =? 0)%nat then
      Raise (ValueError "No valid predictions obtained")
    else if String.eqb strategy "WEIGHTED_AVERAGE" then
      _weighted_average predictions weights
    else if String.eqb strategy "VOTING" then
      _voting predictions
    else
      _weighted_average predictions weights.

End Predict.
End EnsembleService.

(** ** pandas: the series operations the feature engine calls

    A series is the list of its values in row order; an undefined entry is
    a nan.  Rolling aggregates are taken over the window directly (pandas
    maintains them incrementally, which agrees up to rounding). *)

Module Pd.
Section Series.
Context {F : Type} `{Floating F}.

(** [s.shift(k)] *)
Definition shift (k : nat) (s : list F) : list F :=
  take (length s) (replicate k f_nan ++ s).

(** Elementwise arithmetic on two series of one length. *)
Definition add (a b : list F) : list F := zip_with f_add a b.
Definition sub (a b : list F) : list F := zip_with f_sub a b.
Definition mul (a b : list F) : list F := zip_with f_mul a b.
Definition div (a b : list F) : list F := zip_with f_div a b.

(** [s.diff()] *)
Definition diff (s : list F) : list F := sub s (shift 1 s).

(** [s.ffill()]: an undefined entry takes the last defined one before it. *)
Fixpoint ffill_from (prev : F) (s : list F) : list F :=
  match s with
  | [] => []
  | x :: rest =>
      let y := if f_isnan x then prev else x in
      y :: ffill_from y rest
  end.

Definition ffill (s : list F) : list F := ffill_from f_nan s.

(** [s.pct_change()] with its default [fill_method="pad"]. *)
Definition pct_change (s : list F) : list F :=
  let filled := ffill s in
  map (fun x => f_sub x (f_of_Z 1)) (div filled (shift 1 filled)).

(** *** Rolling windows *)

Definition sum (win : list F) : F := foldl f_add (f_of_Z 0) win.

Definition mean (win : list F) : F :=
  f_div (sum win) (f_of_Z (Z.of_nat (length win))).

(** The sample standard deviation (ddof = 1). *)
Definition std (win : list F) : F :=
  let m := mean win in
  f_sqrt (f_div (sum (map (fun x => f_mul (f_sub x m) (f_sub x m)) win))
                (f_of_Z (Z.of_nat (length win) - 1))).

Definition min (win : list F) : F :=
  match win with
  | [] => f_nan
  | x :: rest => foldl (fun m y => if f_ltb y m then y else m) x rest
  end.

Definition max (win : list F) : F :=
  match win with
  | [] => f_nan
  | x :: rest => foldl (fun m y => if f_ltb m y then y else m) x rest
  end.

(** [x.argmax()] and [x.argmin()]: the first position of the extremum. *)
Fixpoint arg_loop (better : F -> F -> bool) (win : list F)
    (i best : nat) (best_val : F) : nat :=
  match win with
  | [] => best
  | y :: rest =>
      if better y best_val then arg_loop better rest (S i) i y
      else arg_loop better rest (S i) best best_val
  end.

Definition argmax (win : list F) : nat :=
  match win with
  | [] => 0
  | x :: rest => arg_loop (fun y m => f_ltb m y) rest 1 0 x
  end.

Definition argmin (win : list F) : nat :=
  match win with
  | [] => 0
  | x :: rest => arg_loop (fun y m => f_ltb y m) rest 1 0 x
  end.

(** [s.rolling(window=w).apply(agg)]: undefined until the window is full
    and wherever the window holds an undefined entry. *)
Definition rolling (w : nat) (agg : list F -> F) (s : list F) : list F :=
  map (fun i =>
         if decide (w <= S i) then
           let win := take w (drop (S i - w) s) in
           if existsb f_isnan win then f_nan else agg win
         else f_nan)
      (seq 0 (length s)).

(** *** Exponentially weighted means *)

(** The centre of mass pandas derives from [span=] or from [alpha=]; the
    smoothing factor it then uses is [1 / (1 + com)]. *)
Definition com_of_span (span : Z) : F :=
  f_div (f_sub (f_of_Z span) (f_of_Z 1)) (f_of_Z 2).

Definition com_of_alpha (alpha : F) : F :=
  f_div (f_sub (f_of_Z 1) alpha) alpha.

(** [weighted != cur] for two numbers. *)
Definition ne (a b : F) : bool := f_ltb a b || f_ltb b a.

Fixpoint ewm_loop (old_wt_factor new_wt : F) (adjust : bool)
    (vals : list F) (weighted old_wt : F) : list F :=
  match vals with
  | [] => []
  | cur :: rest =>
      let is_observation := negb (f_isnan cur) in
      let '(weighted, old_wt) :=
        if negb (f_isnan weighted) then
          let old_wt := f_mul old_wt old_wt_factor in
          if is_observation then
            let weighted :=
              if ne weighted cur then
                f_div (f_add (f_mul old_wt weighted) (f_mul new_wt cur))
                      (f_add old_wt new_wt)
              else weighted in
            (weighted, if adjust then f_add old_wt new_wt else f_of_Z 1)
          else (weighted, old_wt)
        else if is_observation then (cur, old_wt)
        else (weighted, old_wt) in
      weighted :: ewm_loop old_wt_factor new_wt adjust rest weighted old_wt
  end.

(** [s.ewm(com=com, adjust=adjust).mean()] with the default
    [ignore_na=False] and [min_periods=0]. *)
Definition ewm_mean (com : F) (adjust : bool) (s : list F) : list F :=
  let alpha := f_div (f_of_Z 1) (f_add (f_of_Z 1) com) in
  let old_wt_factor := f_sub (f_of_Z 1) alpha in
  let new_wt := if adjust then f_of_Z 1 else alpha in
  match s with
  | [] => []
  | x :: rest => x :: ewm_loop old_wt_factor new_wt adjust rest x (f_of_Z 1)
  end.

(** [s.ewm(span=span, adjust=adjust).mean()] *)
Definition ewm_span (span : Z) (adjust : bool) (s : list F) : list F :=
  ewm_mean (com_of_span span) adjust s.

(** [s.ewm(alpha=alpha, adjust=adjust).mean()] *)
Definition ewm_alpha (alpha : F) (adjust : bool) (s : list F) : list F :=
  ewm_mean (com_of_alpha alpha) adjust s.

(** Broadcasting a scalar over a series, and the elementwise functions. *)
Definition radd (k : F) (s : list F) : list F := map (f_add k) s.
Definition rsub (k : F) (s : list F) : list F := map (f_sub k) s.
Definition scale (k : F) (s : list F) : list F := map (f_mul k) s.
Definition rdiv (k : F) (s : list F) : list F := map (f_div k) s.
Definition times (s : list F) (k : F) : list F := map (fun x => f_mul x k) s.
Definition over (s : list F) (k : F) : list F := map (fun x => f_div x k) s.
Definition minus (s : list F) (k : F) : list F := map (fun x => f_sub x k) s.
Definition neg (s : list F) : list F := map f_neg s.
Definition abs (s : list F) : list F := map f_abs s.
Definition log (s : list F) : list F := map f_log s.

(** [s > k] and [s < k] as boolean series, [s.where(cond, other)] and the
    masked assignment [s[cond] = value]. *)
Definition gt (s : list F) (k : F) : list bool := map (fun x => f_ltb k x) s.
Definition lt (s : list F) (k : F) : list bool := map (fun x => f_ltb x k) s.

Definition where_ (cond : list bool) (other : F) (s : list F) : list F :=
  zip_with (fun (c : bool) x => if c then x else other) cond s.

Definition setmask (cond : list bool) (value : F) (s : list F) : list F :=
  zip_with (fun (c : bool) x => if c then value else x) cond s.

(** *** Row-wise maximum of three series, undefined entries skipped *)

Definition max_skipna (vals : list F) : F :=
  max (filter (fun x => f_isnan x = false) vals).

Definition concat_max (a b c : list F) : list F :=
  zip_with (fun x yz => max_skipna [x; yz.1; yz.2]) a (zip b c).

(** *** Frames

    A frame has a row index, the [timestamp] column and its numeric
    columns in insertion order.  The candle loader builds one from the
    query's rows with the default index 0, 1, 2, ... *)

Record candle := Candle {
  c_timestamp : Z;
  c_open : F;
  c_high : F;
  c_low : F;
  c_close : F;
  c_volume : F
}.

Record DataFrame := {
  index : list nat;
  timestamp : list Z;
  columns : list (string * list F)
}.

Definition of_rows (result_rows : list candle) : DataFrame :=
  {| index := seq 0 (length result_rows);
     timestamp := map c_timestamp result_rows;
     columns := [("open", map c_open result_rows);
                 ("high", map c_high result_rows);
                 ("low", map c_low result_rows);
                 ("close", map c_close result_rows);
                 ("volume", map c_volume result_rows)] |}.

(** [len(df)] *)
Definition len (df : DataFrame) : nat := length (index df).

(** [df[name]]; every name read by the feature engine is a column of the
    loaded frame or was assigned before. *)
Fixpoint assoc (name : string) (cols : list (string * list F)) : list F :=
  match cols with
  | [] => []
  | (k, v) :: rest => if String.eqb k name then v else assoc name rest
  end.

Definition getitem (name : string) (df : DataFrame) : list F :=
  assoc name (columns df).

(** [df[name] = series]: replaces the column, or appends a new one. *)
Fixpoint put (name : string) (v : list F) (cols : list (string * list F))
    : list (string * list F) :=
  match cols with
  | [] => [(name, v)]
  | (k, w) :: rest =>
      if String.eqb k name then (k, v) :: rest
      else (k, w) :: put name v rest
  end.

Definition setitem (name : string) (v : list F) (df : DataFrame)
    : DataFrame :=
  {| index := index df; timestamp := timestamp df;
     columns := put name v (columns df) |}.

(** The value pandas keeps for a missing timestamp. *)
Definition NaT : Z := (-9223372036854775808)%Z.

(** [df[name] = values] for a plain Python list.  Its length must be the
    frame's; but a frame without rows takes the index of a non-empty list
    first, [0 .. len(values) - 1], and the columns it has are filled with
    missing values on it. *)
Definition setitem_list (name : string) (values : list F) (df : DataFrame)
    : result DataFrame :=
  if decide (length values = len df) then Ok (setitem name values df)
  else if decide (len df = 0) then
    let n := length values in
    Ok (setitem name values
          {| index := seq 0 n;
             timestamp := replicate n NaT;
             columns := map (fun cv => (cv.1, replicate n f_nan))
                            (columns df) |})
  else Raise (ValueError "Length of values does not match length of index").

(** [s.iloc[i]] *)
Definition iloc (s : list F) (i : nat) : result F :=
  match s !! i with
  | Some x => Ok x
  | None => Raise IndexError
  end.

(** [df.dropna()]: boolean selection of the rows in which every column is
    defined; the kept rows keep their index labels. *)
Definition select {A} (mask : list bool) (s : list A) : list A :=
  (filter (fun p => p.1 = true) (zip mask s)).*2.

Definition notna (df : DataFrame) (p : nat) : bool :=
  forallb (fun cv : string * list F =>
             match cv.2 !! p with
             | Some x => negb (f_isnan x)
             | None => true
             end)
          (columns df).

Definition dropna (df : DataFrame) : DataFrame :=
  let mask := map (notna df) (seq 0 (len df)) in
  {| index := select mask (index df);
     timestamp := select mask (timestamp df);
     columns := map (fun cv => (cv.1, select mask cv.2)) (columns df) |}.

(** [df.head(n)] *)
Definition head (n : nat) (df : DataFrame) : DataFrame :=
  {| index := take n (index df);
     timestamp := take n (timestamp df);
     columns := map (fun cv => (cv.1, take n cv.2)) (columns df) |}.

(** The row at a position, and [df.loc[label]] where the label exists. *)
Definition row_at (df : DataFrame) (p : nat)
    : option Z * list (string * option F) :=
  (timestamp df !! p, map (fun cv => (cv.1, cv.2 !! p)) (columns df)).

Definition loc (label : nat) (df : DataFrame)
    : option (option Z * list (string * option F)) :=
  match list_find (fun l => l = label) (index df) with
  | Some (p, _) => Some (row_at df p)
  | None => None
  end.

End Series.

Arguments candle F : clear implicits.
Arguments DataFrame F : clear implicits.

Notation "df .[ name ]" := (getitem name df)
  (at level 1, left associativity, format "df .[ name ]").
Notation "df .[ name := v ]" := (setitem name v df)
  (at level 1, left associativity, format "df .[ name  :=  v ]").

End Pd.

(** ** ml-python/src/features/engineering.py *)

Module FeatureEngineer.
Import Pd.
Section Engine.
Context {F : Type} `{Floating F}.

(** A Python number literal. *)
Abbreviation num z := (f_of_Z z%Z) (only parsing).

(** Column names built by an f-string. *)
Definition fname (stem : string) (period : nat) : string :=
  stem +:+ pretty period.

Definition _rsi (series : list F) (period : nat) : list F :=
  let delta := diff series in
  let gain := rolling period mean (where_ (gt delta (num 0)) (num 0) delta) in
  let loss := rolling period mean (neg (where_ (lt delta (num 0)) (num 0) delta)) in
  let rs := div gain loss in
  rsub (num 100) (rdiv (num 100) (radd (num 1) rs)).

Definition _atr (df : DataFrame F) (period : nat) : list F :=
  let high_low := sub df.["high"] df.["low"] in
  let high_close := abs (sub df.["high"] (shift 1 df.["close"])) in
  let low_close := abs (sub df.["low"] (shift 1 df.["close"])) in
  let true_range := concat_max high_low high_close low_close in
  rolling period mean true_range.

Definition _adx (df : DataFrame F) (period : nat) : list F :=
  let plus_dm := diff df.["high"] in
  let minus_dm := neg (diff df.["low"]) in
  let plus_dm := setmask (lt plus_dm (num 0)) (num 0) plus_dm in
  let minus_dm := setmask (lt minus_dm (num 0)) (num 0) minus_dm in
  let atr := _atr df period in
  let alpha := f_div (num 1) (f_of_Z (Z.of_nat period)) in
  let plus_di := scale (num 100) (div (ewm_alpha alpha true plus_dm) atr) in
  let minus_di := scale (num 100) (div (ewm_alpha alpha true minus_dm) atr) in
  let dx :=
    times (div (abs (sub plus_di minus_di)) (add plus_di minus_di)) (num 100) in
  ewm_alpha alpha true dx.

Definition _cci (df : DataFrame F) (period : nat) : list F :=
  let tp := over (add (add df.["high"] df.["low"]) df.["close"]) (num 3) in
  let ma := rolling period mean tp in
  let md := rolling period (fun x => mean (abs (minus x (mean x)))) tp in
  div (sub tp ma) (scale (f_div (num 15) (num 1000)) md).

Definition _aroon (df : DataFrame F) (period : nat) : list F * list F :=
  let aroon_up :=
    rolling (period + 1)
      (fun x => f_mul (f_div (f_of_Z (Z.of_nat period - Z.of_nat (argmax x)))
                             (f_of_Z (Z.of_nat period))) (num 100))
      df.["high"] in
  let aroon_down :=
    rolling (period + 1)
      (fun x => f_mul (f_div (f_of_Z (Z.of_nat period - Z.of_nat (argmin x)))
                             (f_of_Z (Z.of_nat period))) (num 100))
      df.["low"] in
  (aroon_up, aroon_down).

Definition _compute_price_features (df : DataFrame F) : DataFrame F :=
  let df := df.["returns" := pct_change df.["close"]] in
  let df := df.["log_returns" := log (div df.["close"] (shift 1 df.["close"]))] in
  let df := df.["hl_spread" := div (sub df.["high"] df.["low"]) df.["close"]] in
  let df := df.["oc_spread" := div (sub df.["close"] df.["open"]) df.["close"]] in
  let df := df.["volatility_10" := rolling 10 std df.["returns"]] in
  let df := df.["volatility_20" := rolling 20 std df.["returns"]] in
  let df := df.["volatility_50" := rolling 50 std df.["returns"]] in
  df.

Definition _compute_moving_averages (df : DataFrame F) : DataFrame F :=
  let df :=
    foldl (fun df period =>
             df.[fname "sma_" period := rolling period mean df.["close"]])
          df [7; 20; 50; 100; 200] in
  let df :=
    foldl (fun df period =>
             df.[fname "ema_" period :=
                   ewm_span (Z.of_nat period) false df.["close"]])
          df [7; 20; 50; 100; 200] in
  let df := df.["price_sma20_ratio" := div df.["close"] df.["sma_20"]] in
  let df := df.["price_sma50_ratio" := div df.["close"] df.["sma_50"]] in
  df.

Definition _compute_momentum_indicators (df : DataFrame F) : DataFrame F :=
  let df := df.["rsi_14" := _rsi df.["close"] 14] in
  let df := df.["rsi_7" := _rsi df.["close"] 7] in
  let ema12 := ewm_span 12 false df.["close"] in
  let ema26 := ewm_span 26 false df.["close"] in
  let df := df.["macd" := sub ema12 ema26] in
  let df := df.["macd_signal" := ewm_span 9 false df.["macd"]] in
  let df := df.["macd_histogram" := sub df.["macd"] df.["macd_signal"]] in
  let low_14 := rolling 14 min df.["low"] in
  let high_14 := rolling 14 max df.["high"] in
  let df :=
    df.["stoch_k" :=
          div (scale (num 100) (sub df.["close"] low_14)) (sub high_14 low_14)] in
  let df := df.["stoch_d" := rolling 3 mean df.["stoch_k"]] in
  let df :=
    df.["roc_10" :=
          times (div (sub df.["close"] (shift 10 df.["close"]))
                     (shift 10 df.["close"])) (num 100)] in
  let df :=
    df.["roc_20" :=
          times (div (sub df.["close"] (shift 20 df.["close"]))
                     (shift 20 df.["close"])) (num 100)] in
  let df :=
    df.["williams_r" :=
          div (scale (num (-100)) (sub high_14 df.["close"]))
              (sub high_14 low_14)] in
  df.

Definition _compute_volatility_indicators (df : DataFrame F) : DataFrame F :=
  let df :=
    foldl (fun df period =>
             let sma := rolling period mean df.["close"] in
             let std := rolling period std df.["close"] in
             let df := df.[fname "bb_upper_" period := add sma (scale (num 2) std)] in
             let df := df.[fname "bb_middle_" period := sma] in
             let df := df.[fname "bb_lower_" period := sub sma (scale (num 2) std)] in
             let df :=
               df.[fname "bb_width_" period :=
                     div (sub df.[fname "bb_upper_" period]
                              df.[fname "bb_lower_" period])
                         df.[fname "bb_middle_" period]] in
             let df :=
               df.[fname "bb_position_" period :=
                     div (sub df.["close"] df.[fname "bb_lower_" period])
                         (sub df.[fname "bb_upper_" period]
                              df.[fname "bb_lower_" period])] in
             df)
          df [20] in
  let df := df.["atr_14" := _atr df 14] in
  df.

(** The on-balance-volume loop over [range(1, len(df))]. *)
Fixpoint obv_loop (close volume : list F) (range : list nat) (obv : list F)
    : result (list F) :=
  match range with
  | [] => Ok obv
  | i :: range =>
      close_i ← iloc close i;
      close_prev ← iloc close (i - 1);
      prev ← match last obv with
             | Some x => Ok x
             | None => Raise IndexError
             end;
      if f_ltb close_prev close_i then
        volume_i ← iloc volume i;
        obv_loop close volume range (obv ++ [f_add prev volume_i])
      else if f_ltb close_i close_prev then
        volume_i ← iloc volume i;
        obv_loop close volume range (obv ++ [f_sub prev volume_i])
      else obv_loop close volume range (obv ++ [prev])
  end.

Definition _compute_volume_indicators (df : DataFrame F)
    : result (DataFrame F) :=
  obv ← obv_loop df.["close"] df.["volume"] (seq 1 (len df - 1)) [num 0];
  df ← setitem_list "obv" obv df;
  let df := df.["volume_sma_20" := rolling 20 mean df.["volume"]] in
  let df := df.["volume_ratio" := div df.["volume"] df.["volume_sma_20"]] in
  let df := df.["force_index" := mul (diff df.["close"]) df.["volume"]] in
  let df := df.["force_index_13" := ewm_span 13 false df.["force_index"]] in
  Ok df.

Definition _compute_trend_indicators (df : DataFrame F) : DataFrame F :=
  let df := df.["adx_14" := _adx df 14] in
  let df := df.["cci_20" := _cci df 20] in
  let '(aroon_up, aroon_down) := _aroon df 25 in
  let df := df.["aroon_up" := aroon_up] in
  let df := df.["aroon_down" := aroon_down] in
  let df := df.["aroon_oscillator" := sub aroon_up aroon_down] in
  df.

(** The feature table before the incomplete rows are dropped. *)
Definition feature_table (df : DataFrame F) : result (DataFrame F) :=
  let df := _compute_price_features df in
  let df := _compute_moving_averages df in
  let df := _compute_momentum_indicators df in
  let df := _compute_volatility_indicators df in
  df ← _compute_volume_indicators df;
  let df := _compute_trend_indicators df in
  Ok df.

Definition compute_all_features (df : DataFrame F) : result (DataFrame F) :=
  df ← feature_table df;
  Ok (dropna df).

End Engine.
End FeatureEngineer.


(** * Properties *)

(** ** WindowBuilder *)

Section WindowBuilderFacts.
Context {A T : Type}.
Variable float_tensor : A -> T.
Import Np WindowBuilder.
Implicit Types (data : ndarray A) (X : list (list (list A))) (y : list (target A)).

Lemma getitem_ok data r c row a :
  c < ncols data -> rows data !! r = Some row -> row !! c = Some a ->
  getitem data r c = Ok a.
Proof.
  intros Hc Hr Ha. unfold getitem.
  destruct (decide (c < ncols data)); [|lia]. by rewrite Hr, Ha.
Qed.

(** The loop over [idx] succeeds when every [i + L] with [i] in [idx] is a
    row that has the target column; it appends one window and one scalar
    per index. *)
Lemma create_sequences_loop_h1 data L tc idx X y :
  wf data -> tc < ncols data ->
  Forall (fun i => i + L < len data) idx ->
  exists X' y',
    create_sequences_loop data L tc 1 idx X y = Ok (X ++ X', y ++ y') /\
    X' = map (fun i => getslice data i (i + L)) idx /\
    Forall2 (fun i t => exists row a, rows data !! (i + L) = Some row /\
                                  row !! tc = Some a /\ t = Scalar a) idx y'.
Proof.
  intros Hwf Htc. revert X y.
  induction idx as [|i idx IH]; intros X y Hidx.
  - exists [], []. simpl. rewrite !app_nil_r. auto.
  - inversion Hidx as [|? ? Hi Hidx']; subst.
    unfold len in Hi.
    destruct (lookup_lt_is_Some_2 (rows data) (i + L) Hi) as [row Hrow].
    assert (Hlen : length row = ncols data).
    { unfold wf in Hwf. rewrite Forall_lookup in Hwf. eauto. }
    destruct (lookup_lt_is_Some_2 row tc ltac:(lia)) as [a Ha].
    destruct (IH (X ++ [getslice data i (i + L)]) (y ++ [Scalar a]) Hidx')
      as (X' & y' & Heq & HX & Hy).
    exists (getslice data i (i + L) :: X'), (Scalar a :: y').
    split; [|split].
    + simpl. destruct (decide (1 = 1)); [|done].
      rewrite (getitem_ok _ _ _ _ _ Htc Hrow Ha). simpl.
      rewrite Heq. by rewrite <- !app_assoc.
    + simpl. by rewrite HX.
    + constructor; eauto.
Qed.

(** C3. With horizon 1 a matrix of [N] rows and sequence length [L] yields
    exactly [max(0, N - L)] (window, target) pairs; window [i] is rows
    [i .. i+L-1] and target [i] is the target column of row [i + L], both
    converted entry by entry to float32 (so window 0's target is the
    float32 conversion of row [L]'s); a matrix with fewer than [L + 1]
    rows yields the empty result and no error. *)
Theorem create_sequences_horizon_one data (L tc : nat) :
  (len data < L + 1 ->
   create_sequences float_tensor data L tc 1 = Ok ([], [])) /\
  (wf data -> tc < ncols data ->
   exists (X : list (list (list T))) (y : list (target T)),
     create_sequences float_tensor data L tc 1 = Ok (X, y) /\
     Z.of_nat (length X) = Z.max 0 (Z.of_nat (len data) - Z.of_nat L) /\
     length y = length X /\
     (forall i, i < len data - L ->
        X !! i
        = Some (map (map float_tensor) (take L (drop i (rows data)))) /\
        exists row a, rows data !! (i + L) = Some row /\ row !! tc = Some a /\
                      y !! i = Some (Scalar (float_tensor a))) /\
     (L < len data ->
        exists row a, rows data !! L = Some row /\ row !! tc = Some a /\
                      y !! 0 = Some (Scalar (float_tensor a)))).
Proof.
  split.
  - intros Hsmall. unfold create_sequences, py_range.
    replace (Z.to_nat _) with 0 by lia. reflexivity.
  - intros Hwf Htc.
    set (n := len data - L).
    assert (Hrange : py_range (Z.of_nat (len data) - Z.of_nat L - Z.of_nat 1 + 1)
                     = seq 0 n).
    { unfold py_range. f_equal. lia. }
    destruct (create_sequences_loop_h1 data L tc (seq 0 n) [] [] Hwf Htc)
      as (X & y & Heq & HX & Hy).
    { apply Forall_forall. intros i Hi. apply elem_of_seq in Hi. lia. }
    simpl in Heq.
    assert (HlenX : length X = n) by (subst X; by rewrite length_map, length_seq).
    assert (Hleny : length y = n).
    { apply Forall2_length in Hy. by rewrite length_seq in Hy. }
    assert (Hall : forall i, i < n ->
        map (map (map float_tensor)) X !! i
        = Some (map (map float_tensor) (take L (drop i (rows data)))) /\
        exists row a, rows data !! (i + L) = Some row /\ row !! tc = Some a /\
                      map (target_map float_tensor) y !! i
                      = Some (Scalar (float_tensor a))).
    { intros i Hi. split.
      - subst X. rewrite !list_lookup_fmap, lookup_seq_lt by done. simpl.
        unfold getslice. do 3 f_equal. lia.
      - destruct (lookup_lt_is_Some_2 y i ltac:(lia)) as [t Ht].
        destruct (Forall2_lookup_r _ _ _ _ _ Hy Ht) as (j & Hj & row & a & Hr & Ha & ->).
        apply lookup_seq in Hj as [-> _]. simpl in *.
        exists row, a. split; [done|]. split; [done|].
        by rewrite list_lookup_fmap, Ht. }
    exists (map (map (map float_tensor)) X), (map (target_map float_tensor) y).
    unfold create_sequences. rewrite Hrange, Heq.
    split; [reflexivity|]. rewrite !length_map.
    split; [lia|]. split; [congruence|]. split.
    + exact Hall.
    + intros HL. destruct (Hall 0 ltac:(lia)) as [_ H0]. exact H0.
Qed.

End WindowBuilderFacts.

(** The data of the example: a 4 x 2 matrix of doubles. *)
Definition window_example : Np.ndarray float :=
  Np.NdArray 2 [[1; 10]; [2; 20]; [3; 30]; [4; 40]]%float.

(** [create_sequences_horizon_one] at [window_example], with [L = 2] and
    target column 0; every entry is a float32 already. *)
Lemma create_sequences_horizon_one_witness :
  Np.wf window_example /\
  0 < Np.ncols window_example /\
  exists X y,
    WindowBuilder.create_sequences B32.of_float window_example 2 0 1
    = Ok (X, y) /\
    Z.of_nat (length X) = 2%Z /\
    X !! 0 = Some [[1; 10]; [2; 20]]%float /\
    y !! 0 = Some (WindowBuilder.Scalar 3%float).
Proof.
  assert (Hwf : Np.wf window_example) by (repeat constructor).
  assert (Hc : 0 < Np.ncols window_example) by (simpl; lia).
  split; [exact Hwf|]. split; [exact Hc|].
  destruct (proj2 (create_sequences_horizon_one B32.of_float window_example
                     2 0) Hwf Hc)
    as (X & y & Heq & HlenX & _ & Hall & _).
  exists X, y. split; [exact Heq|]. split; [exact HlenX|].
  destruct (Hall 0 ltac:(simpl; lia)) as [HX (row & a & Hrow & Ha & Hy)].
  split.
  - rewrite HX. vm_compute. reflexivity.
  - simpl in Hrow. injection Hrow as <-. simpl in Ha. injection Ha as <-.
    rewrite Hy. vm_compute. reflexivity.
Defined.

Example create_sequences_small :
  WindowBuilder.create_sequences B32.of_float window_example 2 0 1
  = Ok ([[[1; 10]; [2; 20]]; [[2; 20]; [3; 30]]]%float,
        [WindowBuilder.Scalar 3%float; WindowBuilder.Scalar 4%float]).
Proof. vm_compute. reflexivity. Qed.

(** A one-column matrix of doubles whose second entry, [2^24 + 1], is not
    a float32. *)
Definition window_large : Np.ndarray float :=
  Np.NdArray 1 [[1]; [16777217]]%float.

(** The claim of C3 fails where an entry is not a float32: with [L = 1] the
    target of window 0 is not row 1's target column, 16777217, but its
    float32 conversion, 16777216. *)
Lemma target_is_converted_to_float32 :
  exists X y a,
    WindowBuilder.create_sequences B32.of_float window_large 1 0 1
    = Ok (X, y) /\
    Np.getitem window_large 1 0 = Ok a /\
    a = 16777217%float /\
    y !! 0 = Some (WindowBuilder.Scalar 16777216%float) /\
    y !! 0 <> Some (WindowBuilder.Scalar a).
Proof.
  eexists _, _, _. split; [vm_compute; reflexivity|].
  split; [vm_compute; reflexivity|]. split; [reflexivity|].
  split; [reflexivity|].
  intros Heq.
  apply (f_equal (fun o => match o with
                           | Some (WindowBuilder.Scalar x) =>
                               PrimFloat.eqb x 16777217%float
                           | _ => false
                           end)) in Heq.
  vm_compute in Heq. discriminate Heq.
Qed.

(** ** EnsembleCombiner *)

Section EnsembleFacts.
Import Np EnsembleService.
#[local] Open Scope R_scope.

#[local] Instance Rle_transitive : Transitive Rle := Rle_trans.
#[local] Instance Rle_total : Total Rle.
Proof. intros x y. destruct (Rle_dec x y); [left | right]; lra. Qed.

Lemma filter_none {A} (P : A -> Prop) `{!forall x, Decision (P x)} (l : list A) :
  Forall (fun x => ~ P x) l -> filter P l = [].
Proof.
  induction 1 as [|x l Hx _ IH]; [done|].
  rewrite filter_cons. by destruct (decide (P x)).
Qed.

Lemma sorted_nth_le (s : list R) (i j : nat) :
  StronglySorted Rle s -> (i <= j < length s)%nat -> nth i s 0 <= nth j s 0.
Proof.
  intros Hs. revert i j.
  induction Hs as [|x s Hs IH Hx]; intros i j [Hij Hj]; simpl in *; [lia|].
  destruct i as [|i], j as [|j]; try lia; try lra.
  - rewrite Forall_forall in Hx. apply Hx.
    apply list_elem_of_In, nth_In. lia.
  - apply IH. lia.
Qed.

(** Nothing at or before position [k] of a sorted list is strictly above a
    value [m] that bounds the element at [k]. *)
Lemma above_sorted_bound (s : list R) (k : nat) (m : R) :
  StronglySorted Rle s -> (k < length s)%nat -> nth k s 0 <= m ->
  (length (filter (fun p => gt_pyfloat p (Num m) = true) s)
   <= length s - S k)%nat.
Proof.
  intros Hs Hk Hm.
  rewrite <- (take_drop (S k) s) at 1. rewrite filter_app, length_app.
  assert (Hnil : filter (fun p => gt_pyfloat p (Num m) = true) (take (S k) s) = []).
  { apply filter_none, Forall_forall. intros x Hx.
    apply list_elem_of_lookup in Hx as [i Hi].
    pose proof (lookup_lt_Some _ _ _ Hi) as Hlt. rewrite length_take in Hlt.
    rewrite lookup_take_lt in Hi by lia.
    assert (Hxi : x = nth i s 0).
    { symmetry. apply nth_lookup_Some with (d := 0) in Hi. exact Hi. }
    assert (x <= nth k s 0) by (subst x; apply sorted_nth_le; [done|lia]).
    simpl. destruct (Rgt_dec x m); [lra|done]. }
  rewrite Hnil. simpl.
  etrans; [apply length_filter|]. rewrite length_drop. lia.
Qed.

(** At most [floor(n/2)] of [n >= 1] prices lie strictly above their median. *)
Lemma above_median_at_most_half (prices : list R) :
  prices <> [] ->
  exists m, np_median prices = Num m /\
    (length (filter (fun p => gt_pyfloat p (Num m) = true) prices)
     <= length prices / 2)%nat.
Proof.
  intros Hne.
  assert (Hn : (0 < length prices)%nat) by (destruct prices; [done|simpl; lia]).
  pose proof (StronglySorted_merge_sort Rle prices) as Hs.
  pose proof (merge_sort_Permutation Rle prices) as Hp.
  assert (Hlen : length (merge_sort Rle prices) = length prices)
    by (by rewrite Hp).
  unfold np_median, median, np_sort.
  destruct (Nat.eqb_spec (length prices) 0) as [|_]; [lia|].
  set (s := merge_sort Rle prices) in *.
  set (n := length prices) in *.
  assert (Hcount : forall m,
    length (filter (fun p => gt_pyfloat p (Num m) = true) prices)
    = length (filter (fun p => gt_pyfloat p (Num m) = true) s)).
  { intros m. apply Permutation_length. symmetry.
    by apply filter_Permutation. }
  destruct (Nat.even n) eqn:Heven.
  - eexists. split; [reflexivity|]. rewrite Hcount.
    apply Nat.even_spec in Heven as [q Hq].
    assert (Hq1 : (n / 2 = q)%nat).
    { rewrite Hq. symmetry. apply (Nat.div_unique _ 2 q 0); lia. }
    rewrite Hq1.
    etrans; [apply (above_sorted_bound s (q - 1))|]; try done; try lia.
    assert (nth (q - 1) s 0 <= nth q s 0) by (apply sorted_nth_le; [done|lia]).
    lra.
  - eexists. split; [reflexivity|]. rewrite Hcount.
    assert (Hodd : Nat.odd n = true) by (rewrite <- Nat.negb_even, Heven; done).
    apply Nat.odd_spec in Hodd as [q Hq].
    assert (Hq1 : (n / 2 = q)%nat).
    { rewrite Hq. symmetry. apply (Nat.div_unique _ 2 q 1); lia. }
    rewrite Hq1.
    etrans; [apply (above_sorted_bound s q)|]; try done; try lia.
Qed.

(** C10. For a non-empty prediction list VOTING returns a result whose
    up-votes are at most [floor(n/2)], whose down-or-equal votes are at least
    [ceil(n/2)], and whose confidence [max(votes_up, votes_down) / n] lies
    in [[1/2, 1]]. *)
Theorem voting_confidence_at_least_half (predictions : list prediction) :
  predictions <> [] ->
  exists r votes_up votes_down,
    _voting predictions = Ok r /\
    votes r = Some (votes_up, votes_down) /\
    (votes_up <= length predictions / 2)%nat /\
    (length predictions - length predictions / 2 <= votes_down)%nat /\
    confidence r
      = INR (Nat.max votes_up votes_down) / INR (length predictions) /\
    1 / 2 <= confidence r <= 1.
Proof.
  intros Hne.
  assert (Hn : (0 < length predictions)%nat)
    by (destruct predictions; [done|simpl; lia]).
  destruct (above_median_at_most_half (map predicted_price predictions))
    as (m & Hm & Hup).
  { by destruct predictions. }
  rewrite length_map in Hup.
  unfold _voting. rewrite Hm, length_map.
  destruct (Nat.eqb_spec (length predictions) 0) as [|_]; [lia|].
  set (n := length predictions) in *.
  set (up := length (filter _ _)) in *.
  exists {| ensemble_strategy := "VOTING"; combined_price := Num m;
            confidence := INR (Nat.max up (n - up)) / INR n;
            models_used := n; votes := Some (up, (n - up)%nat);
            individual_predictions := predictions |}, up, (n - up)%nat.
  split; [reflexivity|]. split; [reflexivity|]. split; [exact Hup|].
  split; [lia|]. split; [reflexivity|]. simpl.
  assert (Hn' : 0 < INR n) by (apply lt_0_INR; lia).
  pose proof (Nat.div_mod_eq n 2) as Hdiv.
  pose proof (Nat.mod_upper_bound n 2 ltac:(lia)) as Hmod.
  assert (Hhalf : (n <= 2 * Nat.max up (n - up))%nat) by lia.
  assert (Hle : (Nat.max up (n - up) <= n)%nat) by lia.
  apply le_INR in Hhalf, Hle. rewrite mult_INR in Hhalf.
  change (INR 2) with 2 in Hhalf.
  set (v := INR (Nat.max up (n - up))) in *.
  assert (Hv : v / INR n * INR n = v) by (field; lra).
  split; apply Rmult_le_reg_r with (r := INR n); try done; rewrite Hv; lra.
Qed.

(** *** Weighted average *)

Lemma np_sum_div (ws : list R) (c : R) :
  np_sum (map (fun w => w / c) ws) = np_sum ws / c.
Proof.
  induction ws as [|w ws IH]; simpl.
  - unfold Rdiv. ring.
  - unfold np_sum in *. rewrite IH. unfold Rdiv. ring.
Qed.

Lemma normalize_sums_to_one (ws : list R) :
  np_sum ws <> 0 ->
  exists ws', normalize ws = Some ws' /\
              ws' = map (fun w => w / np_sum ws) ws /\ np_sum ws' = 1.
Proof.
  intros Hs. unfold normalize.
  destruct (Req_dec_T (np_sum ws) 0) as [|_]; [done|].
  eexists. split; [reflexivity|]. split; [reflexivity|].
  rewrite np_sum_div. by field.
Qed.

Lemma np_sum_nonneg (l : list R) :
  Forall (fun x => 0 <= x) l -> 0 <= np_sum l.
Proof. induction 1; simpl; [lra|]. unfold np_sum in *. lra. Qed.

Lemma np_std_nonneg (l : list R) : 0 <= np_std l.
Proof. apply sqrt_pos. Qed.

(** The outcome of [_weighted_average] on non-empty lists of one length:
    it never raises, and reports every prediction it was given. *)
Lemma weighted_average_returns (predictions : list prediction) (weights : list R) :
  predictions <> [] ->
  length weights = length predictions ->
  exists r, _weighted_average predictions weights = Ok r /\
            models_used r = length predictions /\
            individual_predictions r = predictions.
Proof.
  intros Hne Hlen. unfold _weighted_average, normalize.
  destruct (Req_dec_T (np_sum weights) 0) as [Hz|Hnz].
  - destruct weights as [|w weights];
      [by destruct predictions|].
    rewrite length_map, Hlen, Nat.eqb_refl. simpl. eauto.
  - unfold np_average. rewrite !length_map, Hlen, Nat.eqb_refl. simpl.
    destruct (Req_dec_T _ 0) as [Hz|_].
    + rewrite np_sum_div in Hz. exfalso. revert Hz.
      replace (np_sum weights / np_sum weights) with 1 by (by field). lra.
    + simpl. eauto.
Qed.

Lemma voting_returns (predictions : list prediction) :
  predictions <> [] ->
  exists r, _voting predictions = Ok r /\
            models_used r = length predictions /\
            individual_predictions r = predictions.
Proof.
  intros Hne. unfold _voting.
  destruct (Nat.eqb_spec (length predictions) 0) as [Hz|_].
  - by destruct predictions.
  - eauto.
Qed.

(** What [_weighted_average] computes from weights with a non-zero sum:
    the weights are scaled to sum to one, the combined price is the weighted
    mean of the predicted prices, the confidence is [1 / (1 + std / mean)]
    and lies in [[0, 1]] for a positive mean, and is 0.5 otherwise. *)
Theorem weighted_average_normalized (predictions : list prediction)
    (weights : list R) :
  predictions <> [] ->
  length weights = length predictions ->
  np_sum weights <> 0 ->
  let prices := map predicted_price predictions in
  exists ws mean r,
    normalize weights = Some ws /\
    ws = map (fun w => w / np_sum weights) weights /\
    np_sum ws = 1 /\
    _weighted_average predictions weights = Ok r /\
    combined_price r = Num mean /\
    mean = np_sum (np_multiply prices ws) /\
    models_used r = length predictions /\
    (0 < mean -> confidence r = 1 / (1 + np_std prices / mean) /\
                 0 <= confidence r <= 1) /\
    (mean <= 0 -> confidence r = 0.5).
Proof.
  intros _ Hlen Hs prices.
  destruct (normalize_sums_to_one weights Hs) as (ws & Hnorm & Hws & Hone).
  exists ws, (np_sum (np_multiply prices ws)).
  unfold _weighted_average. rewrite Hnorm. fold prices.
  unfold np_average.
  assert (Hlen' : length prices = length ws).
  { subst ws prices. by rewrite !length_map. }
  rewrite Hlen', Nat.eqb_refl. simpl.
  destruct (Req_dec_T (np_sum ws) 0) as [Hz|_]; [lra|]. simpl.
  rewrite Hone.
  replace (np_sum (np_multiply prices ws) / 1)
    with (np_sum (np_multiply prices ws)) by field.
  set (mean := np_sum (np_multiply prices ws)).
  eexists. split; [done|]. split; [done|]. split; [done|].
  split; [reflexivity|]. simpl.
  split; [done|]. split; [done|]. split; [done|].
  pose proof (np_std_nonneg prices) as Hstd.
  destruct (Rgt_dec mean 0) as [Hpos|Hneg]; split; intros Hm; try lra.
  split; [done|].
  assert (Hq : 0 <= np_std prices / mean).
  { apply Rmult_le_pos; [done|]. left. by apply Rinv_0_lt_compat. }
  assert (Hd : 0 < 1 + np_std prices / mean) by lra.
  split.
  - left. apply Rdiv_lt_0_compat; lra.
  - apply Rmult_le_reg_r with (r := 1 + np_std prices / mean); [done|].
    replace (1 / (1 + np_std prices / mean) * (1 + np_std prices / mean))
      with 1 by (field; split; lra).
    lra.
Qed.

(** Two models predicting 100 and 102 with weights 0.5 and 0.5. *)
Definition predictions_100_102 : list prediction :=
  [Prediction "LSTM" 100 0.5; Prediction "GRU" 102 0.5].

Lemma weighted_average_normalized_witness :
  exists r, _weighted_average predictions_100_102 [0.5; 0.5] = Ok r /\
            combined_price r = Num 101 /\
            confidence r = 1 / (1 + np_std [100; 102] / 101).
Proof.
  destruct (weighted_average_normalized predictions_100_102 [0.5; 0.5])
    as (ws & mean & r & _ & Hws & _ & Hr & Hprice & Hmean & _ & Hpos & _).
  - done.
  - reflexivity.
  - simpl. lra.
  - assert (Hm : mean = 101).
    { rewrite Hmean, Hws. simpl. field. lra. }
    exists r. split; [exact Hr|]. split; [by rewrite Hprice, Hm|].
    destruct Hpos as [Hc _]; [lra|]. rewrite Hc, Hm. reflexivity.
Defined.

(** The same list when both models carry a recorded directional accuracy
    of 0: the weights cannot be normalised, the combined price is nan and
    the confidence falls back to 0.5. *)
Lemma weighted_average_zero_weights :
  _weighted_average [Prediction "LSTM" 100 0; Prediction "GRU" 102 0] [0; 0]
  = Ok {| ensemble_strategy := "WEIGHTED_AVERAGE";
          combined_price := NaN;
          confidence := 0.5;
          models_used := 2;
          votes := None;
          individual_predictions :=
            [Prediction "LSTM" 100 0; Prediction "GRU" 102 0] |}.
Proof.
  unfold _weighted_average, normalize.
  destruct (Req_dec_T (np_sum [0; 0]) 0) as [_|Hn].
  - reflexivity.
  - exfalso. apply Hn. simpl. lra.
Qed.

(** *** Partial failure *)

Section PredictFacts.
Variable fs : gmap string file.
Variable model_cache_dir : string.
Variable infer : model_info -> string -> string -> result prediction.

(** The models whose inference returned, with what it returned. *)
Definition survivors (symbol horizon : string) (models : list model_info)
    : list prediction :=
  omap (fun m => match infer m symbol horizon with
                 | Ok pred => Some pred
                 | Raise _ => None
                 end) models.

Definition survivor_weights (symbol horizon : string)
    (models : list model_info) : list R :=
  omap (fun m => match infer m symbol horizon with
                 | Ok _ => Some (model_weight m)
                 | Raise _ => None
                 end) models.

Lemma collect_survivors symbol horizon models predictions weights :
  collect infer symbol horizon models predictions weights
  = (predictions ++ survivors symbol horizon models,
     weights ++ survivor_weights symbol horizon models).
Proof.
  revert predictions weights.
  induction models as [|m models IH]; intros predictions weights; simpl.
  - by rewrite !app_nil_r.
  - unfold survivors, survivor_weights in *. simpl.
    destruct (infer m symbol horizon) as [pred|e]; simpl.
    + rewrite IH. by rewrite <- !app_assoc.
    + apply IH.
Qed.

Lemma survivor_weights_length symbol horizon models :
  length (survivor_weights symbol horizon models)
  = length (survivors symbol horizon models).
Proof.
  unfold survivors, survivor_weights.
  induction models as [|m models IH]; [done|].
  cbn. destruct (infer m symbol horizon); cbn; [f_equal|]; exact IH.
Qed.


End PredictFacts.
End EnsembleFacts.

(** [voting_confidence_at_least_half] at the two predictions 100 and 102:
    the median is 101, one vote up and one down, confidence one half. *)
Lemma voting_confidence_at_least_half_witness :
  exists r, EnsembleService._voting predictions_100_102 = Ok r /\
            (1 / 2 <= EnsembleService.confidence r <= 1)%R.
Proof.
  destruct (voting_confidence_at_least_half predictions_100_102)
    as (r & up & down & Hr & _ & _ & _ & _ & Hc); [done|].
  exists r. split; [exact Hr | exact Hc].
Defined.

(** A model cache holding one metadata document and two model files for
    BTCUSDT, and an inference path on which the GRU model fails. *)
Definition cache_example : gmap string EnsembleService.file :=
  <["./models/BTCUSDT" := EnsembleService.Directory]>
  (<["./models/BTCUSDT/metadata.json" :=
       EnsembleService.Json (EnsembleService.Metadata (Some 60%R))]>
  (<["./models/BTCUSDT/lstm_model.pt" := EnsembleService.Binary]>
  (<["./models/BTCUSDT/gru_model.pt" := EnsembleService.Binary]> ∅))).

Definition infer_example (m : EnsembleService.model_info)
    (symbol horizon : string) : result EnsembleService.prediction :=
  if String.eqb (EnsembleService.type m) "LSTM"
  then Ok (EnsembleService.Prediction "LSTM" 100 60)
  else Raise (RuntimeError "size mismatch for gru.weight_ih_l0").

Definition models_example : list EnsembleService.model_info :=
  [EnsembleService.ModelInfo "LSTM" "./models/BTCUSDT/lstm_model.pt"
     (EnsembleService.Metadata (Some 60%R));
   EnsembleService.ModelInfo "GRU" "./models/BTCUSDT/gru_model.pt"
     (EnsembleService.Metadata (Some 60%R))].

Lemma load_cache_example :
  EnsembleService._load_available_models cache_example "./models" "BTCUSDT"
  = Ok models_example.
Proof. vm_compute. reflexivity. Qed.


(** ** Scaler *)

Section NormalizerFacts.
Import Np Normalizer.
#[local] Open Scope R_scope.

(** The attributes [transform] and [inverse_transform] read. *)
Definition read_attrs : list string := ["mean_"; "scale_"; "min_"; "center_"].

(** Two scaler objects of one class that agree on the feature count and on
    the attributes that are read transform alike. *)
Lemma sk_transform_ext (sk sk' : sk_scaler) (X : ndarray R) :
  sk_class sk = sk_class sk' ->
  n_features_in_ sk = n_features_in_ sk' ->
  is_Some (n_features_in_ sk) ->
  (forall a, a ∈ read_attrs -> attrs sk !! a = attrs sk' !! a) ->
  sk_transform sk X = sk_transform sk' X /\
  sk_inverse_transform sk X = sk_inverse_transform sk' X.
Proof.
  intros Hc Hn Hsome Ha.
  assert (Hget : forall a, a ∈ read_attrs -> get_attr sk a = get_attr sk' a).
  { intros a Hin. unfold get_attr. by rewrite (Ha a Hin). }
  assert (Hfit : check_is_fitted sk = Ok () /\ check_is_fitted sk' = Ok ()).
  { unfold check_is_fitted. rewrite <- Hn.
    rewrite (bool_decide_eq_true_2 _ Hsome). simpl. by rewrite !andb_false_r. }
  destruct Hfit as [Hf Hf'].
  unfold sk_transform, sk_inverse_transform, check_n_features.
  rewrite Hf, Hf', <- Hc, <- Hn.
  rewrite !(Hget "mean_"), !(Hget "scale_"), !(Hget "min_"), !(Hget "center_")
    by (unfold read_attrs; set_solver).
  done.
Qed.

Lemma columns_length (M : ndarray R) : length (columns M) = ncols M.
Proof. unfold columns. by rewrite length_map, length_seq. Qed.

(** What [fit] leaves in a fresh normalizer. *)
Lemma fit_fresh (m : string) (c : scaler_class) (M : ndarray R) (n : normalizer) :
  fit (MkNormalizer m (SkScaler c ∅ None) false) M = Ok n ->
  exists sk, sk_fit (SkScaler c ∅ None) M = Ok sk /\
             n = MkNormalizer m sk true /\
             sk_class sk = c /\ n_features_in_ sk = Some (ncols M).
Proof.
  unfold fit. simpl. intros H.
  destruct (sk_fit (SkScaler c ∅ None) M) as [sk|e] eqn:Hfit; [|done].
  simpl in H. injection H as <-. exists sk. split; [done|]. split; [done|].
  unfold sk_fit in Hfit. destruct (check_array M); [|done].
  simpl in Hfit. injection Hfit as <-. done.
Qed.

Ltac attr_lookup :=
  repeat first
    [ rewrite lookup_insert_eq
    | rewrite lookup_insert_ne by done
    | rewrite lookup_empty ].

(** A normalizer that comes out of [fit] can be saved. *)
Lemma save_fitted_returns (m path : string) (M : ndarray R)
    (n : normalizer) (disk : gmap string (gmap string json)) :
  (n0 ← init m; fit n0 M) = Ok n ->
  exists disk', save n path disk = Ok disk'.
Proof.
  unfold init, _create_scaler.
  destruct (String.eqb m "standard") eqn:E1;
    [|destruct (String.eqb m "minmax") eqn:E2;
      [|destruct (String.eqb m "robust") eqn:E3; [|done]]];
    simpl; intros Hfit;
    apply fit_fresh in Hfit as (sk & Hsk & -> & Hc & Hn);
    unfold sk_fit in Hsk; destruct (check_array M); try done;
    simpl in Hsk; injection Hsk as <-;
    unfold save, put_attr, get_attr;
    simpl; rewrite ?E1, ?E2, ?E3; simpl; attr_lookup; simpl; eauto.
Qed.

(** C7. A normalizer of any of the three methods, fit on a matrix, saved
    and loaded into a fresh instance has the same [transform] and the same
    [inverse_transform] as the original, on every input. *)
Theorem save_load_roundtrip (m path : string) (M : ndarray R)
    (n : normalizer) (disk : gmap string (gmap string json)) :
  (n0 ← init m; fit n0 M) = Ok n ->
  exists disk' n',
    save n path disk = Ok disk' /\
    load path disk' = Ok n' /\
    forall X, transform n' X = transform n X /\
              inverse_transform n' X = inverse_transform n X.
Proof.
  unfold init, _create_scaler.
  destruct (String.eqb m "standard") eqn:E1;
    [|destruct (String.eqb m "minmax") eqn:E2;
      [|destruct (String.eqb m "robust") eqn:E3; [|done]]];
    simpl; intros Hfit;
    apply fit_fresh in Hfit as (sk & Hsk & -> & Hc & Hn);
    unfold sk_fit in Hsk; destruct (check_array M); try done;
    simpl in Hsk; injection Hsk as <-;
    first [ apply String.eqb_eq in E1 | apply String.eqb_eq in E2
          | apply String.eqb_eq in E3 ];
    subst m;
    unfold save, load, put_attr, get_attr, init, _create_scaler,
           set_attr, set_n_features, get_array, getitem;
    simpl; attr_lookup; simpl;
    (eexists; eexists; split; [reflexivity|]);
    repeat (progress (attr_lookup; simpl));
    (split; [reflexivity|]);
    intros X; unfold transform, inverse_transform; simpl;
    apply sk_transform_ext; simpl.
  all: try done.
  all: try (f_equal;
            repeat first [ rewrite length_zip_with | rewrite length_map
                         | rewrite columns_length ]; lia).
  all: intros a' Ha; unfold read_attrs in Ha;
    repeat (apply elem_of_cons in Ha as [->|Ha]);
    try (by apply elem_of_nil in Ha); attr_lookup; done.
Qed.

End NormalizerFacts.

(** A 2 x 2 matrix to fit on. *)
Definition scaler_example : Np.ndarray R :=
  Np.NdArray 2 [[1; 10]; [3; 30]]%R.

(** [save_load_roundtrip] for a standard scaler fit on [scaler_example]. *)
Lemma save_load_roundtrip_witness :
  exists n disk' n',
    (n0 ← Normalizer.init "standard"; Normalizer.fit n0 scaler_example) = Ok n /\
    Normalizer.save n "normalizer_X.json" ∅ = Ok disk' /\
    Normalizer.load "normalizer_X.json" disk' = Ok n' /\
    forall X, Normalizer.transform n' X = Normalizer.transform n X /\
              Normalizer.inverse_transform n' X = Normalizer.inverse_transform n X.
Proof.
  assert (Hfit : exists n,
    (n0 ← Normalizer.init "standard"; Normalizer.fit n0 scaler_example) = Ok n)
    by (eexists; reflexivity).
  destruct Hfit as [n Hn].
  destruct (save_load_roundtrip "standard" "normalizer_X.json" scaler_example
              n ∅ Hn) as (disk' & n' & Hsave & Hload & HX).
  exists n, disk', n'. split; [exact Hn|]. split; [exact Hsave|].
  split; [exact Hload | exact HX].
Defined.

(** ** Training data preparation *)

Section TrainingFacts.
Import Np Normalizer Training.
#[local] Open Scope R_scope.
Context {T : Type}.
Variable float_tensor : R -> T.

(** Both scalers of a training invocation are fit on the whole input: every
    row of the feature matrix and of the close column, before any window is
    built and before the split. *)
Lemma prepare_scalers (normalization : string) (L : nat)
    (X_data : ndarray R) (y_data : list R) (p : prepared T) :
  prepare float_tensor normalization L X_data y_data = Ok p ->
  (n0 ← init normalization; fit n0 X_data) = Ok (X_normalizer p) /\
  (n0 ← init normalization; fit n0 (reshape_column y_data)) = Ok (y_normalizer p).
Proof.
  unfold prepare, fit_transform. intros H.
  destruct (init normalization) as [n0|e]; [|done]. simpl in *.
  destruct (fit n0 X_data) as [nX|e]; [|done]. simpl in *.
  destruct (transform nX X_data) as [Xn|e]; [|done]. simpl in *.
  destruct (fit n0 (reshape_column y_data)) as [ny|e]; [|done]. simpl in *.
  destruct (transform ny (reshape_column y_data)) as [yn|e]; [|done]. simpl in *.
  destruct (WindowBuilder.create_sequences float_tensor Xn L 0 1)
    as [[Xs ys]|e]; [|done].
  simpl in H. injection H as <-. done.
Qed.

End TrainingFacts.

(** Two feature tables of 20 rows and one feature column that agree on the
    first 19 rows and differ in the last one, which lies in the test
    partition for a sequence length of 10. *)
Definition leak_common : list R :=
  [1; 2; 3; 4; 5; 6; 7; 8; 9; 10; 11; 12; 13; 14; 15; 16; 17; 18; 19]%R.

Definition leak_y (last : R) : list R := leak_common ++ [last].

Definition leak_X (last : R) : Np.ndarray R :=
  Np.NdArray 1 (map (fun x => [x]) (leak_y last)).

Example training_rows_20 : Training.training_rows 10 20 = 17.
Proof. reflexivity. Qed.

Lemma prepare_leak_returns (last : R) :
  exists p,
    Training.prepare Np.float32 "standard" 10 (leak_X last) (leak_y last)
    = Ok p.
Proof. eexists. reflexivity. Qed.

(** The [mean_] attribute of a fitted standard scaler: the mean of each
    column over all the rows it was given. *)
Lemma fit_standard_mean (X : Np.ndarray R) (n : Normalizer.normalizer) :
  (n0 ← Normalizer.init "standard"; Normalizer.fit n0 X) = Ok n ->
  Normalizer.attrs (Normalizer.scaler n) !! "mean_"
  = Some (map Np.np_mean (Np.columns X)).
Proof.
  unfold Normalizer.init, Normalizer.fit, Normalizer.sk_fit. simpl.
  destruct (Normalizer.check_array X); [|done]. simpl.
  intros H. injection H as <-. simpl. by rewrite lookup_insert_eq.
Qed.

Lemma leak_column (last : R) : Np.columns (leak_X last) = [leak_y last].
Proof. reflexivity. Qed.

Lemma leak_mean_differs :
  Np.np_mean (leak_y 20) <> Np.np_mean (leak_y 100).
Proof.
  unfold Np.np_mean, Np.np_sum, leak_y, leak_common. simpl. lra.
Qed.

(** The claim of C2 fails: the two tables agree on every row that reaches
    the training partition (and on the validation rows as well), and both
    fitted scalers differ. *)
Lemma fit_depends_on_test_rows :
  exists p1 p2,
    Training.prepare Np.float32 "standard" 10 (leak_X 20) (leak_y 20)
    = Ok p1 /\
    Training.prepare Np.float32 "standard" 10 (leak_X 100) (leak_y 100)
    = Ok p2 /\
    take (Training.training_rows 10 20) (Np.rows (leak_X 20))
    = take (Training.training_rows 10 20) (Np.rows (leak_X 100)) /\
    take (Training.training_rows 10 20) (leak_y 20)
    = take (Training.training_rows 10 20) (leak_y 100) /\
    Training.X_normalizer p1 <> Training.X_normalizer p2 /\
    Training.y_normalizer p1 <> Training.y_normalizer p2.
Proof.
  destruct (prepare_leak_returns 20) as [p1 H1].
  destruct (prepare_leak_returns 100) as [p2 H2].
  exists p1, p2. split; [exact H1|]. split; [exact H2|].
  split; [reflexivity|]. split; [reflexivity|].
  apply prepare_scalers in H1 as [HX1 Hy1].
  apply prepare_scalers in H2 as [HX2 Hy2].
  apply fit_standard_mean in HX1, HX2, Hy1, Hy2.
  split; intros Heq; rewrite Heq in *.
  - rewrite HX1 in HX2. rewrite !leak_column in HX2.
    injection HX2 as HX2. by apply leak_mean_differs.
  - rewrite Hy1 in Hy2. injection Hy2 as Hy2. by apply leak_mean_differs.
Qed.

(** C2, as the code has it.  The scalers of a training invocation are the
    result of [fit] on the entire feature matrix and on the entire close
    column, validation and test rows included; so two invocations whose
    tables agree on all rows get identical scalers, whatever their sequence
    lengths and hence their splits. *)
Theorem scalers_fit_on_all_rows {T : Type} (float_tensor : R -> T)
    (normalization : string) (L L' : nat)
    (X_data : Np.ndarray R) (y_data : list R) (p p' : Training.prepared T) :
  Training.prepare float_tensor normalization L X_data y_data = Ok p ->
  Training.prepare float_tensor normalization L' X_data y_data = Ok p' ->
  (n0 ← Normalizer.init normalization; Normalizer.fit n0 X_data)
    = Ok (Training.X_normalizer p) /\
  (n0 ← Normalizer.init normalization;
   Normalizer.fit n0 (Np.reshape_column y_data))
    = Ok (Training.y_normalizer p) /\
  Training.X_normalizer p' = Training.X_normalizer p /\
  Training.y_normalizer p' = Training.y_normalizer p.
Proof.
  intros H H'.
  apply prepare_scalers in H as [HX Hy].
  apply prepare_scalers in H' as [HX' Hy'].
  split; [exact HX|]. split; [exact Hy|].
  split; congruence.
Qed.

(** [scalers_fit_on_all_rows] on a 20-row table with sequence lengths 10
    and 12. *)
Lemma scalers_fit_on_all_rows_witness :
  exists p p',
    Training.prepare Np.float32 "standard" 10 (leak_X 20) (leak_y 20)
    = Ok p /\
    Training.prepare Np.float32 "standard" 12 (leak_X 20) (leak_y 20)
    = Ok p' /\
    Training.X_normalizer p' = Training.X_normalizer p /\
    Training.y_normalizer p' = Training.y_normalizer p.
Proof.
  destruct (prepare_leak_returns 20) as [p H].
  assert (H' : exists p',
    Training.prepare Np.float32 "standard" 12 (leak_X 20) (leak_y 20)
    = Ok p')
    by (eexists; reflexivity).
  destruct H' as [p' H'].
  destruct (scalers_fit_on_all_rows Np.float32 "standard" 10 12
              (leak_X 20) (leak_y 20) p p' H H') as (_ & _ & HX & Hy).
  exists p, p'. split; [exact H|]. split; [exact H'|].
  split; [exact HX | exact Hy].
Defined.

(** ** TrainingController *)

(** What the proofs use of [<] on floats: it is a strict order, and nan is
    below nothing. *)
Class FloatOrder (F : Type) `{Floating F} : Prop := {
  f_ltb_trans : forall x y z : F,
    f_ltb x y = true -> f_ltb y z = true -> f_ltb x z = true;
  f_ltb_asym : forall x y : F, f_ltb x y = true -> f_ltb y x = false;
  f_ltb_nan : forall x y : F, f_isnan x = true -> f_ltb x y = false;
}.

#[global] Instance xreal_order : FloatOrder xreal.
Proof.
  split.
  - intros [a| | |] [b| | |] [c| | |]; simpl; try done.
    destruct (Rlt_dec a b), (Rlt_dec b c), (Rlt_dec a c); try done. lra.
  - intros [a| | |] [b| | |]; simpl; try done.
    destruct (Rlt_dec a b), (Rlt_dec b a); try done. lra.
  - intros [a| | |] y; simpl; done.
Qed.

Section TrainerFacts.
Context {F : Type} `{Floating F}.
Context {tensor batch optim : Type}.
Variable train_step : list tensor -> optim -> batch -> list tensor * optim * F.
Variable eval_loss : list tensor -> batch -> F.
Variable scheduler_step : optim -> F -> optim.
Variable train_loader : nat -> list batch.
Variable val_loader : list batch.
Variable checkpoint_dir : option string.
Import Trainer.

Implicit Types (self : trainer F optim) (w : world tensor)
  (st : trainer F optim * world tensor) (h : gmap nat tensor)
  (model : list (string * nat)).

(** Every parameter of the model has a cell, and no two share a name. *)
Definition model_ok model h : Prop :=
  NoDup model.*1 /\ Forall (fun p => is_Some (h !! p.2)) model.

(** The snapshot, when there is one, is the model's own state dictionary. *)
Definition snapshot_ok self : Prop :=
  best_model_state self = None \/ best_model_state self = Some (model self).

Definition state_ok st : Prop :=
  model_ok (model st.1) (heap st.2) /\ snapshot_ok st.1.

Lemma dict_get_own model name l :
  NoDup model.*1 -> (name, l) ∈ model -> dict_get model name = Some l.
Proof.
  induction model as [|[k v] model IH]; intros Hnd Hin; [by apply elem_of_nil in Hin|].
  simpl in *. apply NoDup_cons in Hnd as [Hk Hnd].
  apply elem_of_cons in Hin as [Heq|Hin].
  - injection Heq as -> ->. by rewrite String.eqb_refl.
  - destruct (String.eqb_spec k name) as [->|_]; [|by apply IH].
    exfalso. apply Hk. apply list_elem_of_fmap. by exists (name, l).
Qed.

Lemma load_state_dict_sub model (params : list (string * nat)) h :
  NoDup model.*1 -> (forall p, p ∈ params -> p ∈ model) ->
  Forall (fun p => is_Some (h !! p.2)) params ->
  load_state_dict params model h = Ok h.
Proof.
  intros Hnd. induction params as [|[name dst] params IH]; intros Hsub Hcells; [done|].
  simpl. rewrite (dict_get_own model name dst Hnd) by (apply Hsub; left).
  apply Forall_cons in Hcells as [[v Hv] Hcells]. simpl in Hv.
  rewrite Hv, insert_id by done.
  apply IH; [|done]. intros p Hp. apply Hsub. by right.
Qed.

(** Loading a model's own state dictionary copies every cell onto itself. *)
Lemma load_own_state_dict model h :
  model_ok model h -> load_state_dict model (state_dict model) h = Ok h.
Proof.
  intros [Hnd Hcells]. by apply load_state_dict_sub.
Qed.

Lemma restore_best_noop self h :
  model_ok (model self) h -> snapshot_ok self -> restore_best self h = Ok h.
Proof.
  intros Hm [Hs|Hs]; unfold restore_best; rewrite Hs; [done|].
  destruct (model self) as [|entry d] eqn:Hmodel; [done|].
  rewrite <- Hmodel in *. by apply load_own_state_dict.
Qed.

(** *** One epoch *)

Lemma update_parameters_cells model (values : list tensor) h (l : nat) :
  is_Some (h !! l) -> is_Some (update_parameters model values h !! l).
Proof.
  unfold update_parameters. revert h.
  induction (zip model values) as [|pv pvs IH]; intros h Hl; [done|].
  simpl. apply IH. apply lookup_insert_is_Some'. by right.
Qed.

Lemma train_epoch_loop_spec model loader opt h (total : F) (n : nat) :
  exists opt' h' total',
    train_epoch_loop train_step model loader opt h total n
    = (opt', h', total', (n + length loader)%nat) /\
    forall l, is_Some (h !! l) -> is_Some (h' !! l).
Proof.
  revert opt h total n.
  induction loader as [|b loader IH]; intros opt h total n; simpl.
  - exists opt, h, total. by rewrite Nat.add_0_r.
  - destruct (train_step (parameters model h) opt b) as [[values opt1] loss].
    destruct (IH opt1 (update_parameters model values h) (f_add total loss) (S n))
      as (opt' & h' & total' & Heq & Hcells).
    exists opt', h', total'. split.
    + rewrite Heq. f_equal. simpl. lia.
    + intros l Hl. by apply Hcells, update_parameters_cells.
Qed.

Lemma train_epoch_returns model loader opt h :
  loader <> [] ->
  exists opt' h' loss,
    train_epoch train_step model loader opt h = Ok (opt', h', loss) /\
    forall l, is_Some (h !! l) -> is_Some (h' !! l).
Proof.
  intros Hne. unfold train_epoch.
  destruct (train_epoch_loop_spec model loader opt h (f_of_Z 0) 0)
    as (opt' & h' & total' & -> & Hcells).
  destruct loader as [|b loader]; [done|]. simpl. eauto.
Qed.

Lemma validate_loop_count model loader h (total : F) (n : nat) :
  (validate_loop eval_loss model loader h total n).2 = (n + length loader)%nat.
Proof.
  revert total n. induction loader as [|b loader IH]; intros total n; simpl.
  - lia.
  - rewrite IH. lia.
Qed.

Lemma validate_returns model loader h :
  loader <> [] -> exists v, validate eval_loss model loader h = Ok v.
Proof.
  intros Hne. unfold validate.
  pose proof (validate_loop_count model loader h (f_of_Z 0) 0) as Hn.
  destruct (validate_loop eval_loss model loader h (f_of_Z 0) 0) as [total n].
  simpl in Hn. subst n. destruct loader; [done|]. simpl. eauto.
Qed.

(** The validation loss that epoch [epoch] computes when it starts in
    state [st]. *)
Definition epoch_val (epoch : nat) st : F :=
  match train_epoch train_step (model st.1) (train_loader epoch)
                    (optimizer st.1) (heap st.2) with
  | Ok (_, h, _) =>
      match validate eval_loss (model st.1) val_loader h with
      | Ok v => v
      | Raise _ => f_nan
      end
  | Raise _ => f_nan
  end.

(** With non-empty loaders an epoch never raises, whatever the losses are;
    it records both losses, and either takes the validation loss as the new
    best (resetting the counter and taking a snapshot) or counts one more
    epoch without improvement. *)
Lemma epoch_body_spec (epoch : nat) st :
  train_loader epoch <> [] -> val_loader <> [] -> state_ok st ->
  exists st',
    epoch_body train_step eval_loss scheduler_step train_loader val_loader
               checkpoint_dir epoch st = Ok st' /\
    state_ok st' /\
    model st'.1 = model st.1 /\
    val_losses st'.1 = val_losses st.1 ++ [epoch_val epoch st] /\
    length (train_losses st'.1) = S (length (train_losses st.1)) /\
    if f_ltb (epoch_val epoch st) (best_val_loss st.1) then
      best_val_loss st'.1 = epoch_val epoch st /\
      epochs_without_improvement st'.1 = 0%nat /\
      best_model_state st'.1 = Some (model st.1)
    else
      best_val_loss st'.1 = best_val_loss st.1 /\
      epochs_without_improvement st'.1 = S (epochs_without_improvement st.1) /\
      best_model_state st'.1 = best_model_state st.1.
Proof.
  intros Htrain Hval [[Hnd Hcells] Hsnap].
  destruct st as [self w]. unfold epoch_body, epoch_val. simpl in *.
  destruct (train_epoch_returns (model self) (train_loader epoch)
              (optimizer self) (heap w) Htrain)
    as (opt' & h' & loss & -> & Hkeep).
  simpl.
  destruct (validate_returns (model self) val_loader h' Hval) as [v Hv].
  rewrite !Hv. simpl.
  assert (Hcells' : Forall (fun p => is_Some (h' !! p.2)) (model self)).
  { eapply Forall_impl; [exact Hcells|]. intros p Hp. by apply Hkeep. }
  destruct (f_ltb v (best_val_loss self)); eexists; (split; [reflexivity|]);
    simpl; rewrite ?length_app; simpl.
  - repeat split; try done; try lia. by right.
  - repeat split; try done; try lia.
Qed.

(** *** The loop *)

(** The epochs of a list one after the other, without the stopping test. *)
Fixpoint run_epochs (epochs : list nat) st
    : result (trainer F optim * world tensor) :=
  match epochs with
  | [] => Ok st
  | epoch :: rest =>
      st ← epoch_body train_step eval_loss scheduler_step train_loader
             val_loader checkpoint_dir epoch st;
      run_epochs rest st
  end.

Lemma run_epochs_app (l1 l2 : list nat) st :
  run_epochs (l1 ++ l2) st = (st' ← run_epochs l1 st; run_epochs l2 st').
Proof.
  revert st. induction l1 as [|e l1 IH]; intros st; simpl; [done|].
  destruct (epoch_body _ _ _ _ _ _ e st) as [st1|err]; simpl; [apply IH|done].
Qed.

Lemma run_epochs_snoc (k n : nat) st :
  run_epochs (seq k (S n)) st
  = (st' ← run_epochs (seq k n) st; run_epochs [(k + n)%nat] st').
Proof. by rewrite seq_S, run_epochs_app. Qed.

(** With non-empty loaders the epochs never raise. *)
Lemma run_epochs_returns (epochs : list nat) st :
  (forall e, train_loader e <> []) -> val_loader <> [] -> state_ok st ->
  exists st',
    run_epochs epochs st = Ok st' /\ state_ok st' /\
    model st'.1 = model st.1 /\
    length (train_losses st'.1)
    = (length (train_losses st.1) + length epochs)%nat.
Proof.
  intros Htrain Hval. revert st.
  induction epochs as [|e epochs IH]; intros st Hok; simpl.
  - exists st. split; [done|]. split; [done|]. split; [done|]. simpl. lia.
  - destruct (epoch_body_spec e st (Htrain e) Hval Hok)
      as (st1 & -> & Hok1 & Hm1 & _ & Hlen1 & _).
    simpl. destruct (IH st1 Hok1) as (st' & -> & Hok' & Hm' & Hlen').
    exists st'. split; [done|]. split; [done|]. split; [congruence|]. simpl. lia.
Qed.

(** The loop stops at the first epoch after which the counter has reached
    the patience. *)
Lemma train_loop_stops_at (patience : Z) (m : nat) :
  forall (k n : nat) st s,
  (m < n)%nat ->
  run_epochs (seq k (S m)) st = Ok s ->
  (forall j s', (j < m)%nat -> run_epochs (seq k (S j)) st = Ok s' ->
                early_stop patience s'.1 = false) ->
  early_stop patience s.1 = true ->
  train_loop train_step eval_loss scheduler_step train_loader val_loader
             patience checkpoint_dir (seq k n) st = Ok s.
Proof.
  induction m as [|m IH]; intros k n st s Hn Hrun Hbefore Hstop;
    (destruct n as [|n]; [lia|]); simpl in *.
  - destruct (epoch_body _ _ _ _ _ _ k st) as [s1|err]; [|done].
    simpl in *. injection Hrun as ->. by rewrite Hstop.
  - destruct (epoch_body _ _ _ _ _ _ k st) as [s1|err] eqn:Hbody; [|done].
    simpl in *.
    rewrite (Hbefore 0%nat s1) by (try lia; done).
    apply IH; [lia|done| |done].
    intros j s' Hj Hs'. apply (Hbefore (S j) s'); [lia|done].
Qed.

(** When the counter never reaches the patience, every epoch is run. *)
Lemma train_loop_runs_all (patience : Z) (n : nat) :
  forall (k : nat) st,
  (forall j s', (j < n)%nat -> run_epochs (seq k (S j)) st = Ok s' ->
                early_stop patience s'.1 = false) ->
  train_loop train_step eval_loss scheduler_step train_loader val_loader
             patience checkpoint_dir (seq k n) st
  = run_epochs (seq k n) st.
Proof.
  induction n as [|n IH]; intros k st Hbefore; simpl; [done|].
  destruct (epoch_body _ _ _ _ _ _ k st) as [s1|err] eqn:Hbody; [|done].
  simpl. rewrite (Hbefore 0%nat s1) by (try lia; simpl; by rewrite Hbody).
  apply IH. intros j s' Hj Hs'. apply (Hbefore (S j) s'); [lia|].
  simpl. by rewrite Hbody.
Qed.

(** [train] ends in the state the loop ends in: restoring the snapshot
    leaves every parameter as the last epoch left it. *)
Lemma train_keeps_last_epoch (epochs patience : Z) st :
  (forall e, train_loader e <> []) -> val_loader <> [] -> state_ok st ->
  forall s,
  train_loop train_step eval_loss scheduler_step train_loader val_loader
             patience checkpoint_dir (py_range epochs) st = Ok s ->
  state_ok s ->
  train train_step eval_loss scheduler_step train_loader val_loader
        epochs patience checkpoint_dir st
  = Ok (s.1, s.2,
        {| h_epochs := length (train_losses s.1);
           h_best_val_loss := best_val_loss s.1;
           h_train_losses := train_losses s.1;
           h_val_losses := val_losses s.1 |}).
Proof.
  intros _ _ _ [self w] Hloop [Hm Hs]. unfold train. rewrite Hloop. simpl in *.
  rewrite restore_best_noop by done. simpl. by destruct w.
Qed.

(** With non-empty loaders the loop and [train] return, whatever the
    losses are. *)
Lemma train_loop_returns (patience : Z) (epochs : list nat) st :
  (forall e, train_loader e <> []) -> val_loader <> [] -> state_ok st ->
  exists s,
    train_loop train_step eval_loss scheduler_step train_loader val_loader
               patience checkpoint_dir epochs st = Ok s /\
    state_ok s /\ model s.1 = model st.1.
Proof.
  intros Htrain Hval. revert st.
  induction epochs as [|e epochs IH]; intros st Hok; simpl; [by exists st|].
  destruct (epoch_body_spec e st (Htrain e) Hval Hok)
    as (s1 & -> & Hok1 & Hm1 & _).
  simpl. destruct (early_stop patience s1.1); [by exists s1|].
  destruct (IH s1 Hok1) as (s & -> & Hs & Hm). exists s.
  split; [done|]. split; [done|]. congruence.
Qed.

Lemma train_returns (epochs patience : Z) st :
  (forall e, train_loader e <> []) -> val_loader <> [] -> state_ok st ->
  exists self w hist,
    train train_step eval_loss scheduler_step train_loader val_loader
          epochs patience checkpoint_dir st = Ok (self, w, hist) /\
    model self = model st.1 /\
    written w = written (self, w).2 /\
    train_loop train_step eval_loss scheduler_step train_loader val_loader
               patience checkpoint_dir (py_range epochs) st = Ok (self, w).
Proof.
  intros Htrain Hval Hok.
  destruct (train_loop_returns patience (py_range epochs) st Htrain Hval Hok)
    as ([self w] & Hloop & Hs & Hm).
  exists self, w. eexists. split.
  - apply (train_keeps_last_epoch epochs patience st Htrain Hval Hok
             (self, w) Hloop Hs).
  - done.
Qed.

(** *** Early stopping *)

(** The run from [st] without the stopping test: the state after [j]
    epochs, the validation loss of epoch [e], and the counter after [j]
    epochs. *)
Definition state_after (j : nat) st : trainer F optim * world tensor :=
  match run_epochs (seq 0 j) st with Ok s => s | Raise _ => st end.

Definition val_of (e : nat) st : F := epoch_val e (state_after e st).

Lemma state_after_run (j : nat) st :
  (forall e, train_loader e <> []) -> val_loader <> [] -> state_ok st ->
  run_epochs (seq 0 j) st = Ok (state_after j st) /\
  state_ok (state_after j st) /\
  model (state_after j st).1 = model st.1 /\
  length (train_losses (state_after j st).1)
  = (length (train_losses st.1) + j)%nat.
Proof.
  intros Htrain Hval Hok. unfold state_after.
  destruct (run_epochs_returns (seq 0 j) st Htrain Hval Hok)
    as (s & -> & Hs & Hm & Hlen).
  rewrite length_seq in Hlen. done.
Qed.

Lemma state_after_S (j : nat) st :
  (forall e, train_loader e <> []) -> val_loader <> [] -> state_ok st ->
  epoch_body train_step eval_loss scheduler_step train_loader val_loader
             checkpoint_dir j (state_after j st)
  = Ok (state_after (S j) st).
Proof.
  intros Htrain Hval Hok.
  destruct (state_after_run j st Htrain Hval Hok) as (Hj & _).
  destruct (state_after_run (S j) st Htrain Hval Hok) as (HSj & _).
  rewrite run_epochs_snoc, Hj in HSj. simpl in HSj.
  destruct (epoch_body _ _ _ _ _ _ j (state_after j st)); simpl in HSj; congruence.
Qed.

(** After an improvement at epoch [k] followed by strictly growing
    validation losses, the state [i] epochs later still holds epoch [k]'s
    loss as the best one and has counted [i] epochs without improvement. *)
Lemma worsening_counts `{!FloatOrder F} (k P : nat) st :
  (forall e, train_loader e <> []) -> val_loader <> [] -> state_ok st ->
  f_ltb (val_of k st) (best_val_loss (state_after k st).1) = true ->
  (forall i, (i < P)%nat ->
     f_ltb (val_of (k + i) st) (val_of (k + S i) st) = true) ->
  forall i, (i <= P)%nat ->
    best_val_loss (state_after (k + S i) st).1 = val_of k st /\
    epochs_without_improvement (state_after (k + S i) st).1 = i /\
    best_model_state (state_after (k + S i) st).1 = Some (model st.1) /\
    (i = 0%nat \/ f_ltb (val_of k st) (val_of (k + i) st) = true).
Proof.
  intros Htrain Hval Hok Himp Hmono.
  induction i as [|i IH]; intros Hi.
  - rewrite Nat.add_1_r.
    destruct (state_after_run k st Htrain Hval Hok) as (_ & Hokk & Hmk & _).
    destruct (epoch_body_spec k (state_after k st) (Htrain k) Hval Hokk)
      as (s' & Hbody & _ & _ & _ & _ & Hcase).
    rewrite state_after_S in Hbody by done. injection Hbody as <-.
    fold (val_of k st) in Hcase. rewrite Himp in Hcase.
    destruct Hcase as (Hb & Hc & Hs). rewrite Hmk in Hs. auto.
  - destruct IH as (Hb & Hc & Hs & Hlt); [lia|].
    assert (Hk : f_ltb (val_of k st) (val_of (k + S i) st) = true).
    { destruct Hlt as [->|Hlt].
      - rewrite <- (Nat.add_0_r k) at 1. apply Hmono. lia.
      - eapply f_ltb_trans; [exact Hlt|]. apply Hmono. lia. }
    destruct (state_after_run (k + S i) st Htrain Hval Hok) as (_ & Hoki & Hmi & _).
    destruct (epoch_body_spec (k + S i) (state_after (k + S i) st)
                (Htrain _) Hval Hoki)
      as (s' & Hbody & _ & _ & _ & _ & Hcase).
    rewrite state_after_S in Hbody by done. injection Hbody as <-.
    fold (val_of (k + S i) st) in Hcase.
    rewrite Hb, (f_ltb_asym _ _ Hk) in Hcase.
    destruct Hcase as (Hb' & Hc' & Hs').
    replace (k + S (S i))%nat with (S (k + S i)) by lia.
    split; [exact Hb'|]. split; [by rewrite Hc', Hc|].
    split; [by rewrite Hs', Hs|]. by right.
Qed.

Lemma early_stop_counter (P : nat) self :
  early_stop (Z.of_nat P) self
  = bool_decide (P <= epochs_without_improvement self)%nat.
Proof.
  unfold early_stop. destruct (Z.leb_spec (Z.of_nat P)
    (Z.of_nat (epochs_without_improvement self)));
    [rewrite bool_decide_eq_true_2 | rewrite bool_decide_eq_false_2]; lia.
Qed.

(** Early stopping.  Take a run with non-empty loaders that reaches epoch
    [k] (the counter stays below the patience [P] before it), improves at
    epoch [k], and whose validation loss then grows strictly for [P] epochs,
    with more than [k + P] epochs allowed.  [train] stops after exactly [P]
    further epochs: it returns the state reached after epoch [k + P], with
    [k + P + 1] epochs recorded and epoch [k]'s validation loss as the best
    one.  The parameters it leaves in the model are those of that last
    epoch. *)
Theorem early_stopping_after_patience `{!FloatOrder F} (E P k : nat) st :
  (forall e, train_loader e <> []) -> val_loader <> [] -> state_ok st ->
  (k + P < E)%nat ->
  (forall j, (j < k)%nat ->
     (epochs_without_improvement (state_after (S j) st).1 < P)%nat) ->
  f_ltb (val_of k st) (best_val_loss (state_after k st).1) = true ->
  (forall i, (i < P)%nat ->
     f_ltb (val_of (k + i) st) (val_of (k + S i) st) = true) ->
  exists hist,
    train train_step eval_loss scheduler_step train_loader val_loader
          (Z.of_nat E) (Z.of_nat P) checkpoint_dir st
    = Ok ((state_after (k + P + 1) st).1, (state_after (k + P + 1) st).2, hist) /\
    h_epochs hist = (length (train_losses st.1) + (k + P + 1))%nat /\
    h_best_val_loss hist = val_of k st.
Proof.
  intros Htrain Hval Hok HE Hreach Himp Hmono.
  pose proof (worsening_counts k P st Htrain Hval Hok Himp Hmono) as Hcount.
  replace (k + P + 1)%nat with (S (k + P)) by lia.
  destruct (state_after_run (S (k + P)) st Htrain Hval Hok)
    as (Hrun & Hoklast & _ & Hlen).
  assert (Hloop :
    train_loop train_step eval_loss scheduler_step train_loader val_loader
      (Z.of_nat P) checkpoint_dir (py_range (Z.of_nat E)) st
    = Ok (state_after (S (k + P)) st)).
  { unfold py_range. rewrite Nat2Z.id.
    apply (train_loop_stops_at (Z.of_nat P) (k + P)); [lia|exact Hrun| |].
    - intros j s' Hj Hs'.
      destruct (state_after_run (S j) st Htrain Hval Hok) as (Hrunj & _).
      rewrite Hrunj in Hs'. injection Hs' as <-.
      rewrite early_stop_counter. apply bool_decide_eq_false_2.
      destruct (decide (j < k)%nat) as [Hlt|Hge].
      + specialize (Hreach j Hlt). lia.
      + replace (S j) with (k + S (j - k))%nat by lia.
        destruct (Hcount (j - k)%nat) as (_ & -> & _); lia.
    - rewrite early_stop_counter. apply bool_decide_eq_true_2.
      replace (S (k + P)) with (k + S P)%nat by lia.
      destruct (Hcount P) as (_ & -> & _); lia. }
  eexists. split.
  - apply (train_keeps_last_epoch _ _ st Htrain Hval Hok _ Hloop Hoklast).
  - simpl. split; [exact Hlen|].
    replace (S (k + P)) with (k + S P)%nat by lia.
    by destruct (Hcount P) as (-> & _).
Qed.

End TrainerFacts.

(** *** A small run

    A model with one parameter, starting at 0.  Every optimisation step
    adds 1 to it; the loss of a batch is the distance of the parameter from
    1.  One training batch and one validation batch per epoch, so the
    validation losses of the epochs are 0, 1, 2, ...: the best epoch is the
    first one, after which the parameter is 1. *)

Definition toy_model : list (string * nat) := [("fc.weight", 0)].

Definition toy_heap : gmap nat Z := {[ 0 := 0%Z ]}.

Definition toy_train_step {F} `{Floating F} (params : list Z) (opt b : unit)
    : list Z * unit * F :=
  (map Z.succ params, tt, f_of_Z 0).

Definition toy_eval_loss {F} `{Floating F} (params : list Z) (b : unit) : F :=
  f_of_Z (Z.abs (hd 0%Z params - 1)).

Definition toy_scheduler_step {F} (opt : unit) (val_loss : F) : unit := tt.

Definition toy_start {F} `{Floating F}
    : Trainer.trainer F unit * Trainer.world Z :=
  (Trainer.init toy_model tt, Trainer.World toy_heap []).

(** The run in binary64 with patience 2 and at most 10 epochs: three epochs
    are run, the best validation loss is epoch 0's, and the parameter that
    [train] leaves in the model is 3, the value after the last epoch; the
    value after the best epoch was 1. *)
Lemma train_example_b64 :
  exists self w hist,
    Trainer.train (F := float) toy_train_step toy_eval_loss toy_scheduler_step
      (fun _ => [tt]) [tt] 10 2 None toy_start = Ok (self, w, hist) /\
    Trainer.h_epochs hist = 3 /\
    Trainer.h_val_losses hist = [0; 1; 2]%float /\
    Trainer.h_best_val_loss hist = 0%float /\
    Trainer.best_model_state self = Some toy_model /\
    Trainer.parameters toy_model (Trainer.heap w) = [3%Z] /\
    Trainer.parameters toy_model
      (Trainer.heap (state_after (F := float) toy_train_step toy_eval_loss
                       toy_scheduler_step (fun _ => [tt]) [tt] None
                       1 toy_start).2) = [1%Z].
Proof.
  eexists _, _, _. split; [vm_compute; reflexivity|].
  vm_compute. repeat split; reflexivity.
Qed.

(** The same run over the extended reals. *)
Section ToyRun.
Import Trainer.
#[local] Open Scope R_scope.

Lemma xreal_div_fin (a b : R) :
  b <> 0 -> Xreal.div (Fin a) (Fin b) = Fin (a / b).
Proof. intros Hb. simpl. by destruct (Req_dec_T b 0). Qed.

Lemma xreal_ltb_fin (a b : R) : a < b -> Xreal.ltb (Fin a) (Fin b) = true.
Proof. intros Hab. simpl. by destruct (Rlt_dec a b). Qed.

Lemma toy_state_ok : state_ok (F := xreal) toy_start.
Proof.
  split; [split|by left]; simpl.
  - repeat constructor. set_solver.
  - repeat constructor. simpl. unfold toy_heap.
    by rewrite lookup_singleton_eq.
Qed.

(** One epoch from a state whose parameter is [j]: the parameter becomes
    [j + 1], and the validation loss is the distance of [j + 1] from 1. *)
Lemma toy_epoch (e : nat) (self : trainer xreal unit) (w : world Z) (j : Z) :
  model self = toy_model -> heap w = {[ 0%nat := j ]} ->
  epoch_val toy_train_step toy_eval_loss (fun _ => [tt]) [tt] e (self, w)
  = Fin (IZR (Z.abs (Z.succ j - 1)) / 1) /\
  exists self' w',
    epoch_body toy_train_step toy_eval_loss toy_scheduler_step
               (fun _ => [tt]) [tt] None e (self, w) = Ok (self', w') /\
    model self' = toy_model /\ heap w' = {[ 0%nat := Z.succ j ]}.
Proof.
  intros Hm Hh.
  assert (Hstep : train_epoch (F := xreal) toy_train_step toy_model [tt]
                    (optimizer self) {[ 0%nat := j ]}
                  = Ok (tt, {[ 0%nat := Z.succ j ]}, Fin ((0 + 0) / 1))).
  { unfold train_epoch. simpl. unfold parameters, update_parameters. simpl.
    rewrite lookup_singleton_eq. simpl. rewrite insert_singleton_eq.
    change (Z.of_nat 1) with 1%Z.
    destruct (Req_dec_T _ _) as [Hz|_]; [lra|done]. }
  assert (Hval : validate (F := xreal) toy_eval_loss toy_model [tt]
                   {[ 0%nat := Z.succ j ]}
                 = Ok (Fin (IZR (Z.abs (Z.succ j - 1)) / 1))).
  { unfold validate. simpl. unfold parameters. simpl.
    rewrite lookup_singleton_eq. simpl.
    change (Z.of_nat 1) with 1%Z.
    destruct (Req_dec_T _ _) as [Hz|_]; [lra|].
    do 2 f_equal. lra. }
  unfold epoch_val, epoch_body. cbn [fst snd]. rewrite Hm, Hh, !Hstep.
  cbn [mbind result_bind]. rewrite !Hval. cbn [mbind result_bind].
  split; [done|].
  destruct (f_ltb _ _); eauto.
Qed.

Lemma toy_state_after (j : nat) :
  model (state_after (F := xreal) toy_train_step toy_eval_loss
           toy_scheduler_step (fun _ => [tt]) [tt] None j toy_start).1
  = toy_model /\
  heap (state_after (F := xreal) toy_train_step toy_eval_loss
          toy_scheduler_step (fun _ => [tt]) [tt] None j toy_start).2
  = {[ 0%nat := Z.of_nat j ]}.
Proof.
  induction j as [|j [IHm IHh]]; [done|].
  pose proof (state_after_S (F := xreal) toy_train_step toy_eval_loss
                toy_scheduler_step (fun _ => [tt]) [tt] None j toy_start
                ltac:(done) ltac:(done) toy_state_ok) as HS.
  destruct (state_after _ _ _ _ _ _ j toy_start) as [self w].
  destruct (toy_epoch j self w (Z.of_nat j) IHm IHh)
    as (_ & self' & w' & Hbody & Hm' & Hh').
  rewrite Hbody in HS. injection HS as <-. simpl.
  split; [done|]. rewrite Hh'. f_equal. lia.
Qed.

Lemma toy_val_of (e : nat) :
  val_of (F := xreal) toy_train_step toy_eval_loss toy_scheduler_step
         (fun _ => [tt]) [tt] None e toy_start
  = Fin (IZR (Z.of_nat e) / 1).
Proof.
  unfold val_of. destruct (toy_state_after e) as [Hm Hh].
  destruct (state_after _ _ _ _ _ _ e toy_start) as [self w].
  destruct (toy_epoch e self w (Z.of_nat e) Hm Hh) as (-> & _).
  do 3 f_equal. lia.
Qed.

End ToyRun.

(** [early_stopping_after_patience] on the small run, with patience 2 and
    at most 10 epochs: epoch 0 improves on the initial infinity, the losses
    then grow, and the run ends after epoch 2. *)
Lemma early_stopping_after_patience_witness :
  exists hist,
    Trainer.train (F := xreal) toy_train_step toy_eval_loss toy_scheduler_step
      (fun _ => [tt]) [tt] 10 2 None toy_start
    = Ok ((state_after (F := xreal) toy_train_step toy_eval_loss
             toy_scheduler_step (fun _ => [tt]) [tt] None 3 toy_start).1,
          (state_after (F := xreal) toy_train_step toy_eval_loss
             toy_scheduler_step (fun _ => [tt]) [tt] None 3 toy_start).2,
          hist) /\
    Trainer.h_epochs hist = 3 /\
    Trainer.h_best_val_loss hist = Fin (0 / 1).
Proof.
  destruct (early_stopping_after_patience (F := xreal) toy_train_step
              toy_eval_loss toy_scheduler_step (fun _ => [tt]) [tt] None
              10 2 0 toy_start) as (hist & Htrain & Hepochs & Hbest).
  - done.
  - done.
  - exact toy_state_ok.
  - lia.
  - intros j Hj. lia.
  - rewrite toy_val_of. reflexivity.
  - intros i Hi. rewrite !toy_val_of. apply xreal_ltb_fin.
    rewrite !Nat.add_0_l, Nat2Z.inj_succ, succ_IZR. lra.
  - exists hist. split; [exact Htrain|]. split; [exact Hepochs|].
    rewrite Hbest, toy_val_of. reflexivity.
Defined.

(** ** Non-finite losses *)

Section NonFiniteLoss.
Context {F : Type} `{Floating F} `{!FloatOrder F}.
Context {tensor batch optim metrics : Type}.
Variable train_step : list tensor -> optim -> batch -> list tensor * optim * F.
Variable eval_loss : list tensor -> batch -> F.
Variable scheduler_step : optim -> F -> optim.
Variable evaluate : list tensor -> list batch -> result metrics.
Import Trainer TrainModel.

(** C4, as the code has it.  A non-finite loss is no error and ends
    nothing by itself.  With non-empty loaders [train] returns normally
    whatever the losses are; an epoch whose validation loss is nan records
    it, keeps the best loss and the snapshot, and counts as one more epoch
    without improvement; and the endpoint goes on to evaluate and, when the
    evaluation returns, publishes the model file, both scaler documents and
    the metadata document. *)
Theorem nonfinite_loss_is_no_error
    (train_loader : nat -> list batch) (val_loader test_loader : list batch)
    (epochs patience : Z) (model_cache_dir symbol : string) (t : model_type)
    (model : list (string * nat)) (opt : optim) (w : world tensor)
    (method_X method_y : string) (M_X M_y : Np.ndarray R)
    (X_normalizer y_normalizer : Normalizer.normalizer)
    (disk : gmap string (gmap string Normalizer.json)) :
  (forall e, train_loader e <> []) -> val_loader <> [] ->
  model_ok model (heap w) ->
  (n0 ← Normalizer.init method_X; Normalizer.fit n0 M_X) = Ok X_normalizer ->
  (n0 ← Normalizer.init method_y; Normalizer.fit n0 M_y) = Ok y_normalizer ->
  (exists out,
     train train_step eval_loss scheduler_step train_loader val_loader
           epochs patience (Some (joinpath model_cache_dir symbol))
           (init model opt, w) = Ok out) /\
  (forall e st, state_ok st ->
     f_isnan (epoch_val train_step eval_loss train_loader val_loader e st) = true ->
     exists st',
       epoch_body train_step eval_loss scheduler_step train_loader val_loader
                  (Some (joinpath model_cache_dir symbol)) e st = Ok st' /\
       val_losses st'.1
       = val_losses st.1
         ++ [epoch_val train_step eval_loss train_loader val_loader e st] /\
       best_val_loss st'.1 = best_val_loss st.1 /\
       best_model_state st'.1 = best_model_state st.1 /\
       epochs_without_improvement st'.1 = S (epochs_without_improvement st.1)) /\
  ((forall params, is_ok (evaluate params test_loader) = true) ->
   exists w' disk' resp,
     train_and_publish train_step eval_loss scheduler_step evaluate
       model_cache_dir symbol t epochs patience model opt
       train_loader val_loader test_loader X_normalizer y_normalizer w disk
     = Ok (w', disk', resp) /\
     let model_dir := joinpath model_cache_dir symbol in
     r_model_path resp = joinpath model_dir (model_file_name t) /\
     Forall (fun path => path ∈ written w')
       [ joinpath model_dir (model_file_name t);
         joinpath model_dir "normalizer_X.json";
         joinpath model_dir "normalizer_y.json";
         joinpath model_dir "metadata.json" ]).
Proof.
  intros Htrain Hval Hmodel HX Hy.
  assert (Hok : state_ok (init (F := F) model opt, w)) by (split; [done|by left]).
  destruct (train_returns train_step eval_loss scheduler_step train_loader
              val_loader (Some (joinpath model_cache_dir symbol))
              epochs patience _ Htrain Hval Hok)
    as (self & w1 & hist & Htr & _).
  split; [eauto|]. split.
  - intros e st Hst Hnan.
    destruct (epoch_body_spec train_step eval_loss scheduler_step train_loader
                val_loader (Some (joinpath model_cache_dir symbol)) e st
                (Htrain e) Hval Hst)
      as (st' & Hbody & _ & _ & Hvals & _ & Hcase).
    rewrite (f_ltb_nan _ _ Hnan) in Hcase.
    destruct Hcase as (Hb & Hc & Hs). exists st'. auto.
  - intros Heval. unfold train_and_publish. rewrite Htr. simpl.
    specialize (Heval (parameters model (heap w1))).
    destruct (evaluate _ test_loader) as [mt|]; [|done]. simpl.
    destruct (save_fitted_returns method_X
                (joinpath (joinpath model_cache_dir symbol) "normalizer_X.json")
                M_X X_normalizer disk HX) as [disk1 ->].
    simpl.
    destruct (save_fitted_returns method_y
                (joinpath (joinpath model_cache_dir symbol) "normalizer_y.json")
                M_y y_normalizer disk1 Hy) as [disk2 ->].
    simpl. eexists _, _, _. split; [reflexivity|]. simpl.
    split; [done|]. repeat constructor; set_solver.
Qed.

End NonFiniteLoss.

(** A predictor whose validation loss is nan from the first epoch on. *)
Definition nan_eval_loss {F} `{Floating F} (params : list Z) (b : unit) : F :=
  f_nan.

Definition toy_evaluate (params : list Z) (test_loader : list unit)
    : result unit :=
  Ok tt.

(** The claim of C4 fails: with a nan validation loss in every epoch the
    run in binary64 raises nothing; it stops on the patience after two
    epochs, returns its history with the nan losses in it, and the endpoint
    publishes all four files of the artifact. *)
Lemma nan_loss_still_publishes :
  exists X_normalizer y_normalizer w disk resp,
    (n0 ← Normalizer.init "standard"; Normalizer.fit n0 scaler_example)
      = Ok X_normalizer /\
    (n0 ← Normalizer.init "standard";
     Normalizer.fit n0 (Np.reshape_column [1; 3]%R)) = Ok y_normalizer /\
    TrainModel.train_and_publish (F := float)
      toy_train_step nan_eval_loss toy_scheduler_step toy_evaluate
      "./models" "BTCUSDT" TrainModel.LSTM 10 2 toy_model tt
      (fun _ => [tt]) [tt] [tt] X_normalizer y_normalizer
      (Trainer.World toy_heap []) ∅
    = Ok (w, disk, resp) /\
    Trainer.h_epochs (TrainModel.r_history resp) = 2 /\
    Trainer.h_val_losses (TrainModel.r_history resp)
    = [PrimFloat.nan; PrimFloat.nan] /\
    Trainer.written w
    = ["./models/BTCUSDT/lstm_model.pt";
       "./models/BTCUSDT/normalizer_X.json";
       "./models/BTCUSDT/normalizer_y.json";
       "./models/BTCUSDT/metadata.json"].
Proof.
  eexists _, _, _, _, _.
  split; [reflexivity|]. split; [reflexivity|]. split; [reflexivity|].
  split; [reflexivity|]. split; reflexivity.
Qed.

(** [nonfinite_loss_is_no_error] for the same predictor over the extended
    reals. *)
Lemma nonfinite_loss_is_no_error_witness :
  exists w' disk' resp X_normalizer y_normalizer,
    TrainModel.train_and_publish (F := xreal)
      toy_train_step nan_eval_loss toy_scheduler_step toy_evaluate
      "./models" "BTCUSDT" TrainModel.LSTM 10 2 toy_model tt
      (fun _ => [tt]) [tt] [tt] X_normalizer y_normalizer
      (Trainer.World toy_heap []) ∅
    = Ok (w', disk', resp) /\
    "./models/BTCUSDT/lstm_model.pt" ∈ Trainer.written w'.
Proof.
  assert (HX : exists n,
    (n0 ← Normalizer.init "standard"; Normalizer.fit n0 scaler_example) = Ok n)
    by (eexists; reflexivity).
  destruct HX as [nX HX].
  destruct (nonfinite_loss_is_no_error (F := xreal)
              toy_train_step nan_eval_loss toy_scheduler_step toy_evaluate
              (fun _ => [tt]) [tt] [tt] 10 2 "./models" "BTCUSDT"
              TrainModel.LSTM toy_model tt (Trainer.World toy_heap [])
              "standard" "standard" scaler_example scaler_example nX nX ∅)
    as (_ & _ & Hpub).
  - done.
  - done.
  - apply toy_state_ok.
  - exact HX.
  - exact HX.
  - destruct Hpub as (w' & disk' & resp & Hrun & _ & Hfiles); [done|].
    exists w', disk', resp, nX, nX. split; [exact Hrun|].
    apply Forall_cons in Hfiles as [Hfile _]. exact Hfile.
Defined.

(** ** Causality of the feature engine *)

Section SeriesPrefix.
Import Pd.
Context {F : Type} `{Floating F}.
Implicit Types (s a b c : list F) (n k w : nat).

Lemma map_take {A B} (f : A -> B) n (l : list A) :
  map f (take n l) = take n (map f l).
Proof. symmetry. apply firstn_map. Qed.

(** The assignment of a list as long as the frame is the plain assignment
    of a column. *)
Lemma setitem_list_ok (name : string) (values : list F) (df : DataFrame F) :
  length values = len df ->
  setitem_list name values df = Ok (setitem name values df).
Proof. intros Hlen. unfold setitem_list. by rewrite decide_True. Qed.

Lemma shift_take k n s : shift k (take n s) = take n (shift k s).
Proof.
  unfold shift. rewrite take_take, length_take, !take_app, take_take.
  f_equal. f_equal. rewrite length_replicate. lia.
Qed.

Lemma binary_take (f : F -> F -> F) n a b :
  zip_with f (take n a) (take n b) = take n (zip_with f a b).
Proof. symmetry. apply zip_with_take. Qed.

Lemma add_take n a b : add (take n a) (take n b) = take n (add a b).
Proof. apply binary_take. Qed.
Lemma sub_take n a b : sub (take n a) (take n b) = take n (sub a b).
Proof. apply binary_take. Qed.
Lemma mul_take n a b : mul (take n a) (take n b) = take n (mul a b).
Proof. apply binary_take. Qed.
Lemma div_take n a b : div (take n a) (take n b) = take n (div a b).
Proof. apply binary_take. Qed.

Lemma diff_take n s : diff (take n s) = take n (diff s).
Proof. unfold diff. by rewrite shift_take, sub_take. Qed.

Lemma ffill_from_take n s prev :
  ffill_from prev (take n s) = take n (ffill_from prev s).
Proof.
  revert n prev. induction s as [|x s IH]; intros [|n] prev; simpl; try done.
  by rewrite IH.
Qed.

Lemma pct_change_take n s : pct_change (take n s) = take n (pct_change s).
Proof.
  unfold pct_change, ffill. cbv zeta.
  by rewrite ffill_from_take, shift_take, div_take, map_take.
Qed.

Lemma rolling_take w (agg : list F -> F) n s :
  rolling w agg (take n s) = take n (rolling w agg s).
Proof.
  unfold rolling. rewrite <- map_take, take_seq, length_take.
  apply map_ext_in. intros i Hi%in_seq.
  destruct (decide (w <= S i)) as [Hw|]; [|done].
  replace (take w (drop (S i - w) (take n s)))
    with (take w (drop (S i - w) s)); [done|].
  rewrite !take_drop_commute. f_equal.
  rewrite take_take. f_equal. lia.
Qed.

Lemma ewm_loop_take n (factor new_wt : F) adjust s weighted old_wt :
  ewm_loop factor new_wt adjust (take n s) weighted old_wt
  = take n (ewm_loop factor new_wt adjust s weighted old_wt).
Proof.
  revert n weighted old_wt.
  induction s as [|x s IH]; intros [|n] weighted old_wt; try done.
  cbn [take ewm_loop firstn].
  destruct (if negb (f_isnan weighted) then _ else _) as [weighted' old_wt'].
  cbn [firstn]. f_equal. apply IH.
Qed.

Lemma ewm_mean_take n com adjust s :
  ewm_mean com adjust (take n s) = take n (ewm_mean com adjust s).
Proof.
  destruct s as [|x s], n as [|n]; try done.
  unfold ewm_mean. cbn [take firstn]. f_equal. apply ewm_loop_take.
Qed.

Lemma ewm_span_take n span adjust s :
  ewm_span span adjust (take n s) = take n (ewm_span span adjust s).
Proof. apply ewm_mean_take. Qed.

Lemma ewm_alpha_take n alpha adjust s :
  ewm_alpha alpha adjust (take n s) = take n (ewm_alpha alpha adjust s).
Proof. apply ewm_mean_take. Qed.

Lemma radd_take n x s : radd x (take n s) = take n (radd x s).
Proof. apply map_take. Qed.
Lemma rsub_take n x s : rsub x (take n s) = take n (rsub x s).
Proof. apply map_take. Qed.
Lemma scale_take n x s : scale x (take n s) = take n (scale x s).
Proof. apply map_take. Qed.
Lemma rdiv_take n x s : rdiv x (take n s) = take n (rdiv x s).
Proof. apply map_take. Qed.
Lemma times_take n x s : times (take n s) x = take n (times s x).
Proof. apply map_take. Qed.
Lemma over_take n x s : over (take n s) x = take n (over s x).
Proof. apply map_take. Qed.
Lemma minus_take n x s : minus (take n s) x = take n (minus s x).
Proof. apply map_take. Qed.
Lemma neg_take n s : neg (take n s) = take n (neg s).
Proof. apply map_take. Qed.
Lemma abs_take n s : abs (take n s) = take n (abs s).
Proof. apply map_take. Qed.
Lemma log_take n s : log (take n s) = take n (log s).
Proof. apply map_take. Qed.
Lemma gt_take n x s : gt (take n s) x = take n (gt s x).
Proof. apply map_take. Qed.
Lemma lt_take n x s : lt (take n s) x = take n (lt s x).
Proof. apply map_take. Qed.

Lemma where_take n (cond : list bool) other s :
  where_ (take n cond) other (take n s) = take n (where_ cond other s).
Proof. symmetry. apply zip_with_take. Qed.

Lemma setmask_take n (cond : list bool) value s :
  setmask (take n cond) value (take n s) = take n (setmask cond value s).
Proof. symmetry. apply zip_with_take. Qed.

Lemma concat_max_take n a b c :
  concat_max (take n a) (take n b) (take n c) = take n (concat_max a b c).
Proof.
  unfold concat_max. rewrite <- zip_with_take. f_equal.
  symmetry. apply zip_with_take.
Qed.

End SeriesPrefix.

Create Rewrite HintDb prefix.
#[export] Hint Rewrite @shift_take @add_take @sub_take @mul_take @div_take
  @diff_take @pct_change_take @rolling_take @ewm_span_take @ewm_alpha_take
  @radd_take @rsub_take @scale_take @rdiv_take @times_take @over_take
  @minus_take @neg_take @abs_take @log_take @gt_take @lt_take @where_take
  @setmask_take @concat_max_take : prefix.

Section FramePrefix.
Import Pd FeatureEngineer.
Context {F : Type} `{Floating F}.
Implicit Types (df d : DataFrame F) (s : list F) (n N : nat).

Lemma getitem_setitem df (name m : string) (v : list F) :
  (df.[name := v]).[m] = if String.eqb name m then v else df.[m].
Proof.
  unfold getitem, setitem. simpl.
  induction (columns df) as [|[k w] cols IH]; simpl; [done|].
  destruct (String.eqb k name) eqn:Hkn; simpl.
  - apply String.eqb_eq in Hkn as ->. by destruct (String.eqb name m).
  - rewrite IH. destruct (String.eqb k m) eqn:Hkm; [|done].
    apply String.eqb_eq in Hkm as ->.
    by rewrite String.eqb_sym, Hkn.
Qed.

Lemma getitem_head n df (name : string) :
  (head n df).[name] = take n df.[name].
Proof.
  unfold getitem, head. simpl.
  induction (columns df) as [|[k w] cols IH]; simpl; [by rewrite take_nil|].
  by destruct (String.eqb k name).
Qed.

Lemma setitem_head n df (name : string) (v : list F) :
  (head n df).[name := take n v] = head n (df.[name := v]).
Proof.
  unfold setitem, head. simpl. f_equal.
  induction (columns df) as [|[k w] cols IH]; simpl; [done|].
  destruct (String.eqb k name); simpl; [done|]. by rewrite IH.
Qed.

(** The part of a frame the on-balance-volume loop relies on. *)
Definition frame_ok N df : Prop :=
  len df = N /\ length df.["close"] = N /\ length df.["volume"] = N.

Definition prefix_of n N (d1 d2 : DataFrame F) : Prop :=
  d1 = head n d2 /\ frame_ok N d2.

Definition prefix_res n N (r1 r2 : result (DataFrame F)) : Prop :=
  match r1, r2 with
  | Ok o1, Ok o2 => prefix_of n N o1 o2
  | _, _ => False
  end.

Lemma prefix_getitem n N d1 d2 (name : string) :
  prefix_of n N d1 d2 -> d1.[name] = take n d2.[name].
Proof. intros [-> _]. apply getitem_head. Qed.

Lemma prefix_setitem n N d1 d2 (name : string) (v1 v2 : list F) :
  String.eqb name "close" = false -> String.eqb name "volume" = false ->
  v1 = take n v2 ->
  prefix_of n N d1 d2 ->
  prefix_of n N (d1.[name := v1]) (d2.[name := v2]).
Proof.
  intros Hc Hv -> [-> (Hlen & Hclose & Hvolume)]. split.
  - apply setitem_head.
  - split; [done|]. by rewrite !getitem_setitem, Hc, Hv.
Qed.

Lemma prefix_foldl {A} n N (step : DataFrame F -> A -> DataFrame F)
    (periods : list A) d1 d2 :
  (forall p x1 x2, In p periods ->
     prefix_of n N x1 x2 -> prefix_of n N (step x1 p) (step x2 p)) ->
  prefix_of n N d1 d2 ->
  prefix_of n N (foldl step d1 periods) (foldl step d2 periods).
Proof.
  revert d1 d2. induction periods as [|p periods IH]; intros d1 d2 Hstep Hrel.
  - exact Hrel.
  - simpl. apply IH.
    + intros q x1 x2 Hq. apply Hstep. by right.
    + apply Hstep; [by left|exact Hrel].
Qed.

End FramePrefix.

Ltac frame_prefix Hrel :=
  rewrite ?(prefix_getitem _ _ _ _ _ Hrel);
  autorewrite with prefix; reflexivity.

Section HelperPrefix.
Import Pd FeatureEngineer.
Context {F : Type} `{Floating F}.
Implicit Types (df d : DataFrame F) (s : list F) (n N : nat).

Lemma _rsi_take n s period : _rsi (take n s) period = take n (_rsi s period).
Proof. unfold _rsi. cbv zeta. autorewrite with prefix. reflexivity. Qed.

Lemma _atr_prefix n N d1 d2 period :
  prefix_of n N d1 d2 -> _atr d1 period = take n (_atr d2 period).
Proof. intros Hrel. unfold _atr. cbv zeta. frame_prefix Hrel. Qed.

Lemma _adx_prefix n N d1 d2 period :
  prefix_of n N d1 d2 -> _adx d1 period = take n (_adx d2 period).
Proof.
  intros Hrel. unfold _adx. cbv zeta.
  rewrite (_atr_prefix _ _ _ _ _ Hrel). frame_prefix Hrel.
Qed.

Lemma _cci_prefix n N d1 d2 period :
  prefix_of n N d1 d2 -> _cci d1 period = take n (_cci d2 period).
Proof. intros Hrel. unfold _cci. cbv zeta. frame_prefix Hrel. Qed.

Lemma _aroon_prefix n N d1 d2 period :
  prefix_of n N d1 d2 ->
  _aroon d1 period
  = (take n (_aroon d2 period).1, take n (_aroon d2 period).2).
Proof.
  intros Hrel. unfold _aroon. cbv zeta. simpl.
  rewrite !(prefix_getitem _ _ _ _ _ Hrel). by rewrite !rolling_take.
Qed.

End HelperPrefix.

#[export] Hint Rewrite @_rsi_take : prefix.

Ltac series_prefix Hrel :=
  rewrite ?(_atr_prefix _ _ _ _ _ Hrel), ?(_adx_prefix _ _ _ _ _ Hrel),
    ?(_cci_prefix _ _ _ _ _ Hrel);
  frame_prefix Hrel.

(** Steps through the [let]s of a stage, keeping one frame variable on
    each side. *)
Ltac prefix_go :=
  cbv beta;
  lazymatch goal with
  | Hrel : prefix_of ?n ?N _ _
    |- ?R (let x := ?a1 in @?b1 x) (let y := ?a2 in @?b2 y) =>
      lazymatch type of a1 with
      | Pd.DataFrame _ =>
          let H' := fresh "Hrel" in
          assert (H' : prefix_of n N a1 a2) by prefix_go;
          change (R (b1 a1) (b2 a2));
          revert H'; generalize a1, a2; clear Hrel;
          let x1 := fresh "d" in let x2 := fresh "d" in
          intros x1 x2 H'; prefix_go
      | _ =>
          let H' := fresh "Hs" in
          assert (H' : a1 = take n a2) by series_prefix Hrel;
          change (R (b1 a1) (b2 a2));
          revert H'; generalize a1, a2;
          let x1 := fresh "s" in let x2 := fresh "s" in
          intros x1 x2 ->; prefix_go
      end
  | Hrel : prefix_of ?n ?N ?d1 ?d2
    |- prefix_of ?n ?N (Pd.setitem _ _ ?d1) (Pd.setitem _ _ ?d2) =>
      apply prefix_setitem;
      [vm_compute; reflexivity | vm_compute; reflexivity
      | series_prefix Hrel | exact Hrel]
  | Hrel : prefix_of ?n ?N _ _
    |- prefix_of ?n ?N (foldl _ _ _) (foldl _ _ _) =>
      apply prefix_foldl; [|exact Hrel];
      let p := fresh "p" in let x1 := fresh "d" in let x2 := fresh "d" in
      let Hin := fresh "Hin" in let H' := fresh "Hrel" in
      clear Hrel; intros p x1 x2 Hin H'; simpl in Hin;
      repeat (destruct Hin as [<-|Hin]); [prefix_go..|destruct Hin]
  | Hrel : prefix_of ?n ?N ?d1 ?d2
    |- context [FeatureEngineer._aroon ?d1 ?p] =>
      rewrite (_aroon_prefix _ _ _ _ p Hrel);
      destruct (FeatureEngineer._aroon d2 p) as [? ?];
      cbv beta iota delta [fst snd]; prefix_go
  | |- prefix_res _ _ (Ok _) (Ok _) => assumption
  | |- prefix_of _ _ _ _ => assumption
  end.

Ltac stage_prefix stage :=
  let Hrel := fresh "Hrel" in
  intros Hrel; cbv delta [stage]; prefix_go.

Section StagePrefix.
Import Pd FeatureEngineer.
Context {F : Type} `{Floating F}.
Implicit Types (df d : DataFrame F) (s : list F) (n N : nat).

Lemma price_features_prefix n N d1 d2 :
  prefix_of n N d1 d2 ->
  prefix_of n N (_compute_price_features d1) (_compute_price_features d2).
Proof. stage_prefix (@_compute_price_features). Qed.

Lemma moving_averages_prefix n N d1 d2 :
  prefix_of n N d1 d2 ->
  prefix_of n N (_compute_moving_averages d1) (_compute_moving_averages d2).
Proof. stage_prefix (@_compute_moving_averages). Qed.

Lemma momentum_indicators_prefix n N d1 d2 :
  prefix_of n N d1 d2 ->
  prefix_of n N (_compute_momentum_indicators d1)
    (_compute_momentum_indicators d2).
Proof. stage_prefix (@_compute_momentum_indicators). Qed.

Lemma volatility_indicators_prefix n N d1 d2 :
  prefix_of n N d1 d2 ->
  prefix_of n N (_compute_volatility_indicators d1)
    (_compute_volatility_indicators d2).
Proof. stage_prefix (@_compute_volatility_indicators). Qed.

Lemma trend_indicators_prefix n N d1 d2 :
  prefix_of n N d1 d2 ->
  prefix_of n N (_compute_trend_indicators d1)
    (_compute_trend_indicators d2).
Proof. stage_prefix (@_compute_trend_indicators). Qed.

End StagePrefix.

Section VolumePrefix.
Import Pd FeatureEngineer.
Context {F : Type} `{Floating F}.
Implicit Types (df d : DataFrame F) (s obv close volume : list F).
Implicit Types (n N : nat) (range : list nat).

Lemma obv_loop_take n close volume range obv :
  Forall (fun i => i < n) range ->
  obv_loop (take n close) (take n volume) range obv
  = obv_loop close volume range obv.
Proof.
  intros Hrange. revert obv.
  induction Hrange as [|i range Hi _ IH]; intros obv; [done|].
  cbn [obv_loop]. unfold iloc.
  rewrite !lookup_take_lt by lia.
  destruct (close !! i) as [ci|]; [|done].
  destruct (close !! (i - 1)) as [cp|]; [|done].
  destruct (last obv) as [prev|]; [|done].
  cbn [mbind result_bind].
  destruct (f_ltb cp ci); [|destruct (f_ltb ci cp)].
  - destruct (volume !! i); [|done]. apply IH.
  - destruct (volume !! i); [|done]. apply IH.
  - apply IH.
Qed.

Lemma obv_loop_ok close volume range obv :
  Forall (fun i => i < length close /\ i < length volume) range ->
  obv <> [] ->
  exists ext,
    obv_loop close volume range obv = Ok (obv ++ ext) /\
    length ext = length range.
Proof.
  intros Hrange. revert obv.
  induction Hrange as [|i range [Hc Hv] _ IH]; intros obv Hobv.
  - exists []. by rewrite app_nil_r.
  - cbn [obv_loop]. unfold iloc.
    destruct (lookup_lt_is_Some_2 close i Hc) as [ci ->].
    destruct (lookup_lt_is_Some_2 close (i - 1)) as [cp ->]; [lia|].
    destruct (lookup_lt_is_Some_2 volume i Hv) as [vi ->].
    destruct (last obv) as [prev|] eqn:Hlast;
      [|by apply last_None in Hlast].
    cbn [mbind result_bind].
    assert (Hnext : forall x, exists ext,
      obv_loop close volume range (obv ++ [x]) = Ok (obv ++ ext) /\
      length ext = S (length range)).
    { intros x. destruct (IH (obv ++ [x])) as (ext & Hrun & Hlen).
      - by destruct obv.
      - exists (x :: ext). rewrite Hrun, <- app_assoc. simpl.
        by rewrite Hlen. }
    destruct (f_ltb cp ci); [|destruct (f_ltb ci cp)]; apply Hnext.
Qed.

Lemma obv_loop_app close volume range1 range2 obv :
  obv_loop close volume (range1 ++ range2) obv
  = (o ← obv_loop close volume range1 obv;
     obv_loop close volume range2 o).
Proof.
  revert obv. induction range1 as [|i range1 IH]; intros obv; [done|].
  cbn [app obv_loop].
  destruct (iloc close i); [|done].
  destruct (iloc close (i - 1)); [|done].
  destruct (match last obv with Some x => Ok x | None => _ end); [|done].
  cbn [mbind result_bind].
  destruct (f_ltb _ _); [|destruct (f_ltb _ _)].
  - destruct (iloc volume i); [|done]. apply IH.
  - destruct (iloc volume i); [|done]. apply IH.
  - apply IH.
Qed.

(** The loop on a frame and on its first [n] rows. *)
Lemma obv_prefix n N close volume :
  0 < n -> 0 < N -> length close = N -> length volume = N ->
  exists obv,
    obv_loop close volume (seq 1 (N - 1)) [f_of_Z 0] = Ok obv /\
    length obv = N /\
    obv_loop (take n close) (take n volume) (seq 1 (n `min` N - 1))
      [f_of_Z 0] = Ok (take n obv).
Proof.
  intros Hn HN Hc Hv.
  set (m := n `min` N).
  assert (Hsplit : seq 1 (N - 1) = seq 1 (m - 1) ++ seq m (N - m)).
  { replace (N - 1) with ((m - 1) + (N - m)) by lia.
    rewrite seq_app. do 2 f_equal; lia. }
  destruct (obv_loop_ok close volume (seq 1 (m - 1)) [f_of_Z 0])
    as (e1 & Hrun1 & Hlen1); [|done|].
  { apply Forall_forall. intros i Hi%elem_of_seq. lia. }
  destruct (obv_loop_ok close volume (seq m (N - m)) ([f_of_Z 0] ++ e1))
    as (e2 & Hrun2 & Hlen2); [|done|].
  { apply Forall_forall. intros i Hi%elem_of_seq. lia. }
  rewrite length_seq in Hlen1, Hlen2.
  exists (([f_of_Z 0] ++ e1) ++ e2). split; [|split].
  - rewrite Hsplit, obv_loop_app, Hrun1. exact Hrun2.
  - rewrite !length_app, Hlen1, Hlen2. simpl. lia.
  - rewrite obv_loop_take, Hrun1.
    + f_equal. rewrite take_app.
      rewrite (take_ge ([f_of_Z 0] ++ e1)) by (simpl; lia).
      assert (Hrest : take (n - length ([f_of_Z 0] ++ e1)) e2 = []).
      { destruct (decide (n <= N)) as [Hle|Hgt].
        - replace (n - length ([f_of_Z 0] ++ e1)) with 0
            by (simpl; lia). done.
        - rewrite (nil_length_inv e2) by lia. apply take_nil. }
      rewrite Hrest. by rewrite app_nil_r.
    + apply Forall_forall. intros i Hi%elem_of_seq. lia.
Qed.

End VolumePrefix.

Section TablePrefix.
Import Pd FeatureEngineer.
Context {F : Type} `{Floating F}.
Implicit Types (df d : DataFrame F) (n N : nat).

Lemma len_head n d : len (head n d) = n `min` len d.
Proof. unfold len, head. simpl. apply length_take. Qed.

Lemma volume_indicators_prefix n N d1 d2 :
  0 < n -> 0 < N ->
  prefix_of n N d1 d2 ->
  prefix_res n N (_compute_volume_indicators d1)
    (_compute_volume_indicators d2).
Proof.
  intros Hn HN Hrel.
  destruct (Hrel) as [Hd1 (Hlen & Hclose & Hvolume)].
  destruct (obv_prefix n N d2.["close"] d2.["volume"] Hn HN Hclose Hvolume)
    as (obv & Hfull & Hobv & Hpre).
  assert (Hrel' : prefix_of n N (d1.["obv" := take n obv]) (d2.["obv" := obv])).
  { by apply prefix_setitem. }
  cbv delta [_compute_volume_indicators]. cbv beta.
  rewrite !(prefix_getitem _ _ _ _ _ Hrel).
  replace (len d1) with (n `min` N) by (by rewrite Hd1, len_head, Hlen).
  rewrite Hlen, Hfull, Hpre.
  cbv beta iota delta [mbind result_bind].
  rewrite (setitem_list_ok "obv" (take n obv) d1),
    (setitem_list_ok "obv" obv d2).
  - cbv beta iota delta [mbind result_bind].
    revert Hrel'. generalize (d1.["obv" := take n obv]), (d2.["obv" := obv]).
    clear. intros x1 x2 Hrel. prefix_go.
  - by rewrite Hobv.
  - rewrite length_take, Hobv, Hd1, len_head, Hlen. done.
Qed.

(** The feature table of the first [n] rows is the first [n] rows of the
    feature table. *)
Lemma feature_table_prefix n N d :
  0 < n -> 0 < N -> frame_ok N d ->
  exists out,
    feature_table d = Ok out /\
    feature_table (head n d) = Ok (head n out) /\
    len out = N.
Proof.
  intros Hn HN Hok.
  assert (Hrel : prefix_of n N (head n d) d) by done.
  apply price_features_prefix, moving_averages_prefix,
    momentum_indicators_prefix, volatility_indicators_prefix in Hrel.
  cbv delta [feature_table]. cbv beta zeta.
  revert Hrel.
  generalize
    (_compute_volatility_indicators
       (_compute_momentum_indicators
          (_compute_moving_averages (_compute_price_features (head n d))))),
    (_compute_volatility_indicators
       (_compute_momentum_indicators
          (_compute_moving_averages (_compute_price_features d)))).
  intros x1 x2 Hrel.
  pose proof (volume_indicators_prefix _ _ _ _ Hn HN Hrel) as Hvol.
  unfold prefix_res in Hvol.
  destruct (_compute_volume_indicators x1) as [o1|]; [|done].
  destruct (_compute_volume_indicators x2) as [o2|]; [|done].
  apply trend_indicators_prefix in Hvol. destruct Hvol as [Hout Hok'].
  exists (_compute_trend_indicators o2).
  cbn [mbind result_bind].
  split; [done|]. split; [by rewrite Hout|]. apply Hok'.
Qed.

End TablePrefix.

Section DropnaFacts.
Import Pd FeatureEngineer.
Context {F : Type} `{Floating F}.
Implicit Types (df d : DataFrame F) (n N i k : nat) (mask : list bool).

(** The position a kept row moves to. *)
Definition kept_before mask i : nat :=
  length (filter (fun b : bool => b = true) (take i mask)).

Lemma select_cons {A} (b : bool) mask (x : A) (s : list A) :
  select (b :: mask) (x :: s)
  = if b then x :: select mask s else select mask s.
Proof.
  unfold select. cbn [zip zip_with]. destruct b.
  - by rewrite filter_cons_True.
  - by rewrite filter_cons_False.
Qed.

Lemma select_nil_r {A} mask : select mask (@nil A) = [].
Proof. by destruct mask. Qed.

Lemma select_lookup {A} mask (s : list A) i :
  mask !! i = Some true -> select mask s !! kept_before mask i = s !! i.
Proof.
  revert s i. induction mask as [|b mask IH]; intros s i Hi; [done|].
  destruct s as [|x s].
  { rewrite select_nil_r. by rewrite !lookup_nil. }
  rewrite select_cons. destruct i as [|i].
  - injection Hi as ->. done.
  - simpl in Hi. unfold kept_before. cbn [take firstn]. destruct b.
    + rewrite filter_cons_True by done. simpl. by apply IH.
    + rewrite filter_cons_False by done. simpl. by apply IH.
Qed.

Lemma select_sublist {A} mask (s : list A) : sublist (select mask s) s.
Proof.
  revert s. induction mask as [|b mask IH]; intros s.
  - apply sublist_nil_l.
  - destruct s as [|x s]; [by rewrite select_nil_r|].
    rewrite select_cons. destruct b.
    + by apply sublist_skip.
    + by apply sublist_cons.
Qed.

Lemma find_select mask k i :
  list_find (fun l => l = i) (select mask (seq k (length mask)))
  = if decide (k <= i) then
      match mask !! (i - k) with
      | Some true => Some (kept_before mask (i - k), i)
      | _ => None
      end
    else None.
Proof.
  revert k. induction mask as [|b mask IH]; intros k.
  - simpl. by destruct (decide (k <= i)).
  - cbn [length seq]. rewrite select_cons.
    destruct (decide (k = i)) as [->|Hne].
    + rewrite decide_True by lia. rewrite Nat.sub_diag. simpl.
      destruct b.
      * simpl. by rewrite decide_True.
      * rewrite IH. by rewrite decide_False by lia.
    + assert (Hrest :
        (if decide (S k <= i) then
           match mask !! (i - S k) with
           | Some true => Some (kept_before mask (i - S k), i)
           | _ => None
           end
         else None)
        = (if decide (k <= i) then
             match (b :: mask) !! (i - k) with
             | Some true =>
                 Some (kept_before (b :: mask) (i - k)
                       - (if b then 1 else 0), i)
             | _ => None
             end
           else None)).
      { destruct (decide (k <= i)) as [Hle|Hgt].
        - rewrite decide_True by lia.
          replace (i - k) with (S (i - S k)) by lia. simpl.
          destruct (mask !! (i - S k)) as [[]|]; try done.
          unfold kept_before. cbn [take firstn]. destruct b.
          + rewrite filter_cons_True by done. simpl. by rewrite Nat.sub_0_r.
          + rewrite filter_cons_False by done. by rewrite Nat.sub_0_r.
        - by rewrite decide_False by lia. }
      destruct b.
      * simpl. rewrite decide_False by done. rewrite IH, Hrest.
        destruct (decide (k <= i)) as [Hle|]; [|done].
        destruct ((true :: mask) !! (i - k)) as [[]|] eqn:Hi; try done.
        simpl. do 2 f_equal.
        replace (i - k) with (S (i - S k)) by lia.
        unfold kept_before. cbn [take firstn].
        rewrite filter_cons_True by done. simpl. lia.
      * rewrite IH, Hrest.
        destruct (decide (k <= i)) as [Hle|]; [|done].
        destruct ((false :: mask) !! (i - k)) as [[]|]; try done.
        by rewrite Nat.sub_0_r.
Qed.

(** The row with label [i] survives [dropna] exactly when it is complete,
    and is then the frame's row [i]. *)
Lemma loc_dropna d N i :
  index d = seq 0 N ->
  loc i (dropna d)
  = if decide (i < N) then
      if notna d i then Some (row_at d i) else None
    else None.
Proof.
  intros Hindex. unfold loc, dropna. cbn [index].
  unfold len. rewrite Hindex, length_seq.
  set (mask := map (notna d) (seq 0 N)).
  assert (Hlen : length mask = N)
    by (unfold mask; by rewrite length_map, length_seq).
  pose proof (find_select mask 0 i) as Hfind.
  rewrite Hlen, decide_True, Nat.sub_0_r in Hfind by lia.
  rewrite Hfind. clear Hfind.
  assert (Hmask :
    mask !! i = if decide (i < N) then Some (notna d i) else None).
  { unfold mask. change (map (notna d) (seq 0 N)) with (notna d <$> seq 0 N).
    rewrite list_lookup_fmap.
    destruct (decide (i < N)) as [Hi|Hi].
    - by rewrite lookup_seq_lt.
    - by rewrite lookup_seq_ge by lia. }
  rewrite Hmask. destruct (decide (i < N)) as [Hi|]; [|done].
  destruct (notna d i) eqn:Hnotna; [|done].
  f_equal. unfold row_at. cbn [timestamp columns].
  assert (Hi' : mask !! i = Some true).
  { exact Hmask. }
  rewrite (select_lookup _ _ _ Hi'). f_equal.
  rewrite map_map. apply map_ext. intros [name v]. simpl.
  by rewrite (select_lookup _ _ _ Hi').
Qed.

Lemma notna_head n d i : i < n -> notna (head n d) i = notna d i.
Proof.
  intros Hi. unfold notna, head. cbn [columns].
  induction (columns d) as [|[name v] cols IH]; [done|].
  simpl. rewrite IH. by rewrite lookup_take_lt.
Qed.

Lemma row_at_head n d i : i < n -> row_at (head n d) i = row_at d i.
Proof.
  intros Hi. unfold row_at, head. cbn [columns timestamp].
  rewrite lookup_take_lt by done. f_equal.
  rewrite map_map. apply map_ext. intros [name v]. simpl.
  by rewrite lookup_take_lt.
Qed.

Lemma of_rows_take n (rows : list (candle F)) :
  head n (of_rows rows) = of_rows (take n rows).
Proof.
  unfold head, of_rows. simpl.
  rewrite take_seq, length_take, <- !map_take. done.
Qed.

Lemma of_rows_ok (rows : list (candle F)) :
  frame_ok (length rows) (of_rows rows).
Proof.
  unfold frame_ok, len, of_rows, getitem. simpl.
  by rewrite length_seq, !length_map.
Qed.

(** Every stage leaves the row labels and the timestamps alone. *)
Definition same_rows d1 d2 : Prop :=
  index d2 = index d1 /\ timestamp d2 = timestamp d1.

Lemma volume_indicators_rows d out :
  index d <> [] ->
  _compute_volume_indicators d = Ok out -> same_rows d out.
Proof.
  unfold _compute_volume_indicators. intros Hne Hrun.
  destruct (obv_loop _ _ _ _) as [obv|]; [|done].
  cbn [mbind result_bind] in Hrun.
  unfold setitem_list in Hrun.
  destruct (decide (length obv = len d)).
  - cbn [mbind result_bind] in Hrun. injection Hrun as <-.
    split; reflexivity.
  - destruct (decide (len d = 0)) as [Hz|]; [|done].
    exfalso. apply Hne. by apply nil_length_inv.
Qed.

Lemma feature_table_rows d out :
  index d <> [] ->
  feature_table d = Ok out -> same_rows d out.
Proof.
  cbv delta [feature_table]. cbv beta zeta. intros Hne Hrun.
  assert (Hpure : same_rows d
    (_compute_volatility_indicators
       (_compute_momentum_indicators
          (_compute_moving_averages (_compute_price_features d)))))
    by (split; reflexivity).
  revert Hrun Hpure.
  generalize
    (_compute_volatility_indicators
       (_compute_momentum_indicators
          (_compute_moving_averages (_compute_price_features d)))).
  intros x Hrun [Hi Ht].
  destruct (_compute_volume_indicators x) as [vol|] eqn:Hvol; [|done].
  cbn [mbind result_bind] in Hrun. injection Hrun as <-.
  apply volume_indicators_rows in Hvol as [Hi' Ht']; [|by rewrite Hi].
  split.
  - rewrite <- Hi, <- Hi'. reflexivity.
  - rewrite <- Ht, <- Ht'. reflexivity.
Qed.

End DropnaFacts.

Section Causality.
Import Pd FeatureEngineer.
Context {F : Type} `{Floating F}.
Implicit Types (candles : list (candle F)) (n N i : nat).

(** Output row [i] of the feature engine: the row labelled [i], if it was
    retained. *)
Definition feature_row i candles
    : result (option (option Z * list (string * option F))) :=
  loc i <$> compute_all_features (of_rows candles).

Lemma select_zip {A B} (mask : list bool) (a : list A) (b : list B) :
  zip (select mask a) (select mask b) = select mask (zip a b).
Proof.
  revert a b. induction mask as [|m mask IH]; intros a b; [done|].
  destruct a as [|x a]; [by rewrite !select_nil_r|].
  destruct b as [|y b].
  { rewrite !select_nil_r. by destruct (select _ _). }
  cbn [zip zip_with]. rewrite !select_cons. destruct m; simpl.
  - f_equal. apply IH.
  - apply IH.
Qed.

Lemma feature_table_of_rows n candles :
  0 < n -> candles <> [] ->
  exists out,
    feature_table (of_rows candles) = Ok out /\
    feature_table (of_rows (take n candles)) = Ok (head n out) /\
    index out = seq 0 (length candles) /\
    timestamp out = map c_timestamp candles.
Proof.
  intros Hn Hne.
  assert (HN : 0 < length candles) by (destruct candles; simpl; [done|lia]).
  destruct (feature_table_prefix n _ _ Hn HN (of_rows_ok candles))
    as (out & Hrun & Hpre & _).
  exists out. rewrite <- of_rows_take. split; [done|]. split; [done|].
  apply feature_table_rows in Hrun as [-> ->]; [done|].
  simpl. by destruct candles.
Qed.

Lemma feature_row_prefix i candles :
  feature_row i (take (S i) candles) = feature_row i candles.
Proof.
  destruct (decide (length candles <= S i)) as [Hshort|Hlong].
  { by rewrite take_ge. }
  assert (Hne : candles <> []) by (intros ->; simpl in Hlong; lia).
  destruct (feature_table_of_rows (S i) candles) as
    (out & Hrun & Hpre & Hindex & _); [lia|done|].
  unfold feature_row, compute_all_features. rewrite Hrun, Hpre.
  cbn [mbind result_bind fmap result_fmap]. f_equal.
  rewrite (loc_dropna out (length candles)) by done.
  rewrite (loc_dropna (head (S i) out) (S i)).
  - rewrite !decide_True by lia.
    by rewrite notna_head, row_at_head by lia.
  - unfold head. cbn [index]. rewrite Hindex, take_seq. f_equal. lia.
Qed.

Lemma features_returned candles :
  candles <> [] ->
  exists out,
    compute_all_features (of_rows candles) = Ok out /\
    sublist (zip (index out) (timestamp out))
            (zip (seq 0 (length candles)) (map c_timestamp candles)).
Proof.
  intros Hne.
  destruct (feature_table_of_rows 1 candles) as
    (out & Hrun & _ & Hindex & Htime); [lia|done|].
  exists (dropna out). unfold compute_all_features. rewrite Hrun.
  split; [done|].
  unfold dropna. cbn [index timestamp].
  rewrite select_zip, Hindex, Htime. apply select_sublist.
Qed.

End Causality.

(** *** A market with a flat stretch

    270 one-minute candles in binary64.  The close moves on a 13-step
    cycle around 106 and the bar spans one unit beyond the open and the
    close, except in rows 215..234, where nothing moves: open, high, low
    and close are all 100. *)

Definition flat (i : nat) : bool := (215 <=? i) && (i <? 235).

Definition close_at (i : nat) : Z :=
  if flat i then 100%Z else (100 + Z.of_nat ((i * 7) mod 13))%Z.

Definition candle_at (i : nat) : Pd.candle float :=
  let c := close_at i in
  let o := if flat i then 100%Z else close_at (i - 1) in
  let hi := if flat i then 100%Z else (Z.max o c + 1)%Z in
  let lo := if flat i then 100%Z else (Z.min o c - 1)%Z in
  Pd.Candle (Z.of_nat i * 60) (B64.of_Z o) (B64.of_Z hi) (B64.of_Z lo)
    (B64.of_Z c) (B64.of_Z (1000 + Z.of_nat ((i * 3) mod 11))).

Definition flat_market : list (Pd.candle float) :=
  map candle_at (seq 0 270).

(** The same market with other prices and volumes from row 250 on. *)
Definition flat_market_perturbed : list (Pd.candle float) :=
  map (fun i =>
         if 250 <=? i then
           Pd.Candle (Z.of_nat i * 60) (B64.of_Z 150) (B64.of_Z 155)
             (B64.of_Z 140) (B64.of_Z (150 + Z.of_nat (i mod 3)))
             (B64.of_Z 5000)
         else candle_at i)
      (seq 0 270).

(** Causality: two candle inputs that agree on rows 0..i (whatever
    follows, and however many rows follow) give the same output row [i] of
    [compute_all_features], be it dropped in both or retained with the same
    values in both; this holds for any arithmetic.
    Order: on a non-empty input the engine returns, and its retained rows,
    as (label, timestamp) pairs, are a subsequence of the input rows in
    input order.  They need not be contiguous. *)
Theorem features_causal_ordered {F : Type} `{Floating F}
    (candles1 candles2 : list (Pd.candle F)) (i : nat) :
  take (S i) candles1 = take (S i) candles2 ->
  feature_row i candles1 = feature_row i candles2 /\
  (candles1 <> [] ->
   exists out,
     FeatureEngineer.compute_all_features (Pd.of_rows candles1) = Ok out /\
     sublist (zip (Pd.index out) (Pd.timestamp out))
             (zip (seq 0 (length candles1))
                  (map Pd.c_timestamp candles1))).
Proof.
  intros Hagree. split.
  - rewrite <- (feature_row_prefix i candles1), Hagree.
    apply feature_row_prefix.
  - apply features_returned.
Qed.

(** The two markets agree up to row 240 and beyond, and row 240 of the
    features is the same for both. *)
Lemma features_causal_ordered_witness :
  take 241 flat_market = take 241 flat_market_perturbed /\
  feature_row 240 flat_market = feature_row 240 flat_market_perturbed.
Proof.
  assert (Hagree : take 241 flat_market = take 241 flat_market_perturbed)
    by (vm_compute; reflexivity).
  split; [exact Hagree|].
  exact (proj1 (features_causal_ordered flat_market flat_market_perturbed
                  240 Hagree)).
Defined.

(** The retained rows need not be contiguous: on the flat market they
    are 199..221 and 237..269.  In rows 222..236 the seven-row average gain and
    loss are both zero, so the relative strength is 0/0, and the fourteen-row
    high and low coincide, so the stochastic oscillator is 0/0; [dropna]
    removes these rows from the middle of the table. *)
Lemma retained_rows_not_contiguous :
  Pd.index <$> FeatureEngineer.compute_all_features (Pd.of_rows flat_market)
  = Ok (seq 199 23 ++ seq 237 33).
Proof. vm_compute. reflexivity. Qed.

Section RetainedRows.
Import Pd FeatureEngineer.
Context {F : Type} `{Floating F}.

Lemma pure_stages_rows (df : DataFrame F) :
  same_rows df
    (_compute_volatility_indicators
       (_compute_momentum_indicators
          (_compute_moving_averages (_compute_price_features df)))).
Proof. split; reflexivity. Qed.

(** What [dropna] retains.  On a non-empty input the feature table has one
    row per candle, and output row [i] exists exactly when [i] is a row of
    the table in which no column is undefined; it then carries the label
    [i] and the table's values of that row, unchanged. *)
Theorem retained_rows_are_the_complete_rows (candles : list (candle F)) :
  candles <> [] ->
  exists table,
    feature_table (of_rows candles) = Ok table /\
    len table = length candles /\
    forall i,
      feature_row i candles
      = Ok (if decide (i < length candles) then
              if notna table i then Some (row_at table i) else None
            else None).
Proof.
  intros Hne.
  destruct (feature_table_of_rows 1 candles) as
    (table & Hrun & _ & Hindex & _); [lia|done|].
  exists table. split; [done|]. split.
  - unfold len. by rewrite Hindex, length_seq.
  - intros i. unfold feature_row, compute_all_features. rewrite Hrun.
    cbn [mbind result_bind fmap result_fmap]. f_equal.
    by apply loc_dropna.
Qed.

(** A frame without rows gives a table without rows, and no error.  The
    on-balance-volume list always starts with one entry; assigned to the
    empty frame it makes it a frame of one row whose other columns are
    undefined, the later columns are computed on that row, and the final
    [dropna] removes it.  The result has the five value columns and the 45
    feature columns, all empty; with the timestamp column that is a table
    of 51 columns and no rows. *)
Theorem no_rows_gives_no_rows :
  f_isnan (f_nan : F) = true ->
  exists out,
    compute_all_features (of_rows []) = Ok out /\
    index out = [] /\ timestamp out = [] /\
    length (columns out) = 50 /\
    Forall (fun cv : string * list F => cv.2 = []) (columns out).
Proof.
  intros Hnan. eexists. split.
  - cbv - [f_isnan f_nan f_of_Z f_inf f_add f_sub f_mul f_div f_neg f_abs
           f_sqrt f_log f_ltb].
    rewrite Hnan. reflexivity.
  - cbv. repeat split. repeat constructor.
Qed.

End RetainedRows.

Lemma retained_rows_are_the_complete_rows_witness :
  flat_market <> [] /\
  exists table,
    FeatureEngineer.feature_table (Pd.of_rows flat_market) = Ok table /\
    Pd.len table = length flat_market /\
    forall i,
      feature_row i flat_market
      = Ok (if decide (i < length flat_market) then
              if Pd.notna table i then Some (Pd.row_at table i) else None
            else None).
Proof.
  assert (Hne : flat_market <> []) by done.
  split; [exact Hne|].
  exact (retained_rows_are_the_complete_rows flat_market Hne).
Defined.

Lemma no_rows_gives_no_rows_witness :
  f_isnan (f_nan : float) = true /\
  exists out,
    FeatureEngineer.compute_all_features (Pd.of_rows (F := float) [])
    = Ok out /\
    Pd.index out = [] /\ length (Pd.columns out) = 50.
Proof.
  assert (Hnan : f_isnan (f_nan : float) = true) by reflexivity.
  split; [exact Hnan|].
  destruct (no_rows_gives_no_rows (F := float) Hnan)
    as (out & Hrun & Hindex & _ & Hcols & _).
  exists out. split; [exact Hrun|]. split; [exact Hindex|exact Hcols].
Defined.
(** ** Exponential smoothing in closed form

    The two conventions, stated over the reals as the specification words
    them: the recursive average with smoothing factor [alpha], and the
    average with the weights [(1 - alpha)^k] normalised by their sum. *)

Module Smoothing.
#[local] Open Scope R_scope.

Fixpoint recursive_from (alpha y : R) (xs : list R) : list R :=
  match xs with
  | [] => []
  | x :: rest =>
      let y' := (1 - alpha) * y + alpha * x in
      y' :: recursive_from alpha y' rest
  end.

(** [y_0 = x_0], [y_t = (1 - alpha) y_(t-1) + alpha x_t]. *)
Definition recursive (alpha : R) (xs : list R) : list R :=
  match xs with
  | [] => []
  | x :: rest => x :: recursive_from alpha x rest
  end.

Fixpoint normalised_from (alpha num den : R) (xs : list R) : list R :=
  match xs with
  | [] => []
  | x :: rest =>
      let num' := (1 - alpha) * num + x in
      let den' := (1 - alpha) * den + 1 in
      num' / den' :: normalised_from alpha num' den' rest
  end.

(** [y_t = (sum_k (1 - alpha)^k x_(t-k)) / (sum_k (1 - alpha)^k)]. *)
Definition normalised (alpha : R) (xs : list R) : list R :=
  match xs with
  | [] => []
  | x :: rest => x :: normalised_from alpha x 1 rest
  end.

End Smoothing.

Section SmoothingFacts.
Import Pd.
#[local] Open Scope R_scope.

Lemma xreal_div_finite (a b : R) : b <> 0 -> Xreal.div (Fin a) (Fin b) = Fin (a / b).
Proof. intros Hb. simpl. by destruct (Req_dec_T b 0). Qed.

Lemma ne_fin_same (a : R) : ne (F := xreal) (Fin a) (Fin a) = false.
Proof.
  unfold ne. simpl. destruct (Rlt_dec a a) as [Hlt|_]; [lra|done].
Qed.

Lemma ne_fin_diff (a b : R) : a <> b -> ne (F := xreal) (Fin a) (Fin b) = true.
Proof.
  intros Hab. unfold ne. simpl.
  destruct (Rlt_dec a b), (Rlt_dec b a); simpl; try done. lra.
Qed.

(** One step of the smoothing loop on numbers, without weight
    adjustment. *)
Lemma ewm_loop_recursive (alpha : R) (xs : list R) (y : R) :
  ewm_loop (F := xreal) (Fin (1 - alpha)) (Fin alpha) false
    (map Fin xs) (Fin y) (Fin 1)
  = map Fin (Smoothing.recursive_from alpha y xs).
Proof.
  revert y. induction xs as [|x xs IH]; intros y; [done|].
  cbn [map ewm_loop Smoothing.recursive_from].
  change (f_isnan (Fin y)) with false. change (f_isnan (Fin x)) with false.
  cbn [negb].
  change (f_mul (Fin 1) (Fin (1 - alpha))) with (Fin (1 * (1 - alpha))).
  assert (Hstep :
    (if ne (Fin y) (Fin x)
     then f_div (f_add (f_mul (Fin (1 * (1 - alpha))) (Fin y))
                       (f_mul (Fin alpha) (Fin x)))
                (f_add (Fin (1 * (1 - alpha))) (Fin alpha))
     else Fin y) = Fin ((1 - alpha) * y + alpha * x)).
  { destruct (Req_dec_T y x) as [->|Hne].
    - rewrite ne_fin_same. f_equal. lra.
    - rewrite ne_fin_diff by done.
      change (Xreal.div (Fin (1 * (1 - alpha) * y + alpha * x))
                        (Fin (1 * (1 - alpha) + alpha))
              = Fin ((1 - alpha) * y + alpha * x)).
      rewrite xreal_div_finite by lra. f_equal. field. lra. }
  rewrite Hstep. f_equal. apply IH.
Qed.

Lemma ewm_loop_normalised (alpha : R) (xs : list R) (num den : R) :
  0 <= 1 - alpha -> 1 <= den ->
  ewm_loop (F := xreal) (Fin (1 - alpha)) (Fin 1) true
    (map Fin xs) (Fin (num / den)) (Fin den)
  = map Fin (Smoothing.normalised_from alpha num den xs).
Proof.
  intros Halpha. revert num den.
  induction xs as [|x xs IH]; intros num den Hden; [done|].
  cbn [map ewm_loop Smoothing.normalised_from].
  change (f_isnan (Fin (num / den))) with false.
  change (f_isnan (Fin x)) with false. cbn [negb].
  change (f_mul (Fin den) (Fin (1 - alpha))) with (Fin (den * (1 - alpha))).
  change (f_add (Fin (den * (1 - alpha))) (Fin 1))
    with (Fin (den * (1 - alpha) + 1)).
  assert (Hden' : 1 <= (1 - alpha) * den + 1) by nra.
  assert (Hstep :
    (if ne (Fin (num / den)) (Fin x)
     then f_div (f_add (f_mul (Fin (den * (1 - alpha))) (Fin (num / den)))
                       (f_mul (Fin 1) (Fin x)))
                (Fin (den * (1 - alpha) + 1))
     else Fin (num / den))
    = Fin (((1 - alpha) * num + x) / ((1 - alpha) * den + 1))).
  { destruct (Req_dec_T (num / den) x) as [Heq|Hne].
    - rewrite Heq, ne_fin_same. f_equal. rewrite <- Heq. field. lra.
    - rewrite ne_fin_diff by done.
      change (Xreal.div (Fin (den * (1 - alpha) * (num / den) + 1 * x))
                        (Fin (den * (1 - alpha) + 1))
              = Fin (((1 - alpha) * num + x) / ((1 - alpha) * den + 1))).
      rewrite xreal_div_finite by lra. f_equal. field. lra. }
  rewrite Hstep.
  replace (den * (1 - alpha) + 1) with ((1 - alpha) * den + 1) by lra.
  f_equal. apply IH. exact Hden'.
Qed.

(** [ewm(com=com)] on numbers, for a centre of mass that is not negative. *)
Lemma ewm_mean_recursive (com : R) (xs : list R) :
  0 <= com ->
  ewm_mean (F := xreal) (Fin com) false (map Fin xs)
  = map Fin (Smoothing.recursive (1 / (1 + com)) xs).
Proof.
  intros Hcom. destruct xs as [|x xs]; [done|].
  unfold ewm_mean. cbn [map Smoothing.recursive].
  change (f_add (f_of_Z 1) (Fin com)) with (Fin (1 + com)).
  change (f_div (f_of_Z 1) (Fin (1 + com)))
    with (Xreal.div (Fin 1) (Fin (1 + com))).
  rewrite xreal_div_finite by lra.
  change (f_sub (f_of_Z 1) (Fin (1 / (1 + com))))
    with (Fin (1 + - (1 / (1 + com)))).
  change (f_of_Z 1) with (Fin 1). f_equal.
  apply ewm_loop_recursive.
Qed.

Lemma ewm_mean_normalised (com : R) (xs : list R) :
  0 <= com ->
  ewm_mean (F := xreal) (Fin com) true (map Fin xs)
  = map Fin (Smoothing.normalised (1 / (1 + com)) xs).
Proof.
  intros Hcom. destruct xs as [|x xs]; [done|].
  unfold ewm_mean. cbn [map Smoothing.normalised].
  change (f_add (f_of_Z 1) (Fin com)) with (Fin (1 + com)).
  change (f_div (f_of_Z 1) (Fin (1 + com)))
    with (Xreal.div (Fin 1) (Fin (1 + com))).
  rewrite xreal_div_finite by lra.
  change (f_sub (f_of_Z 1) (Fin (1 / (1 + com))))
    with (Fin (1 - 1 / (1 + com))).
  change (f_of_Z 1) with (Fin 1). f_equal.
  replace (Fin x) with (Fin (x / 1)) at 1 by (f_equal; field).
  apply ewm_loop_normalised; [|lra].
  assert (Hinv : 1 / (1 + com) <= 1); [|lra].
  apply (Rmult_le_reg_r (1 + com)); [lra|].
  replace (1 / (1 + com) * (1 + com)) with 1 by (field; lra). lra.
Qed.

End SmoothingFacts.


Section LeadingUndefined.
Import Pd.

(** Undefined entries at the start of a series are passed through, and
    the smoothing starts at the first defined one. *)
Lemma ewm_loop_from_undefined (factor new_wt : xreal) adjust (s : list xreal) :
  ewm_loop factor new_wt adjust s XNaN (f_of_Z 1)
  = match s with
    | [] => []
    | x :: rest => x :: ewm_loop factor new_wt adjust rest x (f_of_Z 1)
    end.
Proof. destruct s as [|[| | |] rest]; reflexivity. Qed.

Lemma ewm_mean_leading_undefined (com : xreal) adjust k (s : list xreal) :
  ewm_mean com adjust (replicate k XNaN ++ s)
  = replicate k XNaN ++ ewm_mean com adjust s.
Proof.
  induction k as [|k IH]; [done|].
  cbn [replicate app]. rewrite <- IH.
  unfold ewm_mean at 1. cbv zeta.
  rewrite ewm_loop_from_undefined. reflexivity.
Qed.

End LeadingUndefined.

(** Reads a column back through one assignment. *)
Ltac frame_step :=
  rewrite getitem_setitem;
  match goal with
  | |- context [String.eqb ?a ?b] =>
      let r := eval vm_compute in (String.eqb a b) in
      change (String.eqb a b) with r; cbv iota
  end.

Section EngineSmoothing.
Import Pd FeatureEngineer.
#[local] Open Scope R_scope.

Lemma com_of_span_real (period : nat) :
  (1 <= period)%nat ->
  com_of_span (F := xreal) (Z.of_nat period) = Fin ((INR period - 1) / 2) /\
  0 <= (INR period - 1) / 2 /\
  1 / (1 + (INR period - 1) / 2) = 2 / (INR period + 1).
Proof.
  intros Hp. assert (1 <= INR period) by (apply (le_INR 1); lia).
  split; [|split].
  - unfold com_of_span.
    change (f_sub (f_of_Z (Z.of_nat period)) (f_of_Z 1))
      with (Fin (IZR (Z.of_nat period) + - IZR 1)).
    change (f_of_Z 2) with (Fin 2).
    change (f_div ?a ?b) with (Xreal.div a b).
    rewrite xreal_div_finite by lra. rewrite <- INR_IZR_INZ. done.
  - apply Rmult_le_pos; [lra|]. apply Rlt_le, Rinv_0_lt_compat. lra.
  - field. lra.
Qed.

Lemma ewm_span_recursive (period : nat) (k : nat) (xs : list R) :
  (1 <= period)%nat ->
  ewm_span (Z.of_nat period) false (replicate k XNaN ++ map Fin xs)
  = replicate k XNaN
    ++ map Fin (Smoothing.recursive (2 / (INR period + 1)) xs).
Proof.
  intros Hp. destruct (com_of_span_real period Hp) as (Hcom & Hpos & Halpha).
  unfold ewm_span. rewrite Hcom, ewm_mean_leading_undefined.
  by rewrite ewm_mean_recursive, Halpha.
Qed.

Lemma sub_finite (xs ys : list R) :
  sub (map Fin xs) (map Fin ys) = map Fin (zip_with Rminus xs ys).
Proof.
  revert ys. induction xs as [|x xs IH]; intros [|y ys]; try done.
  unfold sub in *. simpl. by rewrite IH.
Qed.

(** The exponential moving averages of the engine follow the recursive
    convention with smoothing factor [2 / (period + 1)]: on finite closes
    the five [ema_] columns, the two averages inside the MACD and the MACD
    signal line are [y_0 = x_0], [y_t = (1 - a) y_(t-1) + a x_t]. *)
Theorem ema_columns_are_recursive (df : DataFrame xreal) (closes : list R) :
  df.["close"] = map Fin closes ->
  (forall period, In period [7; 20; 50; 100; 200]%nat ->
     (_compute_moving_averages df).[fname "ema_" period]
     = map Fin (Smoothing.recursive (2 / (INR period + 1)) closes)) /\
  let macd :=
    zip_with Rminus (Smoothing.recursive (2 / (INR 12 + 1)) closes)
                    (Smoothing.recursive (2 / (INR 26 + 1)) closes) in
  (_compute_momentum_indicators df).["macd"] = map Fin macd /\
  (_compute_momentum_indicators df).["macd_signal"]
  = map Fin (Smoothing.recursive (2 / (INR 9 + 1)) macd).
Proof.
  intros Hclose.
  assert (Hspan : forall period, (1 <= period)%nat ->
    ewm_span (Z.of_nat period) false (map Fin closes)
    = map Fin (Smoothing.recursive (2 / (INR period + 1)) closes))
    by (intros period Hp; apply (ewm_span_recursive period 0 closes Hp)).
  split.
  - intros period Hin. simpl in Hin.
    repeat (destruct Hin as [<-|Hin]); [..|destruct Hin];
      (rewrite <- Hspan, <- Hclose by lia;
       unfold _compute_moving_averages; cbn [foldl]; cbv zeta;
       repeat frame_step; reflexivity).
  - cbv zeta. split.
    + rewrite <- sub_finite, <- !Hspan, <- Hclose by lia.
      unfold _compute_momentum_indicators. cbv zeta.
      repeat frame_step. reflexivity.
    + pose proof (ewm_span_recursive 9 0) as Hsignal. simpl in Hsignal.
      rewrite <- Hsignal, <- sub_finite, <- !Hspan, <- Hclose by lia.
      unfold _compute_momentum_indicators. cbv zeta.
      repeat frame_step. reflexivity.
Qed.

End EngineSmoothing.

(** Three candles over the reals, closing at 1, 2 and 4. *)
Definition three_candles : list (Pd.candle xreal) :=
  map (fun c : R => Pd.Candle 0 (Fin c) (Fin c) (Fin c) (Fin c) (Fin 1))
      [1; 2; 4]%R.

Lemma ema_columns_are_recursive_witness :
  Pd.getitem "close" (Pd.of_rows three_candles) = map Fin [1; 2; 4]%R /\
  Pd.getitem "ema_7"
    (FeatureEngineer._compute_moving_averages (Pd.of_rows three_candles))
  = map Fin (Smoothing.recursive (2 / (INR 7 + 1)) [1; 2; 4]%R).
Proof.
  assert (Hclose :
    Pd.getitem "close" (Pd.of_rows three_candles) = map Fin [1; 2; 4]%R)
    by reflexivity.
  split; [exact Hclose|].
  destruct (ema_columns_are_recursive (Pd.of_rows three_candles)
              [1; 2; 4]%R Hclose) as [Hema _].
  apply (Hema 7%nat). simpl. by left.
Defined.

(** ** WindowBuilder: other horizons and bad columns *)

Section WindowBuilderHorizon.
Context {A T : Type}.
Variable float_tensor : A -> T.
Import Np WindowBuilder.
Implicit Types (data : ndarray A) (X : list (list (list A))).
Implicit Types (y : list (target A)).

(** A column slice of rows that all have the column. *)
Lemma getslice_col_ok data lo hi tc :
  wf data -> tc < ncols data ->
  exists l,
    getslice_col data lo hi tc = Ok l /\
    Forall2 (fun row a => row !! tc = Some a) (getslice data lo hi) l.
Proof.
  intros Hwf Htc. unfold getslice_col.
  destruct (decide (tc < ncols data)); [|lia].
  assert (Hrows : Forall (fun row => length row = ncols data)
                         (getslice data lo hi)).
  { unfold getslice. apply Forall_take, Forall_drop, Hwf. }
  revert Hrows. generalize (getslice data lo hi). intros slice.
  induction slice as [|row rest IH]; intros Hrows.
  - exists []. split; [done|constructor].
  - apply Forall_cons in Hrows as [Hrow Hrest].
    destruct (IH Hrest) as (vals & Hvals & Hall).
    destruct (lookup_lt_is_Some_2 row tc ltac:(lia)) as [a Ha].
    exists (a :: vals). split.
    + cbn [mapM]. rewrite Ha. cbn [mbind result_bind]. rewrite Hvals. done.
    + by constructor.
Qed.

Lemma create_sequences_loop_steps data L tc H idx X y :
  H <> 1 -> wf data -> tc < ncols data ->
  exists X' y',
    create_sequences_loop data L tc H idx X y = Ok (X ++ X', y ++ y') /\
    X' = map (fun i => getslice data i (i + L)) idx /\
    Forall2 (fun i t => exists l,
               t = Steps l /\
               Forall2 (fun row a => row !! tc = Some a)
                       (getslice data (i + L) (i + L + H)) l) idx y'.
Proof.
  intros HH Hwf Htc. revert X y.
  induction idx as [|i idx IH]; intros X y.
  - exists [], []. simpl. rewrite !app_nil_r. auto.
  - destruct (getslice_col_ok data (i + L) (i + L + H) tc Hwf Htc)
      as (l & Hl & Hall).
    destruct (IH (X ++ [getslice data i (i + L)]) (y ++ [Steps l]))
      as (X' & y' & Heq & HX & Hy).
    exists (getslice data i (i + L) :: X'), (Steps l :: y').
    split; [|split].
    + simpl. destruct (decide (H = 1)); [done|].
      rewrite Hl. simpl. rewrite Heq. by rewrite <- !app_assoc.
    + simpl. by rewrite HX.
    + constructor; eauto.
Qed.

(** With a horizon other than 1 a matrix of [N] rows and sequence length
    [L] yields [max(0, N - L - H + 1)] pairs; window [i] is rows
    [i .. i+L-1] and target [i] is the target column of the [H] rows that
    follow it, both converted entry by entry to float32.  A matrix with
    fewer than [L + H] rows yields the empty result and no error, whatever
    the target column. *)
Theorem create_sequences_multi_step data (L tc H : nat) :
  H <> 1 ->
  (len data < L + H ->
   create_sequences float_tensor data L tc H = Ok ([], [])) /\
  (wf data -> tc < ncols data ->
   exists (X : list (list (list T))) (y : list (target T)),
     create_sequences float_tensor data L tc H = Ok (X, y) /\
     Z.of_nat (length X)
     = Z.max 0 (Z.of_nat (len data) - Z.of_nat L - Z.of_nat H + 1) /\
     length y = length X /\
     forall i, i + L + H <= len data ->
       X !! i
       = Some (map (map float_tensor) (take L (drop i (rows data)))) /\
       exists l,
         y !! i = Some (Steps (map float_tensor l)) /\ length l = H /\
         Forall2 (fun row a => row !! tc = Some a)
                 (take H (drop (i + L) (rows data))) l).
Proof.
  intros HH. split.
  - intros Hsmall. unfold create_sequences, py_range.
    replace (Z.to_nat _) with 0 by lia. reflexivity.
  - intros Hwf Htc.
    set (n := len data + 1 - L - H).
    assert (Hrange :
      py_range (Z.of_nat (len data) - Z.of_nat L - Z.of_nat H + 1)
      = seq 0 n).
    { unfold py_range. f_equal. lia. }
    destruct (create_sequences_loop_steps data L tc H (seq 0 n) [] [] HH Hwf Htc)
      as (X & y & Heq & HX & Hy).
    simpl in Heq.
    assert (HlenX : length X = n) by (subst X; by rewrite length_map, length_seq).
    assert (Hleny : length y = n).
    { apply Forall2_length in Hy. by rewrite length_seq in Hy. }
    exists (map (map (map float_tensor)) X), (map (target_map float_tensor) y).
    unfold create_sequences. rewrite Hrange, Heq.
    split; [reflexivity|]. rewrite !length_map.
    split; [lia|]. split; [congruence|].
    intros i Hi. assert (Hin : i < n) by lia. split.
    + subst X. rewrite !list_lookup_fmap, lookup_seq_lt by done. simpl.
      unfold getslice. do 3 f_equal. lia.
    + destruct (lookup_lt_is_Some_2 y i ltac:(lia)) as [t Ht].
      destruct (Forall2_lookup_r _ _ _ _ _ Hy Ht) as (j & Hj & l & -> & Hl).
      apply lookup_seq in Hj as [-> _]. simpl in Hl.
      unfold getslice in Hl.
      replace (i + L + H - (i + L)) with H in Hl by lia.
      exists l. split; [by rewrite list_lookup_fmap, Ht|]. split; [|done].
      apply Forall2_length in Hl. rewrite <- Hl.
      rewrite length_take, length_drop. unfold len in Hi. lia.
Qed.

(** A target column outside the matrix is an [IndexError] as soon as there
    is one window to build, and goes unnoticed when there is none. *)
Theorem create_sequences_bad_column data (L tc H : nat) :
  ncols data <= tc ->
  create_sequences float_tensor data L tc H
  = if decide (L + H <= len data) then Raise IndexError else Ok ([], []).
Proof.
  intros Htc. unfold create_sequences, py_range.
  destruct (decide (L + H <= len data)) as [Hle|Hgt].
  - assert (Hn : Z.to_nat (Z.of_nat (len data) - Z.of_nat L - Z.of_nat H + 1)
                 = S (len data - L - H)). by lia.
    rewrite Hn. cbn [seq create_sequences_loop].
    destruct (decide (H = 1)).
    + unfold getitem. destruct (decide (tc < ncols data)); [lia|done].
    + unfold getslice_col. destruct (decide (tc < ncols data)); [lia|done].
  - replace (Z.to_nat _) with 0 by lia. reflexivity.
Qed.

End WindowBuilderHorizon.

Lemma create_sequences_multi_step_witness :
  2 <> 1 /\ Np.wf window_example /\ 0 < Np.ncols window_example /\
  exists X y,
    WindowBuilder.create_sequences B32.of_float window_example 1 0 2
    = Ok (X, y) /\
    Z.of_nat (length X) = 2%Z /\
    X !! 1 = Some [[2; 20]]%float.
Proof.
  assert (HH : 2 <> 1) by lia.
  assert (Hwf : Np.wf window_example) by (repeat constructor).
  assert (Hc : 0 < Np.ncols window_example) by (simpl; lia).
  split; [exact HH|]. split; [exact Hwf|]. split; [exact Hc|].
  destruct (proj2 (create_sequences_multi_step B32.of_float window_example
                     1 0 2 HH) Hwf Hc)
    as (X & y & Heq & HlenX & _ & Hall).
  exists X, y. split; [exact Heq|]. split; [exact HlenX|].
  destruct (Hall 1 ltac:(unfold Np.len; simpl; lia)) as [HX _].
  rewrite HX. vm_compute. reflexivity.
Defined.

Lemma create_sequences_bad_column_witness :
  Np.ncols window_example <= 5 /\
  WindowBuilder.create_sequences B32.of_float window_example 2 5 1
  = Raise IndexError.
Proof.
  assert (Hc : Np.ncols window_example <= 5) by (simpl; lia).
  split; [exact Hc|].
  exact (create_sequences_bad_column B32.of_float window_example 2 5 1 Hc).
Defined.

(** ** Scaler: transform and its inverse *)

Ltac lookup_attr :=
  repeat first
    [ rewrite lookup_insert_eq
    | rewrite lookup_insert_ne by done
    | rewrite lookup_empty ].

Section NormalizerRoundTrip.
Import Np Normalizer.
#[local] Open Scope R_scope.

Lemma zip_with_undo (f g : R -> R -> R) (P : R -> Prop) (row v : list R) :
  Forall P v -> (forall x y, P y -> g (f x y) y = x) ->
  (length row <= length v)%nat ->
  zip_with g (zip_with f row v) v = row.
Proof.
  intros Hv Hfg. revert row.
  induction Hv as [|y v Hy _ IH]; intros [|x row] Hlen; simpl in *;
    try done; try lia.
  rewrite Hfg by done. f_equal. apply IH. lia.
Qed.

Lemma check_array_ok (X : ndarray R) :
  len X <> 0%nat -> ncols X <> 0%nat -> check_array X = Ok ().
Proof.
  intros Hlen Hcols. unfold check_array.
  destruct (Nat.eqb_spec (len X) 0); [done|].
  by destruct (Nat.eqb_spec (ncols X) 0).
Qed.

Lemma inplace_ok (op : R -> R -> R) (X : ndarray R) (v : list R) :
  length v = ncols X ->
  inplace op X v
  = Ok (NdArray (ncols X) (map (fun row => zip_with op row v) (rows X))).
Proof.
  intros Hv. unfold inplace, broadcast.
  by rewrite (proj2 (Nat.eqb_eq _ _) Hv).
Qed.

(** An in-place operation and the one that undoes it. *)
Lemma inplace_undo (f g : R -> R -> R) (P : R -> Prop) (X : ndarray R)
    (v : list R) :
  wf X -> length v = ncols X -> Forall P v ->
  (forall x y, P y -> g (f x y) y = x) ->
  exists Y,
    inplace f X v = Ok Y /\ inplace g Y v = Ok X /\
    wf Y /\ ncols Y = ncols X /\ len Y = len X.
Proof.
  intros Hwf Hv HP Hfg. eexists. split; [by apply inplace_ok|].
  split; [|split; [|split]].
  - rewrite inplace_ok by done. simpl. destruct X as [k rws]. simpl in *.
    do 2 f_equal. rewrite map_map. rewrite <- (map_id rws) at 2.
    apply map_ext_in. intros row Hrow.
    apply (zip_with_undo f g P); [done..|].
    unfold wf in Hwf. simpl in Hwf. rewrite List.Forall_forall in Hwf.
    rewrite (Hwf row Hrow). lia.
  - unfold wf. simpl. apply Forall_map. simpl.
    eapply Forall_impl; [exact Hwf|]. intros row Hrow. simpl.
    rewrite length_zip_with. simpl in *. rewrite Hrow, Hv. lia.
  - done.
  - unfold len. simpl. by rewrite length_map.
Qed.

Lemma check_array_inv (X : ndarray R) :
  check_array X = Ok () -> len X <> 0%nat /\ ncols X <> 0%nat.
Proof.
  unfold check_array.
  destruct (Nat.eqb_spec (len X) 0); [done|].
  by destruct (Nat.eqb_spec (ncols X) 0).
Qed.

Lemma check_is_fitted_ok (sk : sk_scaler) :
  is_Some (n_features_in_ sk) -> check_is_fitted sk = Ok ().
Proof.
  intros Hn. unfold check_is_fitted.
  rewrite (bool_decide_eq_true_2 _ Hn). simpl. by rewrite andb_false_r.
Qed.

Lemma handle_zeros_nonzero (s : R) : handle_zeros_in_scale s <> 0.
Proof. unfold handle_zeros_in_scale. destruct (Req_dec_T s 0); lra. Qed.

Lemma undo_sub (x y : R) : True -> x - y + y = x.
Proof. intros _. lra. Qed.

Lemma undo_div (x y : R) : y <> 0 -> x / y * y = x.
Proof. intros Hy. field. exact Hy. Qed.

Lemma undo_mul (x y : R) : y <> 0 -> x * y / y = x.
Proof. intros Hy. field. exact Hy. Qed.

Lemma undo_add (x y : R) : True -> x + y - y = x.
Proof. intros _. lra. Qed.

(** [transform] followed by [inverse_transform] gives the input back, for
    each of the three methods: over the reals the round trip is exact.
    The input is any non-empty matrix with the column count of the matrix
    the scaler was fitted on. *)
Theorem inverse_transform_undoes_transform (m : string) (M X : ndarray R)
    (n : normalizer) :
  (n0 ← init m; fit n0 M) = Ok n ->
  wf X -> ncols X = ncols M -> len X <> 0%nat ->
  exists Y, transform n X = Ok Y /\ inverse_transform n Y = Ok X.
Proof.
  unfold init, _create_scaler. intros Hfit HwfX Hcols Hlen.
  destruct (String.eqb m "standard") eqn:E1;
    [|destruct (String.eqb m "minmax") eqn:E2;
      [|destruct (String.eqb m "robust") eqn:E3; [|done]]];
    simpl in Hfit;
    apply fit_fresh in Hfit as (sk & Hsk & -> & Hc & Hn);
    unfold sk_fit in Hsk;
    destruct (check_array M) as [[]|] eqn:HM; try done;
    apply check_array_inv in HM as [HlenM HcolsM];
    simpl in Hsk; injection Hsk as <-;
    unfold transform, inverse_transform, sk_transform, sk_inverse_transform,
      check_n_features, get_attr;
    cbn [is_fitted negb scaler sk_class attrs n_features_in_];
    rewrite check_is_fitted_ok by (simpl; eauto);
    rewrite (check_array_ok X) by lia;
    rewrite (proj2 (Nat.eqb_eq _ _) Hcols);
    cbn [mbind result_bind]; lookup_attr; cbn [mbind result_bind].
  - destruct (inplace_undo Rminus Rplus (fun _ => True) X
                (map np_mean (columns M)) HwfX)
      as (Y1 & H1 & H1' & Hwf1 & Hc1 & Hl1);
      [by rewrite length_map, columns_length|by apply Forall_true
      |exact undo_sub|].
    destruct (inplace_undo Rdiv Rmult (fun y => y <> 0) Y1
                (map (fun c => handle_zeros_in_scale (np_std c)) (columns M))
                Hwf1)
      as (Y2 & H2 & H2' & Hwf2 & Hc2 & Hl2);
      [rewrite length_map, columns_length; lia
      |apply Forall_map, Forall_true; intros c; apply handle_zeros_nonzero
      |exact undo_div|].
    exists Y2. rewrite H1. cbn [mbind result_bind]. split; [exact H2|].
    rewrite (check_array_ok Y2) by lia. cbn [mbind result_bind].
    rewrite H2'. cbn [mbind result_bind]. exact H1'.
  - set (scale := map (fun r => (1 - 0) / handle_zeros_in_scale r)
                     (zip_with Rminus (map np_max (columns M))
                                      (map np_min (columns M)))).
    set (mins := zip_with (fun lo s => 0 - lo * s)
                          (map np_min (columns M)) scale).
    assert (Hscale : length scale = ncols M).
    { unfold scale.
      by rewrite length_map, length_zip_with, !length_map, columns_length,
        Nat.min_id. }
    destruct (inplace_undo Rmult Rdiv (fun y => y <> 0) X scale HwfX)
      as (Y1 & H1 & H1' & Hwf1 & Hc1 & Hl1); [lia| |exact undo_mul|].
    { apply Forall_map, Forall_true. intros r Hz.
      pose proof (Rinv_neq_0_compat _ (handle_zeros_nonzero r)) as Hr.
      unfold Rdiv in Hz. apply Rmult_integral in Hz as [Hz|Hz]; [lra|done]. }
    destruct (inplace_undo Rplus Rminus (fun _ => True) Y1 mins Hwf1)
      as (Y2 & H2 & H2' & Hwf2 & Hc2 & Hl2);
      [|by apply Forall_true|exact undo_add|].
    { unfold mins. rewrite length_zip_with, length_map, columns_length. lia. }
    exists Y2. rewrite H1. cbn [mbind result_bind]. split; [exact H2|].
    rewrite (check_array_ok Y2) by lia. cbn [mbind result_bind].
    rewrite H2'. cbn [mbind result_bind]. exact H1'.
  - destruct (inplace_undo Rminus Rplus (fun _ => True) X
                (map median (columns M)) HwfX)
      as (Y1 & H1 & H1' & Hwf1 & Hc1 & Hl1);
      [by rewrite length_map, columns_length|by apply Forall_true
      |exact undo_sub|].
    destruct (inplace_undo Rdiv Rmult (fun y => y <> 0) Y1
                (map (fun c => handle_zeros_in_scale
                                 (percentile c 75 - percentile c 25))
                     (columns M))
                Hwf1)
      as (Y2 & H2 & H2' & Hwf2 & Hc2 & Hl2);
      [rewrite length_map, columns_length; lia
      |apply Forall_map, Forall_true; intros c; apply handle_zeros_nonzero
      |exact undo_div|].
    exists Y2. rewrite H1. cbn [mbind result_bind]. split; [exact H2|].
    rewrite (check_array_ok Y2) by lia. cbn [mbind result_bind].
    rewrite H2'. cbn [mbind result_bind]. exact H1'.
Qed.

End NormalizerRoundTrip.

Lemma inverse_transform_undoes_transform_witness :
  exists n Y,
    (n0 ← Normalizer.init "minmax"; Normalizer.fit n0 scaler_example) = Ok n /\
    Np.wf scaler_example /\
    Np.len scaler_example <> 0 /\
    Normalizer.transform n scaler_example = Ok Y /\
    Normalizer.inverse_transform n Y = Ok scaler_example.
Proof.
  assert (Hfit : exists n,
    (n0 ← Normalizer.init "minmax"; Normalizer.fit n0 scaler_example) = Ok n)
    by (eexists; reflexivity).
  destruct Hfit as [n Hfit].
  assert (Hwf : Np.wf scaler_example) by (repeat constructor).
  assert (Hlen : Np.len scaler_example <> 0) by done.
  destruct (inverse_transform_undoes_transform "minmax" scaler_example
              scaler_example n Hfit Hwf eq_refl Hlen) as (Y & HY & Hback).
  exists n, Y. done.
Defined.

Section NormalizerErrors.
Import Np Normalizer.


(** The three method names are the only ones. *)
Theorem unknown_method_is_refused (m : string) :
  m <> "standard" -> m <> "minmax" -> m <> "robust" ->
  init m = Raise (ValueError ("Unknown normalization method: " +:+ m)).
Proof.
  intros H1 H2 H3. unfold init, _create_scaler.
  by rewrite (proj2 (String.eqb_neq _ _) H1), (proj2 (String.eqb_neq _ _) H2),
    (proj2 (String.eqb_neq _ _) H3).
Qed.

(** Shape validation comes from the scaler underneath: fitting on a matrix
    without rows is a [ValueError], and so is transforming a matrix whose
    column count differs from the fitted one. *)
Theorem shape_is_validated (m : string) (n0 : normalizer) (M X : ndarray R) :
  init m = Ok n0 ->
  (len M = 0 -> exists msg, fit n0 M = Raise (ValueError msg)) /\
  (forall n, fit n0 M = Ok n ->
     len X <> 0 -> ncols X <> 0 -> ncols X <> ncols M ->
     exists msg, transform n X = Raise (ValueError msg)).
Proof.
  intros Hinit. split.
  - intros Hlen. unfold fit, sk_fit, check_array. rewrite Hlen. simpl. eauto.
  - intros n Hfit HlenX HcolsX Hne.
    unfold init, _create_scaler in Hinit.
    destruct (String.eqb m "standard");
      [|destruct (String.eqb m "minmax");
        [|destruct (String.eqb m "robust"); [|done]]];
      simpl in Hinit; injection Hinit as <-;
      apply fit_fresh in Hfit as (sk & _ & -> & _ & Hn);
      unfold transform, sk_transform, check_n_features; simpl;
      rewrite check_is_fitted_ok by (rewrite Hn; eauto);
      rewrite check_array_ok by done; rewrite Hn; simpl;
      rewrite (proj2 (Nat.eqb_neq _ _) Hne); simpl; eauto.
Qed.

End NormalizerErrors.

Section NormalizerDocument.
Import Np Normalizer.

(** A loaded normalizer saves to the document it was loaded from. *)
Theorem load_then_save_same_document (m path path' : string) (M : ndarray R)
    (n : normalizer) (disk : gmap string (gmap string json)) :
  (n0 ← init m; fit n0 M) = Ok n ->
  exists disk1 n' disk2,
    save n path disk = Ok disk1 /\
    load path disk1 = Ok n' /\
    save n' path' disk1 = Ok disk2 /\
    disk2 !! path' = disk1 !! path.
Proof.
  unfold init, _create_scaler.
  destruct (String.eqb m "standard") eqn:E1;
    [|destruct (String.eqb m "minmax") eqn:E2;
      [|destruct (String.eqb m "robust") eqn:E3; [|done]]];
    simpl; intros Hfit;
    apply fit_fresh in Hfit as (sk & Hsk & -> & Hc & Hn);
    unfold sk_fit in Hsk; destruct (check_array M); try done;
    simpl in Hsk; injection Hsk as <-;
    first [ apply String.eqb_eq in E1 | apply String.eqb_eq in E2
          | apply String.eqb_eq in E3 ];
    subst m;
    unfold save, load, put_attr, get_attr, init, _create_scaler,
           set_attr, set_n_features, get_array, getitem;
    simpl; lookup_attr; simpl;
    (eexists; eexists; eexists; split; [reflexivity|]);
    repeat (progress (lookup_attr; simpl));
    (split; [reflexivity|]);
    repeat (progress (lookup_attr; simpl));
    (split; [reflexivity|]);
    rewrite ?lookup_insert_eq; reflexivity.
Qed.

End NormalizerDocument.


Lemma unknown_method_is_refused_witness :
  "zscore" <> "standard" /\ "zscore" <> "minmax" /\ "zscore" <> "robust" /\
  Normalizer.init "zscore"
  = Raise (ValueError "Unknown normalization method: zscore").
Proof.
  assert (H1 : "zscore" <> "standard") by done.
  assert (H2 : "zscore" <> "minmax") by done.
  assert (H3 : "zscore" <> "robust") by done.
  split; [exact H1|]. split; [exact H2|]. split; [exact H3|].
  exact (unknown_method_is_refused "zscore" H1 H2 H3).
Defined.

(** A scaler fitted on two columns refuses a matrix of one column. *)
Lemma shape_is_validated_witness :
  exists n0 n msg,
    Normalizer.init "standard" = Ok n0 /\
    Normalizer.fit n0 scaler_example = Ok n /\
    Normalizer.transform n (Np.NdArray 1 [[5%R]]) = Raise (ValueError msg).
Proof.
  assert (Hinit : exists n0, Normalizer.init "standard" = Ok n0)
    by (eexists; reflexivity).
  destruct Hinit as [n0 Hinit].
  assert (Hfit : exists n, Normalizer.fit n0 scaler_example = Ok n).
  { injection Hinit as <-. eexists. reflexivity. }
  destruct Hfit as [n Hfit].
  destruct (proj2 (shape_is_validated "standard" n0 scaler_example
                     (Np.NdArray 1 [[5%R]]) Hinit) n Hfit)
    as [msg Hmsg]; [done|done|done|].
  exists n0, n, msg. done.
Defined.

Lemma load_then_save_same_document_witness :
  exists n disk1 n' disk2,
    (n0 ← Normalizer.init "minmax"; Normalizer.fit n0 scaler_example) = Ok n /\
    Normalizer.save n "a.json" ∅ = Ok disk1 /\
    Normalizer.load "a.json" disk1 = Ok n' /\
    Normalizer.save n' "b.json" disk1 = Ok disk2 /\
    disk2 !! "b.json" = disk1 !! "a.json".
Proof.
  assert (Hfit : exists n,
    (n0 ← Normalizer.init "minmax"; Normalizer.fit n0 scaler_example) = Ok n)
    by (eexists; reflexivity).
  destruct Hfit as [n Hfit].
  destruct (load_then_save_same_document "minmax" "a.json" "b.json"
              scaler_example n ∅ Hfit) as (disk1 & n' & disk2 & H).
  exists n, disk1, n', disk2. done.
Defined.

(** ** TrainingController: edge cases and the history *)

Section TrainerEdges.
Context {F : Type} `{Floating F}.
Context {tensor batch optim : Type}.
Variable train_step : list tensor -> optim -> batch -> list tensor * optim * F.
Variable eval_loss : list tensor -> batch -> F.
Variable scheduler_step : optim -> F -> optim.
Variable train_loader : nat -> list batch.
Variable val_loader : list batch.
Variable checkpoint_dir : option string.
Import Trainer.

Implicit Types (self : trainer F optim) (w : world tensor)
  (st : trainer F optim * world tensor) (h : gmap nat tensor)
  (model : list (string * nat)).

Lemma py_range_pos (n : Z) :
  (0 < n)%Z -> py_range n = 0 :: seq 1 (Z.to_nat n - 1).
Proof.
  intros Hn. unfold py_range.
  replace (Z.to_nat n) with (S (Z.to_nat n - 1)) at 1 by lia. done.
Qed.

(** An empty loader is not reported as missing data: the first epoch
    divides the summed loss by a batch count of zero. *)
Theorem empty_loader_is_zero_division (epochs patience : Z) st :
  (0 < epochs)%Z ->
  train_loader 0 = [] \/ val_loader = [] ->
  train train_step eval_loss scheduler_step train_loader val_loader
        epochs patience checkpoint_dir st
  = Raise ZeroDivisionError.
Proof.
  intros Hepochs Hempty. unfold train. rewrite py_range_pos by done.
  cbn [train_loop]. destruct st as [self w]. unfold epoch_body.
  destruct (train_loader 0) as [|b loader] eqn:Htrain.
  - reflexivity.
  - destruct Hempty as [|Hval]; [done|].
    destruct (train_epoch_returns train_step (model self) (b :: loader)
                (optimizer self) (heap w)) as (opt' & h' & loss & -> & _);
      [done|].
    rewrite Hval. reflexivity.
Qed.

(** With no epoch to run, [train] returns at once: nothing is trained,
    nothing is written, and the history is empty with an infinite best
    loss. *)
Theorem no_epochs_trains_nothing (epochs patience : Z) model
    (opt : optim) w :
  (epochs <= 0)%Z ->
  train train_step eval_loss scheduler_step train_loader val_loader
        epochs patience checkpoint_dir (init model opt, w)
  = Ok (init model opt, w,
        {| h_epochs := 0; h_best_val_loss := f_inf;
           h_train_losses := []; h_val_losses := [] |}).
Proof.
  intros Hepochs. unfold train, py_range.
  replace (Z.to_nat epochs) with 0 by lia. simpl. by destruct w.
Qed.

(** What the recorded losses say about the best loss. *)
Definition history_ok self : Prop :=
  length (train_losses self) = length (val_losses self) /\
  Forall (fun v => f_ltb v (best_val_loss self) = false) (val_losses self) /\
  (best_val_loss self = f_inf \/ best_val_loss self ∈ val_losses self).

Lemma epoch_keeps_history `{!FloatOrder F} (epoch : nat) st st' :
  train_loader epoch <> [] -> val_loader <> [] -> state_ok st ->
  history_ok st.1 ->
  epoch_body train_step eval_loss scheduler_step train_loader val_loader
             checkpoint_dir epoch st = Ok st' ->
  state_ok st' /\ history_ok st'.1 /\
  length (val_losses st'.1) = S (length (val_losses st.1)).
Proof.
  intros Htrain Hval Hok (Hlen & Hleast & Hbest) Hrun.
  destruct (epoch_body_spec train_step eval_loss scheduler_step train_loader
              val_loader checkpoint_dir epoch st Htrain Hval Hok)
    as (s & Hs & Hok' & _ & Hvals & Hlent & Hcase).
  rewrite Hrun in Hs. injection Hs as <-.
  split; [done|]. split.
  - assert (Hleast' :
      Forall (fun v => f_ltb v (best_val_loss st'.1) = false)
             (val_losses st'.1) /\
      (best_val_loss st'.1 = f_inf \/
       best_val_loss st'.1 ∈ val_losses st'.1)).
    { rewrite Hvals.
      destruct (f_ltb (epoch_val train_step eval_loss train_loader val_loader
                         epoch st) (best_val_loss st.1)) eqn:Hlt.
      - destruct Hcase as (-> & _). split.
        + apply Forall_app. split.
          * eapply Forall_impl; [exact Hleast|]. intros v Hv. simpl in Hv.
            destruct (f_ltb v (epoch_val _ _ _ _ _ _)) eqn:Hvlt; [|done].
            by rewrite (f_ltb_trans _ _ _ Hvlt Hlt) in Hv.
          * constructor; [|constructor].
            match goal with
            | |- f_ltb ?a ?b = false => destruct (f_ltb a b) eqn:Hself
            end; [|done].
            by rewrite (f_ltb_asym _ _ Hself) in Hself.
        + right. apply elem_of_app. right. constructor.
      - destruct Hcase as (-> & _). split.
        + apply Forall_app. split; [done|]. by constructor.
        + destruct Hbest as [Hinf|Hin]; [by left|right; by apply elem_of_app; left]. }
    destruct Hleast' as [Hl' Hb'].
    split; [|by split].
    rewrite Hvals, length_app. simpl. lia.
  - rewrite Hvals, length_app. simpl. lia.
Qed.

Lemma train_loop_keeps_history `{!FloatOrder F} (patience : Z)
    (epochs : list nat) st s :
  (forall e, train_loader e <> []) -> val_loader <> [] -> state_ok st ->
  history_ok st.1 ->
  train_loop train_step eval_loss scheduler_step train_loader val_loader
             patience checkpoint_dir epochs st = Ok s ->
  state_ok s /\ history_ok s.1 /\
  length (val_losses s.1) <= length (val_losses st.1) + length epochs.
Proof.
  intros Htrain Hval. revert st.
  induction epochs as [|e epochs IH]; intros st Hok Hhist Hrun; simpl in *.
  - injection Hrun as <-. split; [done|]. split; [done|]. lia.
  - destruct (epoch_body _ _ _ _ _ _ e st) as [s1|] eqn:Hbody; [|done].
    simpl in Hrun.
    destruct (epoch_keeps_history e st s1 (Htrain e) Hval Hok Hhist Hbody)
      as (Hok1 & Hhist1 & Hlen1).
    destruct (early_stop patience s1.1).
    + injection Hrun as <-. split; [done|]. split; [done|]. lia.
    + destruct (IH s1 Hok1 Hhist1 Hrun) as (Hs & Hh & Hl).
      split; [done|]. split; [done|]. lia.
Qed.

(** The history [train] returns from a fresh trainer: one training and one
    validation loss per epoch run, at most [epochs] of them, no recorded
    validation loss below the reported best one, and the best one is a
    recorded loss unless it is still the initial infinity. *)
Theorem history_is_consistent `{!FloatOrder F} (epochs patience : Z) model
    (opt : optim) w :
  (forall e, train_loader e <> []) -> val_loader <> [] ->
  model_ok model (heap w) ->
  exists self w' hist,
    train train_step eval_loss scheduler_step train_loader val_loader
          epochs patience checkpoint_dir (init model opt, w)
    = Ok (self, w', hist) /\
    h_epochs hist = length (h_val_losses hist) /\
    length (h_train_losses hist) = length (h_val_losses hist) /\
    (Z.of_nat (h_epochs hist) <= Z.max 0 epochs)%Z /\
    Forall (fun v => f_ltb v (h_best_val_loss hist) = false)
           (h_val_losses hist) /\
    (h_best_val_loss hist = f_inf \/
     h_best_val_loss hist ∈ h_val_losses hist).
Proof.
  intros Htrain Hval Hmodel.
  assert (Hok : state_ok (init model opt, w)) by (split; [done|by left]).
  assert (Hhist : history_ok (init model opt, w).1).
  { split; [done|]. split; [constructor|by left]. }
  destruct (train_loop_returns train_step eval_loss scheduler_step
              train_loader val_loader checkpoint_dir patience
              (py_range epochs) _ Htrain Hval Hok) as (s & Hloop & Hs & _).
  destruct (train_loop_keeps_history patience (py_range epochs) _ s
              Htrain Hval Hok Hhist Hloop) as (_ & (Hlen & Hleast & Hbest) & Hcount).
  exists s.1, s.2. eexists. split.
  - apply (train_keeps_last_epoch train_step eval_loss scheduler_step
             train_loader val_loader checkpoint_dir epochs patience _
             Htrain Hval Hok s Hloop Hs).
  - simpl. split; [done|]. split; [done|]. split; [|done].
    simpl in Hcount. unfold py_range in Hcount.
    rewrite length_seq in Hcount. lia.
Qed.

(** The path [train] saves its checkpoints to. *)
Definition checkpoint_paths (k : nat) : list string :=
  match checkpoint_dir with
  | Some dir => replicate k (dir +:+ "/best_model.pt")
  | None => []
  end.

(** The best loss after a sequence of validation losses, and the number of
    them that were strictly below the best loss before them. *)
Definition best_after (best : F) (losses : list F) : F :=
  foldl (fun b v => if f_ltb v b then v else b) best losses.

Fixpoint improvements (best : F) (losses : list F) : nat :=
  match losses with
  | [] => 0
  | v :: rest =>
      if f_ltb v best then S (improvements v rest)
      else improvements best rest
  end.

Lemma improvements_app (best : F) (l1 l2 : list F) :
  improvements best (l1 ++ l2)
  = improvements best l1 + improvements (best_after best l1) l2.
Proof.
  revert best. induction l1 as [|v l1 IH]; intros best; [done|].
  simpl. destruct (f_ltb v best); rewrite IH; done.
Qed.

Lemma improvements_length (best : F) (l : list F) :
  improvements best l <= length l.
Proof.
  revert best. induction l as [|v l IH]; intros best; [done|].
  simpl. destruct (f_ltb v best).
  - specialize (IH v). lia.
  - specialize (IH best). lia.
Qed.

Lemma checkpoint_paths_add (j k : nat) :
  checkpoint_paths j ++ checkpoint_paths k = checkpoint_paths (j + k).
Proof.
  unfold checkpoint_paths. destruct checkpoint_dir; [|done].
  by rewrite replicate_add.
Qed.

Lemma epoch_body_written (epoch : nat) st st' :
  epoch_body train_step eval_loss scheduler_step train_loader val_loader
             checkpoint_dir epoch st = Ok st' ->
  exists v,
    val_losses st'.1 = val_losses st.1 ++ [v] /\
    best_val_loss st'.1 = best_after (best_val_loss st.1) [v] /\
    written st'.2
    = written st.2 ++ checkpoint_paths (improvements (best_val_loss st.1) [v]).
Proof.
  destruct st as [self w]. unfold epoch_body.
  destruct (train_epoch _ _ _ _ _) as [[[opt h] loss]|]; [|done].
  cbn [mbind result_bind].
  destruct (validate _ _ _ _) as [v|]; [|done].
  cbn [mbind result_bind]. intros Hrun. exists v. simpl.
  destruct (f_ltb v (best_val_loss self)); injection Hrun as <-; simpl.
  - split; [done|]. split; [done|]. unfold checkpoint_paths.
    destruct checkpoint_dir; [done|by rewrite app_nil_r].
  - split; [done|]. split; [done|]. unfold checkpoint_paths.
    destruct checkpoint_dir; by rewrite app_nil_r.
Qed.

Lemma train_loop_written (patience : Z) (epochs : list nat) st s :
  train_loop train_step eval_loss scheduler_step train_loader val_loader
             patience checkpoint_dir epochs st = Ok s ->
  exists new,
    val_losses s.1 = val_losses st.1 ++ new /\
    best_val_loss s.1 = best_after (best_val_loss st.1) new /\
    length new <= length epochs /\
    written s.2
    = written st.2 ++ checkpoint_paths (improvements (best_val_loss st.1) new).
Proof.
  revert st. induction epochs as [|e epochs IH]; intros st Hrun; simpl in *.
  - injection Hrun as <-. exists []. simpl. rewrite app_nil_r.
    split; [done|]. split; [done|]. split; [lia|].
    unfold checkpoint_paths. destruct checkpoint_dir; by rewrite app_nil_r.
  - destruct (epoch_body _ _ _ _ _ _ e st) as [s1|] eqn:Hbody; [|done].
    simpl in Hrun.
    destruct (epoch_body_written e st s1 Hbody) as (v & Hv1 & Hb1 & Hw1).
    destruct (early_stop patience s1.1).
    + injection Hrun as <-. exists [v]. simpl in *.
      split; [done|]. split; [done|]. split; [lia|done].
    + destruct (IH s1 Hrun) as (new & Hv & Hb & Hlen & Hw).
      exists (v :: new). split; [|split; [|split]].
      * rewrite Hv, Hv1, <- app_assoc. done.
      * rewrite Hb, Hb1. done.
      * simpl. lia.
      * rewrite Hw, Hw1, <- app_assoc, checkpoint_paths_add, Hb1.
        change (v :: new) with ([v] ++ new).
        by rewrite improvements_app.
Qed.

(** The only file [train] writes is the checkpoint of the best model, to
    one fixed path under the checkpoint directory: one copy for every epoch
    of the run whose validation loss is strictly below the best loss
    before it, and none for any other epoch; without a checkpoint
    directory it writes nothing. *)
Theorem train_writes_only_checkpoints (epochs patience : Z) st self w hist :
  train train_step eval_loss scheduler_step train_loader val_loader
        epochs patience checkpoint_dir st = Ok (self, w, hist) ->
  exists new,
    h_val_losses hist = val_losses st.1 ++ new /\
    (Z.of_nat (length new) <= Z.max 0 epochs)%Z /\
    written w
    = written st.2
      ++ checkpoint_paths (improvements (best_val_loss st.1) new) /\
    improvements (best_val_loss st.1) new <= length new.
Proof.
  unfold train. intros Hrun.
  destruct (train_loop _ _ _ _ _ _ _ _ st) as [[self' w']|] eqn:Hloop;
    [|done].
  cbn [mbind result_bind] in Hrun.
  destruct (restore_best self' (heap w')) as [h|]; [|done].
  cbn [mbind result_bind] in Hrun. injection Hrun as <- <- <-.
  destruct (train_loop_written patience _ st _ Hloop)
    as (new & Hv & _ & Hlen & Hw).
  exists new. simpl in *. split; [exact Hv|]. split.
  - unfold py_range in Hlen. rewrite length_seq in Hlen. lia.
  - split; [exact Hw|]. apply improvements_length.
Qed.

End TrainerEdges.

Lemma empty_loader_is_zero_division_witness :
  (0 < 10)%Z /\
  Trainer.train (F := float) toy_train_step toy_eval_loss toy_scheduler_step
    (fun _ => [tt]) [] 10 2 None toy_start
  = Raise ZeroDivisionError.
Proof.
  assert (Hpos : (0 < 10)%Z) by lia.
  split; [exact Hpos|].
  apply (empty_loader_is_zero_division (F := float) toy_train_step
           toy_eval_loss toy_scheduler_step (fun _ => [tt]) [] None 10 2
           toy_start Hpos).
  by right.
Defined.

Lemma no_epochs_trains_nothing_witness :
  (0 <= 0)%Z /\
  Trainer.train (F := float) toy_train_step toy_eval_loss toy_scheduler_step
    (fun _ => [tt]) [tt] 0 2 None (Trainer.init toy_model tt,
                                    Trainer.World toy_heap [])
  = Ok (Trainer.init toy_model tt, Trainer.World toy_heap [],
        {| Trainer.h_epochs := 0; Trainer.h_best_val_loss := f_inf;
           Trainer.h_train_losses := []; Trainer.h_val_losses := [] |}).
Proof.
  assert (Hz : (0 <= 0)%Z) by lia.
  split; [exact Hz|].
  exact (no_epochs_trains_nothing (F := float) toy_train_step toy_eval_loss
           toy_scheduler_step (fun _ => [tt]) [tt] None 0 2 toy_model tt
           (Trainer.World toy_heap []) Hz).
Defined.

Lemma history_is_consistent_witness :
  exists self w' hist,
    Trainer.train (F := xreal) toy_train_step toy_eval_loss
      toy_scheduler_step (fun _ => [tt]) [tt] 10 2 (Some "ckpt")
      (Trainer.init toy_model tt, Trainer.World toy_heap [])
    = Ok (self, w', hist) /\
    Trainer.h_epochs hist = length (Trainer.h_val_losses hist) /\
    (Z.of_nat (Trainer.h_epochs hist) <= 10)%Z.
Proof.
  destruct (history_is_consistent (F := xreal) toy_train_step toy_eval_loss
              toy_scheduler_step (fun _ => [tt]) [tt] (Some "ckpt") 10 2
              toy_model tt (Trainer.World toy_heap []))
    as (self & w' & hist & Hrun & Hn & _ & Hle & _).
  - done.
  - done.
  - apply toy_state_ok.
  - exists self, w', hist. split; [exact Hrun|]. split; [exact Hn|]. lia.
Defined.

(** [train_writes_only_checkpoints] on the toy run in binary64: validation
    losses 0, 1, 2, of which only the first improves on the best, so one
    checkpoint is written. *)
Lemma train_writes_only_checkpoints_witness :
  exists self w hist,
    Trainer.train (F := float) toy_train_step toy_eval_loss
      toy_scheduler_step (fun _ => [tt]) [tt] 10 2 (Some "ckpt") toy_start
    = Ok (self, w, hist) /\
    Trainer.h_val_losses hist = [0; 1; 2]%float /\
    Trainer.written w = ["ckpt/best_model.pt"].
Proof.
  assert (Hrun : exists r,
    Trainer.train (F := float) toy_train_step toy_eval_loss
      toy_scheduler_step (fun _ => [tt]) [tt] 10 2 (Some "ckpt") toy_start
    = Ok r /\ Trainer.h_val_losses r.2 = [0; 1; 2]%float)
    by (eexists; split; vm_compute; reflexivity).
  destruct Hrun as ([[self w] hist] & Hrun & Hlosses).
  destruct (train_writes_only_checkpoints (F := float) toy_train_step
              toy_eval_loss toy_scheduler_step (fun _ => [tt]) [tt]
              (Some "ckpt") 10 2 toy_start self w hist Hrun)
    as (new & Hnew & _ & Hw & _).
  exists self, w, hist. split; [exact Hrun|]. split; [exact Hlosses|].
  simpl in Hlosses, Hnew. rewrite Hlosses in Hnew. subst new.
  rewrite Hw. vm_compute. reflexivity.
Defined.

(** ** Training data preparation: the split *)

Section SplitFacts.
Import Np Normalizer Training.
#[local] Open Scope R_scope.
Context {T : Type}.
Variable float_tensor : R -> T.

Lemma broadcast_length (v v' : list R) (k : nat) :
  broadcast v k = Ok v' -> length v' = k.
Proof.
  unfold broadcast. destruct (Nat.eqb_spec (length v) k) as [Hk|_].
  - intros Heq. injection Heq as <-. exact Hk.
  - destruct v as [|x [|]]; try done.
    intros Heq. injection Heq as <-. apply length_replicate.
Qed.

(** An in-place operation keeps the shape: the same number of rows and of
    columns, and rows of the width of the array stay so. *)
Lemma inplace_shape (op : R -> R -> R) (X Y : ndarray R) (v : list R) :
  inplace op X v = Ok Y ->
  ncols Y = ncols X /\ len Y = len X /\ (wf X -> wf Y).
Proof.
  unfold inplace. destruct (broadcast v (ncols X)) as [v'|e] eqn:Hb; [|done].
  simpl. intros Heq. injection Heq as <-. unfold len, wf. simpl.
  split; [done|]. split; [by rewrite length_map|].
  apply broadcast_length in Hb. intros Hwf.
  apply Forall_map. eapply Forall_impl; [exact Hwf|].
  intros row Hrow. simpl. rewrite length_zip_with, Hrow, Hb. lia.
Qed.

Lemma sk_transform_shape (sk : sk_scaler) (X Y : ndarray R) :
  sk_transform sk X = Ok Y ->
  ncols Y = ncols X /\ len Y = len X /\ (wf X -> wf Y).
Proof.
  unfold sk_transform.
  destruct (check_is_fitted sk); [|done]. simpl.
  destruct (check_array X); [|done]. simpl.
  destruct (check_n_features sk X); [|done]. simpl.
  assert (Hstep : forall op1 op2 n1 n2,
    (v ← get_attr sk n1; X' ← inplace op1 X v;
     v2 ← get_attr sk n2; inplace op2 X' v2) = Ok Y ->
    ncols Y = ncols X /\ len Y = len X /\ (wf X -> wf Y)).
  { intros op1 op2 n1 n2.
    destruct (get_attr sk n1) as [v1|]; [|done]. simpl.
    destruct (inplace op1 X v1) as [X'|] eqn:H1; [|done]. simpl.
    destruct (get_attr sk n2) as [v2|]; [|done]. simpl.
    intros H2.
    apply inplace_shape in H1 as (Hc1 & Hl1 & Hw1), H2 as (Hc2 & Hl2 & Hw2).
    split; [congruence|]. split; [congruence|]. auto. }
  destruct (sk_class sk); apply Hstep.
Qed.

Lemma transform_shape (n : normalizer) (X Y : ndarray R) :
  transform n X = Ok Y ->
  ncols Y = ncols X /\ len Y = len X /\ (wf X -> wf Y).
Proof.
  unfold transform. destruct (negb (is_fitted n)); [done|].
  apply sk_transform_shape.
Qed.

(** A one-column array flattens to as many entries as it has rows. *)
Lemma flatten_column_length (Y : ndarray R) :
  wf Y -> ncols Y = 1%nat -> length (flatten Y) = len Y.
Proof.
  unfold wf, flatten, len. intros Hwf Hc. rewrite Hc in Hwf.
  induction Hwf as [|row rws Hrow _ IH]; [done|].
  simpl. rewrite length_app, IH, Hrow. done.
Qed.

(** Whatever the loop returns, its windows are the slices at the indices it
    ran over, in that order, after those it was given. *)
Lemma create_sequences_loop_windows {A} (data : ndarray A)
    (L tc h : nat) (idx : list nat) X y X' y' :
  WindowBuilder.create_sequences_loop data L tc h idx X y = Ok (X', y') ->
  X' = X ++ map (fun i => getslice data i (i + L)) idx.
Proof.
  revert X y. induction idx as [|i idx IH]; intros X y; simpl.
  - intros Heq. injection Heq as <- <-. by rewrite app_nil_r.
  - destruct (if decide (h = 1%nat) then _ else _) as [tgt|]; [|done].
    simpl. intros Heq. apply IH in Heq. rewrite Heq, <- app_assoc. done.
Qed.

Lemma take_drop_three {A} (a b : nat) (l : list A) :
  take a l ++ take b (drop a l) ++ drop (a + b) l = l.
Proof.
  rewrite <- (drop_drop l b a), (take_drop b (drop a l)). apply take_drop.
Qed.

Lemma length_take_take_drop {A B} (a b : nat) (l : list A) (k : list B) :
  length l = length k ->
  length (take a l) = length (take a k) /\
  length (take b (drop a l)) = length (take b (drop a k)) /\
  length (drop (a + b) l) = length (drop (a + b) k).
Proof.
  intros Hlen. rewrite !length_take, !length_drop, Hlen. done.
Qed.

(** The three partitions of a training invocation are consecutive pieces of
    the window list, in chronological order: together they are every window
    of the normalised feature matrix, window [i] being rows [i .. i+L-1],
    and the targets are the normalised closes from row [L] on, so that the
    target of window [i] is the close of row [i + L]; windows and targets
    hold the float32 conversions of those normalised values.  Each
    partition has as many targets as windows. *)
Theorem split_covers_every_window (normalization : string) (L : nat)
    (X_data : ndarray R) (y_data : list R) (p : prepared T) :
  length y_data = len X_data ->
  prepare float_tensor normalization L X_data y_data = Ok p ->
  exists Xn yn,
    transform (X_normalizer p) X_data = Ok Xn /\
    transform (y_normalizer p) (reshape_column y_data) = Ok yn /\
    X_train p ++ X_val p ++ X_test p
    = map (fun i => map (map float_tensor) (take L (drop i (rows Xn))))
          (seq 0 (len X_data - L)) /\
    y_train p ++ y_val p ++ y_test p
    = map float_tensor (drop L (flatten yn)) /\
    (forall i, (i < len X_data - L)%nat ->
       exists v, flatten yn !! (L + i)%nat = Some v /\
                 (y_train p ++ y_val p ++ y_test p) !! i
                 = Some (float_tensor v)) /\
    length (y_train p) = length (X_train p) /\
    length (y_val p) = length (X_val p) /\
    length (y_test p) = length (X_test p).
Proof.
  intros Hy. unfold prepare, fit_transform.
  destruct (init normalization) as [n0|e]; [|done]. simpl.
  destruct (fit n0 X_data) as [nX|e]; [|done]. simpl.
  destruct (transform nX X_data) as [Xn|e] eqn:HXn; [|done]. simpl.
  destruct (fit n0 (reshape_column y_data)) as [ny|e]; [|done]. simpl.
  destruct (transform ny (reshape_column y_data)) as [yn|e] eqn:Hyn; [|done].
  simpl.
  destruct (WindowBuilder.create_sequences float_tensor Xn L 0 1)
    as [[Xs ys]|e] eqn:Hseq; [|done].
  simpl. intros Heq. injection Heq as <-. simpl.
  exists Xn, yn. split; [done|]. split; [done|].
  apply transform_shape in HXn as (_ & HlenX & _).
  apply transform_shape in Hyn as (Hcy & Hleny & Hwfy).
  assert (Hflat : length (flatten yn) = len X_data).
  { rewrite flatten_column_length; [|apply Hwfy|by rewrite Hcy].
    - rewrite Hleny. unfold len, reshape_column. simpl.
      by rewrite length_map.
    - unfold wf, reshape_column. simpl. apply Forall_map.
      by apply Forall_forall. }
  assert (HXs : Xs = map (fun i => map (map float_tensor)
                                     (take L (drop i (rows Xn))))
                         (seq 0 (len X_data - L))).
  { unfold WindowBuilder.create_sequences in Hseq.
    destruct (WindowBuilder.create_sequences_loop _ _ _ _ _ _ _)
      as [[X0 y0]|] eqn:Hloop; [|done].
    simpl in Hseq. injection Hseq as <- _.
    apply create_sequences_loop_windows in Hloop. rewrite Hloop. simpl.
    unfold py_range. rewrite HlenX.
    replace (Z.to_nat _) with (len X_data - L)%nat by lia.
    rewrite map_map. apply map_ext. intros i. unfold getslice.
    do 3 f_equal. lia. }
  assert (HlenXs : length Xs = (len X_data - L)%nat).
  { by rewrite HXs, length_map, length_seq. }
  assert (Htake : take (length Xs) (drop L (flatten yn)) = drop L (flatten yn)).
  { apply take_ge. rewrite length_drop. lia. }
  rewrite Htake.
  assert (Hlens : length (map float_tensor (drop L (flatten yn)))
                  = length Xs).
  { rewrite length_map, length_drop. lia. }
  destruct (length_take_take_drop (train_size (length Xs))
              (val_size (length Xs)) _ _ Hlens) as (H1 & H2 & H3).
  rewrite !take_drop_three.
  split; [exact HXs|]. split; [done|]. split; [|done].
  intros i Hi.
  destruct (lookup_lt_is_Some_2 (flatten yn) (L + i)) as [v Hv]; [lia|].
  exists v. split; [exact Hv|].
  by rewrite list_lookup_fmap, lookup_drop, Hv.
Qed.

End SplitFacts.

(** [split_covers_every_window] on the 20-row table with sequence length
    10: ten windows, split 7 / 1 / 2. *)
Lemma split_covers_every_window_witness :
  exists p,
    Training.prepare Np.float32 "standard" 10 (leak_X 20) (leak_y 20)
    = Ok p /\
    length (Training.X_train p ++ Training.X_val p ++ Training.X_test p)
    = 10%nat /\
    length (Training.y_train p) = length (Training.X_train p).
Proof.
  destruct (prepare_leak_returns 20) as [p Hp]. exists p.
  destruct (split_covers_every_window Np.float32 "standard" 10
              (leak_X 20) (leak_y 20) p)
    as (Xn & yn & _ & _ & HX & _ & _ & Htr & _).
  - reflexivity.
  - exact Hp.
  - split; [exact Hp|]. split; [|exact Htr].
    rewrite HX, length_map, length_seq. reflexivity.
Defined.

(** ** EnsembleCombiner: the combined price stays among the predictions *)

Section EnsembleRange.
Import Np EnsembleService.
#[local] Open Scope R_scope.

(** A sum of products with non-negative weights lies between the bounds of
    the other factor, scaled by the sum of the weights. *)
Lemma weighted_sum_bounds (lo hi : R) (prices ws : list R) :
  length prices = length ws ->
  Forall (fun x => lo <= x <= hi) prices ->
  Forall (fun w => 0 <= w) ws ->
  lo * np_sum ws <= np_sum (np_multiply prices ws) <= hi * np_sum ws.
Proof.
  intros Hlen Hp. revert ws Hlen.
  induction Hp as [|x prices Hx _ IH]; intros [|w ws] Hlen Hw;
    simpl in *; try lia.
  - lra.
  - inversion Hw as [|? ? Hw0 Hws]; subst.
    specialize (IH ws ltac:(lia) Hws).
    unfold np_sum, np_multiply in *. nra.
Qed.

Lemma nth_sorted_bounds (lo hi : R) (l : list R) (i : nat) :
  Forall (fun x => lo <= x <= hi) l -> (i < length l)%nat ->
  lo <= nth i (np_sort l) 0 <= hi.
Proof.
  intros Hl Hi. unfold np_sort.
  pose proof (merge_sort_Permutation Rle l) as Hp.
  assert (Hs : Forall (fun x => lo <= x <= hi) (merge_sort Rle l))
    by (by rewrite Hp).
  rewrite Forall_forall in Hs. apply Hs.
  apply list_elem_of_In, nth_In. by rewrite Hp.
Qed.

(** Both strategies return a price among the predictions they combine: the
    weighted average of non-negative weights that do not all vanish, and the
    median, lie between the smallest and the largest predicted price. *)
Theorem combined_price_within_predictions (predictions : list prediction)
    (weights : list R) (lo hi : R) :
  predictions <> [] ->
  Forall (fun p => lo <= predicted_price p <= hi) predictions ->
  (length weights = length predictions ->
   Forall (fun w => 0 <= w) weights -> np_sum weights <> 0 ->
   exists r m, _weighted_average predictions weights = Ok r /\
               combined_price r = Num m /\ lo <= m <= hi) /\
  (exists r m, _voting predictions = Ok r /\
               combined_price r = Num m /\ lo <= m <= hi).
Proof.
  intros Hne Hp.
  assert (Hprices : Forall (fun x => lo <= x <= hi)
                           (map predicted_price predictions)).
  { apply Forall_map. exact Hp. }
  assert (Hn : (0 < length predictions)%nat)
    by (destruct predictions; [done|simpl; lia]).
  split.
  - intros Hlen Hw Hs.
    destruct (normalize_sums_to_one weights Hs) as (ws & Hnorm & Hws & Hone).
    assert (Hpos : 0 < np_sum weights).
    { pose proof (np_sum_nonneg weights Hw). lra. }
    assert (Hws0 : Forall (fun w => 0 <= w) ws).
    { subst ws. apply Forall_map. eapply Forall_impl; [exact Hw|].
      intros w Hw0. simpl. apply Rmult_le_pos; [done|].
      left. by apply Rinv_0_lt_compat. }
    assert (Hlen' : length (map predicted_price predictions) = length ws).
    { subst ws. by rewrite !length_map. }
    pose proof (weighted_sum_bounds lo hi _ ws Hlen' Hprices Hws0) as Hb.
    rewrite Hone in Hb.
    unfold _weighted_average. rewrite Hnorm. unfold np_average.
    rewrite Hlen', Nat.eqb_refl. simpl.
    destruct (Req_dec_T (np_sum ws) 0) as [Hz|_]; [lra|]. simpl.
    eexists. eexists. split; [reflexivity|]. simpl. split; [reflexivity|].
    rewrite Hone. unfold Rdiv. rewrite Rinv_1. lra.
  - unfold _voting, np_median. rewrite length_map.
    destruct (Nat.eqb_spec (length predictions) 0) as [|_]; [lia|].
    eexists. eexists. split; [reflexivity|]. simpl. split; [reflexivity|].
    unfold median. rewrite length_map.
    set (n := length predictions) in *.
    assert (Hhalf : (n / 2 < n)%nat) by (apply Nat.div_lt; lia).
    destruct (Nat.even n).
    + assert (H1 := nth_sorted_bounds lo hi _ (n / 2 - 1) Hprices
                      ltac:(rewrite length_map; fold n; lia)).
      assert (H2 := nth_sorted_bounds lo hi _ (n / 2) Hprices
                      ltac:(rewrite length_map; fold n; lia)).
      lra.
    + apply nth_sorted_bounds; [done|]. rewrite length_map. fold n. lia.
Qed.

End EnsembleRange.

(** [combined_price_within_predictions] at the two predictions 100 and 102
    with weights 0.6 and 0.4. *)
Lemma combined_price_within_predictions_witness :
  (exists r m,
     EnsembleService._weighted_average predictions_100_102 [0.6; 0.4]%R = Ok r /\
     EnsembleService.combined_price r = EnsembleService.Num m /\
     (100 <= m <= 102)%R) /\
  (exists r m,
     EnsembleService._voting predictions_100_102 = Ok r /\
     EnsembleService.combined_price r = EnsembleService.Num m /\
     (100 <= m <= 102)%R).
Proof.
  destruct (combined_price_within_predictions predictions_100_102
              [0.6; 0.4]%R 100%R 102%R) as [Hw Hv].
  - done.
  - repeat constructor; simpl; lra.
  - split; [|exact Hv]. apply Hw.
    + reflexivity.
    + repeat constructor; lra.
    + simpl. lra.
Defined.

(** ** TrainingController: [Trainer.evaluate] (training/trainer.py)

    The endpoint evaluates on a [DataLoader] over the test partition with
    [shuffle=False]: consecutive batches of [batch_size] samples, the last
    one holding what is left.  In [eval] mode the predictor maps every
    sample of a batch to one output, the batch to a tensor of shape
    [(batch, 1)]; a sample is paired with its target. *)

Module Evaluate.
Section Evaluate.
Context {F : Type} `{Floating F}.
Context {tensor sample : Type}.
(** [self.model(batch_X)], sample by sample. *)
Variable forward : list tensor -> sample -> F.

Definition batch : Type := list (sample * F).

(** [DataLoader(TensorDataset(X, y), batch_size=batch_size, shuffle=False)] *)
Definition data_loader (dataset : list (sample * F)) (batch_size : nat)
    : result (list batch) :=
  if (batch_size =? 0)%nat then
    Raise (ValueError "batch_size should be a positive integer value")
  else
    Ok (map (fun i => take batch_size (drop (i * batch_size) dataset))
            (seq 0 ((length dataset + batch_size - 1) / batch_size))).

Record metrics : Type := Metrics {
  mae : F;
  rmse : F;
  mape : F;
  r2_score : F;
  directional_accuracy : F;
}.

(** [all_predictions.extend(predictions.squeeze().cpu().numpy())]:
    [squeeze] turns the [(1, 1)] output of a one-sample batch into a 0-d
    array, and [extend] cannot iterate over it. *)
Definition extend_squeezed (all_predictions predictions : list F)
    : result (list F) :=
  match predictions with
  | [_] => Raise (TypeError "iteration over a 0-d array")
  | _ => Ok (all_predictions ++ predictions)
  end.

(** The [for batch_X, batch_y in test_loader] loop. *)
Fixpoint evaluate_loop (params : list tensor) (test_loader : list batch)
    (all_predictions all_targets : list F) : result (list F * list F) :=
  match test_loader with
  | [] => Ok (all_predictions, all_targets)
  | b :: test_loader' =>
      let predictions := map (fun st => forward params st.1) b in
      all_predictions ← extend_squeezed all_predictions predictions;
      let all_targets := all_targets ++ map snd b in
      evaluate_loop params test_loader' all_predictions all_targets
  end.

(** [np.sum] and [np.mean]; the mean of an empty array is [0 / 0]. *)
Definition sum (a : list F) : F := foldr f_add (f_of_Z 0) a.

Definition mean (a : list F) : F :=
  f_div (sum a) (f_of_Z (Z.of_nat (length a))).

(** [x ** 2] *)
Definition square (x : F) : F := f_mul x x.

(** [x != 0]: true for nan. *)
Definition nonzero (x : F) : bool :=
  f_isnan x || f_ltb x (f_of_Z 0) || f_ltb (f_of_Z 0) x.

(** [np.sign]: -1, 0 or 1, and nan ([None]) for nan. *)
Definition sign (x : F) : option Z :=
  if f_isnan x then None
  else if f_ltb x (f_of_Z 0) then Some (-1)%Z
  else if f_ltb (f_of_Z 0) x then Some 1%Z
  else Some 0%Z.

(** [np.sign(p) == np.sign(t)]: nan equals nothing. *)
Definition same_sign (p t : F) : bool :=
  match sign p, sign t with
  | Some a, Some b => (a =? b)%Z
  | _, _ => false
  end.

Definition evaluate (params : list tensor) (test_loader : list batch)
    : result metrics :=
  '(all_predictions, all_targets) ← evaluate_loop params test_loader [] [];
  let predictions := all_predictions in
  let targets := all_targets in
  let mae := mean (map f_abs (zip_with f_sub predictions targets)) in
  let mse := mean (map square (zip_with f_sub predictions targets)) in
  let rmse := f_sqrt mse in
  let mape :=
    f_mul (mean (map f_abs (zip_with f_div (zip_with f_sub predictions targets)
                                     targets)))
          (f_of_Z 100) in
  let ss_res := sum (map square (zip_with f_sub targets predictions)) in
  let ss_tot :=
    sum (map square (map (fun t => f_sub t (mean targets)) targets)) in
  let r2 :=
    if nonzero ss_tot then f_sub (f_of_Z 1) (f_div ss_res ss_tot)
    else f_of_Z 0 in
  let direction_correct :=
    length (filter (fun pt => same_sign pt.1 pt.2 = true)
                   (zip predictions targets)) in
  let directional_accuracy :=
    f_mul (f_div (f_of_Z (Z.of_nat direction_correct))
                 (f_of_Z (Z.of_nat (length predictions))))
          (f_of_Z 100) in
  Ok {| mae := mae;
        rmse := rmse;
        mape := mape;
        r2_score := r2;
        directional_accuracy := directional_accuracy |}.

End Evaluate.
Arguments metrics F : clear implicits.
End Evaluate.

(** ** Evaluation: the batches of the test loader *)

Section EvaluateBatches.
Context {F : Type} `{Floating F}.
Context {tensor sample : Type}.
Variable forward : list tensor -> sample -> F.
Import Evaluate.

Implicit Types (params : list tensor) (dataset : list (sample * F))
  (test_loader : list (batch (F := F) (sample := sample))).

(** A test partition leaves a single sample over: its size is 1 modulo the
    batch size, or the batch size is 1. *)
Definition leftover_sample (n batch_size : nat) : Prop :=
  n mod batch_size = 1 \/ (batch_size = 1 /\ 0 < n).

Lemma leftover_sample_iff (n b : nat) :
  0 < b ->
  (exists i, i < (n + b - 1) / b /\ Nat.min b (n - i * b) = 1)
  <-> leftover_sample n b.
Proof.
  intros Hb. unfold leftover_sample. split.
  - intros (i & Hi & Hmin).
    destruct (decide (b = 1)) as [->|Hb1].
    + right. split; [done|]. lia.
    + left. assert (Hn : n = b * i + 1) by lia.
      symmetry. apply (Nat.mod_unique n b i 1); lia.
  - intros [Hmod|[-> Hn]].
    + assert (Hb2 : 1 < b).
      { destruct (decide (b = 1)) as [->|]; [|lia].
        rewrite Nat.mod_1_r in Hmod. done. }
      pose proof (Nat.div_mod_eq n b) as Hdiv. rewrite Hmod in Hdiv.
      set (q := n / b) in *. exists q.
      assert (Hq : (n + b - 1) / b = S q).
      { symmetry. apply (Nat.div_unique _ b (S q) 0); lia. }
      rewrite Hq. split; [lia|]. lia.
    + exists 0. rewrite Nat.div_1_r. lia.
Qed.

Lemma data_loader_batches dataset (b : nat) test_loader :
  data_loader dataset b = Ok test_loader ->
  0 < b /\
  (Exists (fun bt => length bt = 1) test_loader
   <-> leftover_sample (length dataset) b) /\
  concat test_loader = dataset.
Proof.
  unfold data_loader. destruct (Nat.eqb_spec b 0) as [|Hb]; [done|].
  intros Heq. injection Heq as <-. split; [lia|]. split.
  - rewrite <- leftover_sample_iff by lia. rewrite Exists_exists. split.
    + intros (bt & Hin & Hlen).
      apply list_elem_of_fmap in Hin as (i & -> & Hi).
      apply elem_of_seq in Hi. exists i. split; [lia|].
      rewrite length_take, length_drop in Hlen. exact Hlen.
    + intros (i & Hi & Hmin). eexists. split.
      * apply list_elem_of_fmap. exists i. split; [reflexivity|].
        apply elem_of_seq. lia.
      * by rewrite length_take, length_drop.
  - set (k := (length dataset + b - 1) / b).
    assert (Hk : length dataset <= k * b).
    { subst k. pose proof (Nat.div_mod_eq (length dataset + b - 1) b).
      pose proof (Nat.mod_upper_bound (length dataset + b - 1) b). lia. }
    clearbody k. revert dataset Hk.
    induction k as [|k IH]; intros dataset Hk.
    + simpl in *. destruct dataset; [done|simpl in Hk; lia].
    + rewrite seq_S, map_app, concat_app. simpl. rewrite app_nil_r.
      transitivity (take (k * b) dataset ++ drop (k * b) dataset);
        [|apply take_drop].
      f_equal.
      * etrans; [|apply (IH (take (k * b) dataset)); rewrite length_take; lia].
        f_equal. apply map_ext_in. intros i Hi. apply in_seq in Hi.
        assert (i * b + b <= k * b) by nia.
        apply list_eq. intros j. destruct (decide (j < b)).
        -- rewrite !lookup_take_lt, !lookup_drop by done.
           by rewrite lookup_take_lt by lia.
        -- by rewrite !lookup_take_ge by lia.
      * apply take_ge. rewrite length_drop. lia.
Qed.

Lemma evaluate_loop_ok params test_loader (P T : list F) :
  Forall (fun bt => length bt <> 1) test_loader ->
  evaluate_loop forward params test_loader P T
  = Ok (P ++ map (fun st => forward params st.1) (concat test_loader),
        T ++ map snd (concat test_loader)).
Proof.
  intros Hall. revert P T.
  induction Hall as [|bt test_loader Hbt _ IH]; intros P T; simpl.
  - by rewrite !app_nil_r.
  - unfold extend_squeezed.
    destruct bt as [|x [|y bt]]; simpl in *; try done;
      rewrite IH; simpl; rewrite ?map_app, <- ?app_assoc; done.
Qed.

Lemma evaluate_loop_raise params test_loader (P T : list F) :
  Exists (fun bt => length bt = 1) test_loader ->
  evaluate_loop forward params test_loader P T
  = Raise (TypeError "iteration over a 0-d array").
Proof.
  revert P T. induction test_loader as [|bt test_loader IH]; intros P T Hex.
  - by apply Exists_nil in Hex.
  - simpl. destruct bt as [|x [|y bt]]; simpl.
    + apply IH. apply Exists_cons in Hex as [Hex|Hex]; [done|exact Hex].
    + reflexivity.
    + apply IH. apply Exists_cons in Hex as [Hex|Hex]; [|exact Hex].
      simpl in Hex. lia.
Qed.

Lemma leftover_sample_dec (n b : nat) :
  leftover_sample n b \/ ~ leftover_sample n b.
Proof.
  unfold leftover_sample.
  destruct (decide (n mod b = 1)); [by left; left|].
  destruct (decide (b = 1)); [|right; intros [|[]]; done].
  destruct (decide (0 < n)); [left; right; done|].
  right. intros [|[]]; done.
Qed.

(** The evaluation of a loader with a one-sample batch raises. *)
Lemma evaluate_leftover params dataset (b : nat) test_loader :
  data_loader dataset b = Ok test_loader ->
  leftover_sample (length dataset) b ->
  evaluate forward params test_loader
  = Raise (TypeError "iteration over a 0-d array").
Proof.
  intros Hload Hleft.
  apply data_loader_batches in Hload as (_ & Hex & _).
  unfold evaluate. rewrite evaluate_loop_raise; [done|]. by apply Hex.
Qed.

(** [evaluate] on the test loader of the endpoint raises a [TypeError]
    exactly when the partition leaves a single sample for the last batch
    (or the batch size is one); in every other case, the empty partition
    included, it returns metrics. *)
Theorem evaluate_fails_on_leftover_sample params dataset (batch_size : nat)
    test_loader :
  data_loader dataset batch_size = Ok test_loader ->
  (leftover_sample (length dataset) batch_size ->
   evaluate forward params test_loader
   = Raise (TypeError "iteration over a 0-d array")) /\
  (~ leftover_sample (length dataset) batch_size ->
   exists m, evaluate forward params test_loader = Ok m).
Proof.
  intros Hload. split.
  - by apply evaluate_leftover.
  - intros Hno. apply data_loader_batches in Hload as (_ & Hex & _).
    unfold evaluate. rewrite evaluate_loop_ok.
    + simpl. eauto.
    + apply Forall_forall. intros bt Hin Hlen. apply Hno, Hex.
      apply Exists_exists. eauto.
Qed.

End EvaluateBatches.

(** Three samples in batches of two: the last batch has one sample. *)
Lemma evaluate_fails_on_leftover_sample_witness :
  Evaluate.evaluate (F := xreal) (tensor := Z) (fun _ (s : xreal) => s) []
    [[(Fin 1, Fin 1); (Fin 2, Fin 2)]; [(Fin 3, Fin 3)]]
  = Raise (TypeError "iteration over a 0-d array").
Proof.
  apply (proj1 (evaluate_fails_on_leftover_sample (F := xreal) (tensor := Z)
                  (fun _ (s : xreal) => s) []
                  [(Fin 1, Fin 1); (Fin 2, Fin 2); (Fin 3, Fin 3)] 2 _
                  eq_refl)).
  left. reflexivity.
Defined.

(** ** Training endpoint: a test partition that leaves one sample *)

Section LeftoverSample.
Context {F : Type} `{Floating F}.
Context {tensor sample optim : Type}.
Variable train_step :
  list tensor -> optim -> Evaluate.batch (F := F) (sample := sample)
  -> list tensor * optim * F.
Variable eval_loss :
  list tensor -> Evaluate.batch (F := F) (sample := sample) -> F.
Variable scheduler_step : optim -> F -> optim.
Variable forward : list tensor -> sample -> F.
Import Trainer TrainModel.


End LeftoverSample.

(** A predictor that returns its one-number sample, trained on one batch
    of two samples, in binary64. *)
Definition pair_batch : list (float * float) :=
  [(1, 1); (2, 2)]%float.

Definition pair_train_step (params : list Z) (opt : unit)
    (b : list (float * float)) : list Z * unit * float :=
  toy_train_step params opt tt.

Definition pair_eval_loss (params : list Z) (b : list (float * float))
    : float :=
  toy_eval_loss params tt.

